(** * Flow-Agent: the tool-orchestration state machine of
      [agents/stock_search_agent.py] and the parameter extractor of
      [core/query_parser.py], as a shallow embedding.

    Python values are modelled as the code has them:
    - a [str] is its sequence of Unicode code points ([list N]);
    - a decoded JSON document is a [json] tree, a [dict] being an
      association list in insertion order with unique keys, an [int] an
      exact integer and a [float] a binary64 number;
    - an exception is a value of [exn], and code that may raise returns a
      [may_raise];
    - the two limits of the interpreter that the code can meet are part of
      the model: the longest decimal numeral that [int] converts
      ([sys.get_int_max_str_digits()], 4300 unless changed, and the
      repository does not change it) and the nesting that the recursion
      limit leaves to [json.loads] at the place of a call, which is a
      parameter of that call;
    - the language model, the tool handlers and the SQL subsystem are
      external collaborators: they are parameters that thread a world [W]. *)

From Stdlib Require Import List NArith ZArith Bool Lia String Ascii PeanoNat SpecFloat.
Import ListNotations.

Set Implicit Arguments.
Set Warnings "-register-all".

(* ================================================================== *)
(** ** Python strings *)
(* ================================================================== *)

Module Py.

Open Scope N_scope.

(** A Python [str]: the sequence of its code points. *)
Definition str := list N.

(** Decoding of the UTF-8 bytes of a literal of this file into code points
    (the literals of the source are written in UTF-8 here as they are there). *)
Fixpoint utf8_decode (bs : list N) : str :=
  match bs with
  | [] => []
  | b :: r =>
      if b <? 128 then b :: utf8_decode r
      else if b <? 224 then
        match r with
        | b1 :: r1 => ((b - 192) * 64 + (b1 - 128)) :: utf8_decode r1
        | [] => [b]
        end
      else if b <? 240 then
        match r with
        | b1 :: b2 :: r2 =>
            ((b - 224) * 4096 + (b1 - 128) * 64 + (b2 - 128)) :: utf8_decode r2
        | _ => [b]
        end
      else
        match r with
        | b1 :: b2 :: b3 :: r3 =>
            ((b - 240) * 262144 + (b1 - 128) * 4096 + (b2 - 128) * 64 + (b3 - 128))
              :: utf8_decode r3
        | _ => [b]
        end
  end.

(** [u "..."] is the [str] written by the literal. *)
Definition u (s : string) : str :=
  utf8_decode (List.map N_of_ascii (list_ascii_of_string s)).

(** [qq "..."] is [u "..."] with every apostrophe (U+0027) replaced by a
    double quote (U+0022); it is how this file writes JSON text and the
    patterns that contain a double quote. *)
Definition qq (s : string) : str :=
  List.map (fun c => if c =? 39 then 34 else c) (u s).

Fixpoint str_eqb (a b : str) : bool :=
  match a, b with
  | [], [] => true
  | x :: a', y :: b' => (x =? y) && str_eqb a' b'
  | _, _ => false
  end.

(** [strip_prefix p s] is [Some r] when [s = p ++ r]. *)
Fixpoint strip_prefix (p s : str) : option str :=
  match p, s with
  | [], _ => Some s
  | x :: p', y :: s' => if x =? y then strip_prefix p' s' else None
  | _ :: _, [] => None
  end.

Definition startswith (p s : str) : bool :=
  match strip_prefix p s with Some _ => true | None => false end.

(** [contains kw s] is Python's [kw in s] on strings. *)
Fixpoint contains (kw s : str) : bool :=
  startswith kw s ||
  match s with
  | [] => false
  | _ :: s' => contains kw s'
  end.

(** [sep.join(l)]. *)
Fixpoint join (sep : str) (l : list str) : str :=
  match l with
  | [] => []
  | [x] => x
  | x :: l' => x ++ sep ++ join sep l'
  end.

(** [s.split(sep)] for a one-character separator: always at least one field. *)
Fixpoint split_on (sep : N) (s : str) : list str :=
  match s with
  | [] => [[]]
  | c :: s' =>
      if c =? sep then [] :: split_on sep s'
      else match split_on sep s' with
           | f :: fs => (c :: f) :: fs
           | [] => [[c]]
           end
  end.

(** [str.isspace] on one code point; it is also what [\s] matches in a
    [str] pattern. *)
Definition isspace (c : N) : bool :=
  ((9 <=? c) && (c <=? 13)) || ((28 <=? c) && (c <=? 32)) ||
  (c =? 133) || (c =? 160) || (c =? 5760) ||
  ((8192 <=? c) && (c <=? 8202)) || (c =? 8232) || (c =? 8233) ||
  (c =? 8239) || (c =? 8287) || (c =? 12288).

Fixpoint lstrip (s : str) : str :=
  match s with
  | c :: s' => if isspace c then lstrip s' else s
  | [] => []
  end.

Definition rstrip (s : str) : str := rev (lstrip (rev s)).

(** [s.strip()]. *)
Definition strip (s : str) : str := rstrip (lstrip s).

(** A non-empty string is truthy. *)
Definition nonempty (s : str) : bool :=
  match s with [] => false | _ :: _ => true end.

(** Decimal rendering of a natural number, as [str(n)] and an f-string
    render a non-negative [int]. *)
Fixpoint digits_of (fuel : nat) (n : N) (acc : str) : str :=
  match fuel with
  | O => acc
  | S f =>
      let acc' := (48 + n mod 10) :: acc in
      if n <? 10 then acc' else digits_of f (n / 10) acc'
  end.

Definition str_of_N (n : N) : str := digits_of (S (N.to_nat (N.log2 n))) n [].

Definition str_of_nat (n : nat) : str := str_of_N (N.of_nat n).

(** [sys.get_int_max_str_digits()]: the longest decimal numeral that [int]
    converts. *)
Definition int_max_str_digits : nat := 4300.

(** [str(e)] of the [ValueError] that [int] raises on a numeral of [digits]
    digits, more than the limit. *)
Definition int_limit_msg (digits : nat) : str :=
  u "Exceeds the limit (4300 digits) for integer string conversion: value has "
    ++ str_of_nat digits
    ++ u " digits; use sys.set_int_max_str_digits() to increase the limit".

End Py.

Import Py.

(* ================================================================== *)
(** ** Exceptions and results *)
(* ================================================================== *)

(** The exceptions that occur in the modelled code.  [External msg] is an
    exception raised by a collaborator (model client, tool handler, SQL
    subsystem); [msg] is its [str(e)]. *)
Inductive exn : Type :=
| JSONDecodeError
| TypeError (msg : str)
| ValueError (msg : str)
| RecursionError (msg : str)
| GraphRecursionError
| External (msg : str).

(** [str(e)]. *)
Definition exn_str (e : exn) : str :=
  match e with
  | JSONDecodeError => u "JSONDecodeError"
  | TypeError msg => msg
  | ValueError msg => msg
  | RecursionError msg => msg
  | GraphRecursionError => u "Recursion limit of 25 reached without hitting a stop condition."
  | External msg => msg
  end.

Inductive may_raise (A : Type) : Type :=
| Ok (a : A)
| Raise (e : exn).

Arguments Ok {A} a.
Arguments Raise {A} e.

Definition bind {A B} (r : may_raise A) (k : A -> may_raise B) : may_raise B :=
  match r with
  | Ok a => k a
  | Raise e => Raise e
  end.

Definition is_ok {A} (r : may_raise A) : bool :=
  match r with Ok _ => true | Raise _ => false end.


(* ================================================================== *)
(** ** JSON values and [json.loads] *)
(* ================================================================== *)

Module Json.

Open Scope N_scope.

(** What [json.loads] returns.  An [int] is exact; a [float] is a
    binary64 number, the one nearest to its literal ([NaN], [Infinity] and
    [-Infinity] are floats too). *)
Inductive json : Type :=
| JNull
| JBool (b : bool)
| JInt (z : Z)
| JFloat (f : spec_float)
| JString (s : str)
| JArray (l : list json)
| JObject (m : list (str * json)).

(** A Python [dict] with [str] keys: insertion order, unique keys. *)
Definition dict := list (str * json).

Fixpoint dict_get (k : str) (m : dict) : option json :=
  match m with
  | [] => None
  | (k', v) :: m' => if str_eqb k k' then Some v else dict_get k m'
  end.

(** [k in m]. *)
Definition dict_has (k : str) (m : dict) : bool :=
  match dict_get k m with Some _ => true | None => false end.

(** [m[k] = v]: a present key keeps its place. *)
Fixpoint dict_set (k : str) (v : json) (m : dict) : dict :=
  match m with
  | [] => [(k, v)]
  | (k', v') :: m' =>
      if str_eqb k k' then (k', v) :: m' else (k', v') :: dict_set k v m'
  end.

(** The whitespace of the JSON grammar. *)
Definition is_ws (c : N) : bool :=
  (c =? 32) || (c =? 9) || (c =? 10) || (c =? 13).

Fixpoint skip_ws (s : str) : str :=
  match s with
  | c :: s' => if is_ws c then skip_ws s' else s
  | [] => []
  end.

Definition is_digit (c : N) : bool := (48 <=? c) && (c <=? 57).

Definition hex_val (c : N) : option N :=
  if (48 <=? c) && (c <=? 57) then Some (c - 48)
  else if (97 <=? c) && (c <=? 102) then Some (c - 87)
  else if (65 <=? c) && (c <=? 70) then Some (c - 55)
  else None.

(** The four hexadecimal digits of a [\uXXXX] escape. *)
Definition hex4 (s : str) : option (N * str) :=
  match s with
  | a :: b :: c :: d :: r =>
      match hex_val a, hex_val b, hex_val c, hex_val d with
      | Some x, Some y, Some z, Some w => Some (((x * 16 + y) * 16 + z) * 16 + w, r)
      | _, _, _, _ => None
      end
  | _ => None
  end.

(** The one-character escapes: quote, backslash, slash, b, f, n, r, t. *)
Definition simple_escape (c : N) : option N :=
  if c =? 34 then Some 34
  else if c =? 92 then Some 92
  else if c =? 47 then Some 47
  else if c =? 98 then Some 8
  else if c =? 102 then Some 12
  else if c =? 110 then Some 10
  else if c =? 114 then Some 13
  else if c =? 116 then Some 9
  else None.

(** The body of a string literal, after its opening quote, in strict mode:
    a raw control character is an error; a high surrogate escape followed by
    a low surrogate escape is one code point. *)
Fixpoint scanstring (fuel : nat) (s : str) (acc : str) : option (str * str) :=
  match fuel with
  | O => None
  | S f =>
      match s with
      | [] => None
      | c :: r =>
          if c =? 34 then Some (rev acc, r)
          else if c <? 32 then None
          else if c =? 92 then
            match r with
            | [] => None
            | e :: r1 =>
                if e =? 117 then
                  match hex4 r1 with
                  | None => None
                  | Some (uni, r2) =>
                      if (55296 <=? uni) && (uni <=? 56319) then
                        match strip_prefix [92; 117] r2 with
                        | Some r3 =>
                            match hex4 r3 with
                            | None => None
                            | Some (uni2, r4) =>
                                if (56320 <=? uni2) && (uni2 <=? 57343)
                                then scanstring f r4
                                       ((65536 + ((uni - 55296) * 1024 + (uni2 - 56320))) :: acc)
                                else scanstring f r2 (uni :: acc)
                            end
                        | None => scanstring f r2 (uni :: acc)
                        end
                      else scanstring f r2 (uni :: acc)
                  end
                else
                  match simple_escape e with
                  | Some ch => scanstring f r1 (ch :: acc)
                  | None => None
                  end
            end
          else scanstring f r (c :: acc)
      end
  end.

Fixpoint take_digits (s : str) (acc : str) : str * str :=
  match s with
  | c :: r => if is_digit c then take_digits r (c :: acc) else (rev acc, s)
  | [] => (rev acc, [])
  end.

Fixpoint digits_value (ds : str) (acc : Z) : Z :=
  match ds with
  | [] => acc
  | d :: ds' => digits_value ds' (acc * 10 + Z.of_N (d - 48))%Z
  end.

(** The binary64 number nearest to [m * 10 ^ e10], ties going to the even
    mantissa, as [float] converts a decimal literal; [m] is not negative
    and has at most [digits] decimal digits.  Beyond [10 ^ 310] the result
    is an infinity and below [10 ^ -330] it is a zero; between them the
    quotient by a power of ten is cut after more than 64 bits, the last
    bit recording whether anything was cut off, which rounds as the exact
    quotient does. *)
Definition double_of (neg : bool) (m : Z) (digits : nat) (e10 : Z) : spec_float :=
  let magnitude :=
    if (m =? 0)%Z then S754_zero false
    else if (310 <=? e10)%Z then S754_infinity false
    else if (e10 + Z.of_nat digits <=? -330)%Z then S754_zero false
    else if (0 <=? e10)%Z then binary_normalize 53 1024 (m * 10 ^ e10)%Z 0%Z false
    else
      let d := (10 ^ (- e10))%Z in
      let s := (Z.log2 d + 64)%Z in
      let q := (Z.shiftl m s / d)%Z in
      let sticky := if (Z.shiftl m s mod d =? 0)%Z then 0%Z else 1%Z in
      binary_normalize 53 1024 (2 * q + sticky)%Z (- s - 1)%Z false in
  if neg then SFopp magnitude else magnitude.

(** [maximum recursion depth exceeded while decoding a JSON ...]: what
    [str(e)] is when the decoder meets an array or an object that is nested
    deeper than the recursion limit allows. *)
Definition too_deep (what : string) : exn :=
  RecursionError
    (u "maximum recursion depth exceeded while decoding a JSON " ++ u what
       ++ u " from a unicode string").

(** A number literal: an optional minus sign, then [0] or a run of digits
    that does not start with [0], then an optional fraction (a dot and
    digits) and an optional exponent ([e] or [E], an optional sign, digits).
    It is an [int] when it has neither fraction nor exponent, and [int]
    raises [ValueError] when it has more digits than
    [int_max_str_digits]; otherwise it is a [float]. *)
Definition scan_number (s : str) : may_raise (json * str) :=
  let '(neg, s1) := match s with
                    | 45 :: r => (true, r)
                    | _ => (false, s)
                    end in
  match s1 with
  | [] => Raise JSONDecodeError
  | c :: r =>
      if negb (is_digit c) then Raise JSONDecodeError
      else
        let '(ip, s2) := if c =? 48 then ([c], r) else take_digits s1 [] in
        let '(fp, s3) :=
          match s2 with
          | 46 :: d :: r' =>
              if is_digit d then take_digits (d :: r') [] else ([], s2)
          | _ => ([], s2)
          end in
        let '(ep, s4) :=
          match s3 with
          | e :: r' =>
              if (e =? 101) || (e =? 69) then
                let '(minus, r'') := match r' with
                                     | x :: t => if x =? 43 then (false, t)
                                                 else if x =? 45 then (true, t)
                                                 else (false, r')
                                     | [] => (false, r')
                                     end in
                match take_digits r'' [] with
                | ([], _) => (None, s3)
                | (ds, t) =>
                    let v := digits_value ds 0%Z in
                    (Some (if minus then (- v)%Z else v), t)
                end
              else (None, s3)
          | [] => (None, s3)
          end in
        match fp, ep with
        | [], None =>
            if Nat.ltb int_max_str_digits (List.length ip)
            then Raise (ValueError (int_limit_msg (List.length ip)))
            else
              let v := digits_value ip 0%Z in
              Ok (JInt (if neg then (- v)%Z else v), s4)
        | _, _ =>
            let e := match ep with Some e => e | None => 0%Z end in
            Ok (JFloat (double_of neg (digits_value (ip ++ fp) 0%Z)
                          (List.length (ip ++ fp))
                          (e - Z.of_nat (List.length fp))%Z),
                s4)
        end
  end.

(** The body of a string literal as a value of the decoder. *)
Definition scan_string (r : str) : may_raise (str * str) :=
  match scanstring (S (List.length r)) r [] with
  | Some (k, r') => Ok (k, r')
  | None => Raise JSONDecodeError
  end.

(** One JSON value at the head of [s], and what follows it.  [depth] is
    the number of arrays and objects, one inside the other, that the
    recursion limit of the interpreter still allows: the decoder enters
    one recursive call for each, and meeting one more raises
    [RecursionError] at its opening bracket.  The first failure met from
    left to right is the one raised. *)
Fixpoint scan_once (fuel : nat) (depth : nat) (s : str) : may_raise (json * str) :=
  match fuel with
  | O => Raise JSONDecodeError
  | S f =>
      match s with
      | [] => Raise JSONDecodeError
      | c :: r =>
          if c =? 34 then
            bind (scan_string r) (fun kr => Ok (JString (fst kr), snd kr))
          else if c =? 123 then
            match depth with
            | O => Raise (too_deep "object")
            | S d =>
                match skip_ws r with
                | [] => Raise JSONDecodeError
                | c' :: r' =>
                    if c' =? 125 then Ok (JObject [], r')
                    else parse_members f d (c' :: r') []
                end
            end
          else if c =? 91 then
            match depth with
            | O => Raise (too_deep "array")
            | S d =>
                match skip_ws r with
                | [] => Raise JSONDecodeError
                | c' :: r' =>
                    if c' =? 93 then Ok (JArray [], r')
                    else parse_elements f d (c' :: r') []
                end
            end
          else
            match strip_prefix (u "null") s, strip_prefix (u "true") s,
                  strip_prefix (u "false") s, strip_prefix (u "NaN") s,
                  strip_prefix (u "Infinity") s, strip_prefix (u "-Infinity") s with
            | Some r', _, _, _, _, _ => Ok (JNull, r')
            | _, Some r', _, _, _, _ => Ok (JBool true, r')
            | _, _, Some r', _, _, _ => Ok (JBool false, r')
            | _, _, _, Some r', _, _ => Ok (JFloat S754_nan, r')
            | _, _, _, _, Some r', _ => Ok (JFloat (S754_infinity false), r')
            | _, _, _, _, _, Some r' => Ok (JFloat (S754_infinity true), r')
            | _, _, _, _, _, _ => scan_number s
            end
      end
  end

(** The members of an object, from its first key on: a key in double
    quotes, a colon, a value, then a comma and the next member or the
    closing brace. *)
with parse_members (fuel : nat) (depth : nat) (s : str) (acc : dict)
  : may_raise (json * str) :=
  match fuel with
  | O => Raise JSONDecodeError
  | S f =>
      match s with
      | [] => Raise JSONDecodeError
      | c :: r =>
          if negb (c =? 34) then Raise JSONDecodeError
          else
            match scan_string r with
            | Raise e => Raise e
            | Ok (k, r1) =>
                match skip_ws r1 with
                | [] => Raise JSONDecodeError
                | c2 :: r2 =>
                    if negb (c2 =? 58) then Raise JSONDecodeError
                    else
                      match scan_once f depth (skip_ws r2) with
                      | Raise e => Raise e
                      | Ok (v, r3) =>
                          let acc' := dict_set k v acc in
                          match skip_ws r3 with
                          | [] => Raise JSONDecodeError
                          | c4 :: r4 =>
                              if c4 =? 125 then Ok (JObject acc', r4)
                              else if c4 =? 44
                              then parse_members f depth (skip_ws r4) acc'
                              else Raise JSONDecodeError
                          end
                      end
                end
            end
      end
  end

(** The elements of an array, from its first value on. *)
with parse_elements (fuel : nat) (depth : nat) (s : str) (acc : list json)
  : may_raise (json * str) :=
  match fuel with
  | O => Raise JSONDecodeError
  | S f =>
      match scan_once f depth s with
      | Raise e => Raise e
      | Ok (v, r1) =>
          match skip_ws r1 with
          | [] => Raise JSONDecodeError
          | c2 :: r2 =>
              if c2 =? 93 then Ok (JArray (rev (v :: acc)), r2)
              else if c2 =? 44 then parse_elements f depth (skip_ws r2) (v :: acc)
              else Raise JSONDecodeError
          end
      end
  end.

(** [json.loads(s)] where the recursion limit leaves [depth] levels of
    nesting: one value, surrounded by JSON whitespace only, or the
    exception that the decoder raises: [JSONDecodeError] for a text that is
    no JSON, [ValueError] for an integer literal longer than [int] converts
    and [RecursionError] for a nesting deeper than [depth].  The fuel
    bounds the chain of nested calls, of which there are at most two for
    each character of the text.  (What the interpreter does within a
    frame or two of its limit, where building the decode error can itself
    exceed it, depends on its version and is not modelled.) *)
Definition loads (depth : nat) (s : str) : may_raise json :=
  match scan_once (2 * List.length s + 2) depth (skip_ws s) with
  | Ok (v, r) =>
      match skip_ws r with
      | [] => Ok v
      | _ :: _ => Raise JSONDecodeError
      end
  | Raise e => Raise e
  end.

(** Whether a value can be hashed: a [list] or a [dict] cannot. *)
Definition hashable (v : json) : bool :=
  match v with
  | JArray _ | JObject _ => false
  | _ => true
  end.

(** A value is a [str]. *)
Definition is_str (v : json) : bool :=
  match v with JString _ => true | _ => false end.

(** [z == f] for an [int] and a [float]: the two are compared exactly. *)
Definition int_float_eqb (z : Z) (f : spec_float) : bool :=
  match f with
  | S754_zero _ => (z =? 0)%Z
  | S754_finite s m e =>
      let v := if s then Z.neg m else Z.pos m in
      if (0 <=? e)%Z then (z =? Z.shiftl v e)%Z
      else (Z.shiftl z (- e) =? v)%Z
  | _ => false
  end.

(** [f == g] as membership in a set tests it: by value, the two zeros
    being equal; a [NaN] is found again, since the decoder returns one and
    the same object for every [NaN] and membership looks at identity
    first. *)
Definition float_eqb (f g : spec_float) : bool :=
  match f, g with
  | S754_nan, S754_nan => true
  | _, _ => SFeqb f g
  end.

(** Equality of hashable values, as membership in a set tests it: [bool]
    is a kind of [int] ([True == 1]), numbers are compared by value
    ([1 == 1.0]), and values of different kinds are different. *)
Definition hashable_eqb (a b : json) : bool :=
  match a, b with
  | JNull, JNull => true
  | JString x, JString y => str_eqb x y
  | JBool x, JBool y => Bool.eqb x y
  | JBool x, JInt y => ((if x then 1 else 0) =? y)%Z
  | JInt x, JBool y => (x =? (if y then 1 else 0))%Z
  | JInt x, JInt y => (x =? y)%Z
  | JBool x, JFloat g => int_float_eqb (if x then 1 else 0) g
  | JFloat f, JBool y => int_float_eqb (if y then 1 else 0) f
  | JInt x, JFloat g => int_float_eqb x g
  | JFloat f, JInt y => int_float_eqb y f
  | JFloat f, JFloat g => float_eqb f g
  | _, _ => false
  end.

(** The [float] that a literal of the source denotes. *)
Definition float_literal (lit : string) : spec_float :=
  match scan_number (u lit) with
  | Ok (JFloat f, _) => f
  | _ => S754_nan
  end.

(** Truthiness of a value. *)
Definition truthy (v : json) : bool :=
  match v with
  | JNull => false
  | JBool b => b
  | JInt z => negb (Z.eqb z 0)
  | JFloat f => match f with S754_zero _ => false | _ => true end
  | JString s => nonempty s
  | JArray l => match l with [] => false | _ => true end
  | JObject m => match m with [] => false | _ => true end
  end.

End Json.

Import Json.

(* ================================================================== *)
(** ** Regular expressions: the part of [re] the code uses *)
(* ================================================================== *)

Module Re.

(** Patterns.  Every construct is the backtracking one of [re]: alternation
    tries its left branch first and a star is greedy. *)
Inductive re : Type :=
| Eps
| Chr (c : N)
| Cls (p : N -> bool)
| Seq (r1 r2 : re)
| Alt (r1 r2 : re)
| Star (r : re)
| Grp (i : nat) (r : re)
| Bol.

Definition Plus (r : re) : re := Seq r (Star r).

(** A literal string. *)
Fixpoint Lit (s : str) : re :=
  match s with
  | [] => Eps
  | c :: s' => Seq (Chr c) (Lit s')
  end.

(** The text captured by each group that took part in the match, the most
    recent capture first. *)
Definition caps := list (nat * str).

Fixpoint group (i : nat) (cs : caps) : str :=
  match cs with
  | [] => []
  | (j, t) :: cs' => if Nat.eqb i j then t else group i cs'
  end.

Section Matcher.

Variable A : Type.

(** [go r pos s cs k]: match [r] at the head of [s], which starts at
    offset [pos] of the subject, then continue with [k]; [None] makes the
    caller backtrack. *)
Fixpoint go (r : re) (pos : nat) (s : str) (cs : caps)
         (k : nat -> str -> caps -> option A) {struct r} : option A :=
  match r with
  | Eps => k pos s cs
  | Chr c =>
      match s with
      | x :: s' => if N.eqb x c then k (S pos) s' cs else None
      | [] => None
      end
  | Cls p =>
      match s with
      | x :: s' => if p x then k (S pos) s' cs else None
      | [] => None
      end
  | Seq r1 r2 => go r1 pos s cs (fun pos' s' cs' => go r2 pos' s' cs' k)
  | Alt r1 r2 =>
      match go r1 pos s cs k with
      | Some x => Some x
      | None => go r2 pos s cs k
      end
  | Star r1 =>
      (fix star (n : nat) (pos : nat) (s : str) (cs : caps) : option A :=
         match n with
         | O => k pos s cs
         | S n' =>
             match go r1 pos s cs
                      (fun pos' s' cs' =>
                         if Nat.ltb pos pos' then star n' pos' s' cs' else None) with
             | Some x => Some x
             | None => k pos s cs
             end
         end) (List.length s) pos s cs
  | Grp i r1 =>
      go r1 pos s cs
         (fun pos' s' cs' => k pos' s' ((i, firstn (pos' - pos) s) :: cs'))
  | Bol => if Nat.eqb pos 0 then k pos s cs else None
  end.

End Matcher.

(** A match object: where it starts and ends, [group()] and the groups. *)
Record rmatch : Type := mk_rmatch {
  m_start : nat;
  m_end : nat;
  m_text : str;
  m_caps : caps;
  m_rest : str
}.

Definition match_at (r : re) (pos : nat) (s : str) : option rmatch :=
  go r pos s [] (fun e s' cs => Some (mk_rmatch pos e (firstn (e - pos) s) cs s')).

(** The leftmost match at or after offset [pos], [s] being the subject
    from that offset on. *)
Fixpoint search_from (r : re) (pos : nat) (s : str) : option rmatch :=
  match match_at r pos s with
  | Some m => Some m
  | None =>
      match s with
      | [] => None
      | _ :: s' => search_from r (S pos) s'
      end
  end.

(** [re.search(r, s)]. *)
Definition search (r : re) (s : str) : option rmatch := search_from r 0 s.

(** The successive non-overlapping matches, left to right. *)
Fixpoint finditer_from (fuel : nat) (r : re) (pos : nat) (s : str) : list rmatch :=
  match fuel with
  | O => []
  | S f =>
      match search_from r pos s with
      | None => []
      | Some m =>
          m :: (if Nat.ltb (m_start m) (m_end m)
                then finditer_from f r (m_end m) (m_rest m)
                else match m_rest m with
                     | [] => []
                     | _ :: t => finditer_from f r (S (m_end m)) t
                     end)
      end
  end.

Definition finditer (r : re) (s : str) : list rmatch :=
  finditer_from (S (List.length s)) r 0 s.

(** [re.findall(r, s)] for a pattern with one group: the text of group 1. *)
Definition findall1 (r : re) (s : str) : list str :=
  List.map (fun m => group 1 (m_caps m)) (finditer r s).

(** [re.findall(r, s)] for a pattern with [n] groups: the tuple of the
    groups, a group that took no part being the empty string. *)
Definition findall_groups (n : nat) (r : re) (s : str) : list (list str) :=
  List.map (fun m => List.map (fun i => group i (m_caps m)) (seq 1 n)) (finditer r s).

(** [\s] *)
Definition ws : re := Cls isspace.

(** A character class given by the characters it excludes. *)
Definition none_of (l : list N) : re :=
  Cls (fun c => negb (existsb (N.eqb c) l)).

End Re.

Import Re.

(* ================================================================== *)
(** ** The call parser: [StockSearchAgent._parse_tool_calls] *)
(* ================================================================== *)

Module Parser.

(** [[^{}]] *)
Definition nb : re := none_of [123; 125].

(** A brace span with one level of nesting; the patterns are written here
    with a blank between their tokens:
    [\{ mid (?: \{ [^{}]* \} [^{}]* )* \}]. *)
Definition braces (mid : re) : re :=
  Seq (Chr 123)
    (Seq mid
       (Seq (Star (Seq (Chr 123) (Seq (Star nb) (Seq (Chr 125) (Star nb)))))
          (Chr 125))).

(** [c* 'action' c* 'text2sql' c*], the quotes being double quotes. *)
Definition action_text2sql (c : re) : re :=
  Seq (Star c) (Seq (Lit (qq "'action'")) (Seq (Star c)
    (Seq (Lit (qq "'text2sql'")) (Star c)))).

(** [TOOL_CALL: \s* ( \{ [^{}]* (?: \{ [^{}]* \} [^{}]* )* \} )] *)
Definition pattern1 : re :=
  Seq (Lit (u "TOOL_CALL:")) (Seq (Star ws) (Grp 1 (braces (Star nb)))).

(** The four alternatives of [pattern2], one group each:
    - a fenced [json] block holding a text2sql action,
      [```json \s* ( \{ [^}]* 'action' [^}]* 'text2sql' [^}]* \} ) \s* ```];
    - a fenced [json] block, [```json \s* ( \{ [^}]* \} ) \s* ```];
    - an arrow and a backtick span, [→ \s* ` ( \{ [^`]* \} ) `];
    - a backtick span, [` ( \{ [^`]* \} ) `]. *)
Definition pattern2 : re :=
  let nc := none_of [125] in
  let nt := none_of [96] in
  let fence := Lit (u "```") in
  Alt (Seq (Lit (u "```json")) (Seq (Star ws)
         (Seq (Grp 1 (Seq (Chr 123) (Seq (action_text2sql nc) (Chr 125))))
              (Seq (Star ws) fence))))
   (Alt (Seq (Lit (u "```json")) (Seq (Star ws)
           (Seq (Grp 2 (Seq (Chr 123) (Seq (Star nc) (Chr 125))))
                (Seq (Star ws) fence))))
    (Alt (Seq (Lit (u "→")) (Seq (Star ws) (Seq (Chr 96)
            (Seq (Grp 3 (Seq (Chr 123) (Seq (Star nt) (Chr 125)))) (Chr 96)))))
         (Seq (Chr 96)
            (Seq (Grp 4 (Seq (Chr 123) (Seq (Star nt) (Chr 125)))) (Chr 96))))).

(** [( \{ [^{}]* 'action' [^{}]* 'text2sql' [^{}]* \} )] *)
Definition pattern3 : re :=
  Grp 1 (Seq (Chr 123) (Seq (action_text2sql nb) (Chr 125))).

(** [( \{ [^{}]* 'name' [^{}]* 'args' [^{}]* (?: \{ [^{}]* \} [^{}]* )* \} )] *)
Definition pattern4 : re :=
  Grp 1 (braces (Seq (Star nb) (Seq (Lit (qq "'name'")) (Seq (Star nb)
           (Seq (Lit (qq "'args'")) (Star nb)))))).

(** [TEXT2SQL: \s* ( \{ [^{}]* 'action' [^{}]* 'text2sql' [^{}]*
       (?: \{ [^{}]* \} [^{}]* )* \} )] *)
Definition pattern5 : re :=
  Seq (Lit (u "TEXT2SQL:")) (Seq (Star ws) (Grp 1 (braces (action_text2sql nb)))).

(** A decoded match is a [dict], since every match starts with an opening
    brace ([decoded_match_is_dict] below proves it); [as_dict] reads it as
    one. *)
Definition as_dict (v : json) : dict :=
  match v with
  | JObject m => m
  | _ => []
  end.

Definition k_name : str := u "name".
Definition k_args : str := u "args".
Definition k_action : str := u "action".
Definition text2sql : str := u "text2sql".

(** [x == "text2sql"] *)
Definition is_text2sql (v : json) : bool :=
  match v with
  | JString s => str_eqb s text2sql
  | _ => false
  end.

(** ['action' in tool_call and tool_call['action'] == 'text2sql'] *)
Definition is_text2sql_action (d : dict) : bool :=
  match dict_get k_action d with
  | Some v => is_text2sql v
  | None => false
  end.

(** ['name' in tool_call and 'args' in tool_call] *)
Definition has_name_args (d : dict) : bool :=
  dict_has k_name d && dict_has k_args d.

(** [try: ... except json.JSONDecodeError: continue]: a decode error drops
    the match; any other exception goes on, the [ValueError] and the
    [RecursionError] of the decoder among them. *)
Definition except_JSONDecodeError (r : may_raise (list dict)) : may_raise (list dict) :=
  match r with
  | Raise JSONDecodeError => Ok []
  | _ => r
  end.

(** [for match in matches: try: body except json.JSONDecodeError: continue],
    [body] appending to [tool_calls]. *)
Fixpoint for_each (body : str -> may_raise (list dict)) (matches : list str)
         (tool_calls : list dict) : may_raise (list dict) :=
  match matches with
  | [] => Ok tool_calls
  | m :: rest =>
      bind (except_JSONDecodeError (body m))
           (fun new => for_each body rest (tool_calls ++ new))
  end.

Section WithBuiltins.

(** The nesting that the recursion limit of the interpreter leaves to
    [json.loads] where the parser calls it. *)
Variable depth : nat.

(** [json.dumps] of a decoded document and [repr] of a decoded value that
    is not a [str]: builtins whose text no routing depends on. *)
Variable json_dumps : json -> str.
Variable py_repr : json -> str.

(** What an f-string field and [str()] make of a value. *)
Definition py_str (v : json) : str :=
  match v with
  | JString s => s
  | _ => py_repr v
  end.

(** [{'name': 'text2sql', 'args': json.dumps(tool_call)}] *)
Definition text2sql_call (d : dict) : dict :=
  [(k_name, JString text2sql); (k_args, JString (json_dumps (JObject d)))].

Definition body1 (m : str) : may_raise (list dict) :=
  bind (loads depth (strip m)) (fun tool_call =>
    let d := as_dict tool_call in
    if has_name_args d then Ok [d] else Ok []).

Definition body2 (m : str) : may_raise (list dict) :=
  if nonempty m then
    bind (loads depth (strip m)) (fun tool_call =>
      let d := as_dict tool_call in
      if is_text2sql_action d then Ok [text2sql_call d]
      else if has_name_args d then Ok [d]
      else Ok [])
  else Ok [].

Definition body3 (m : str) : may_raise (list dict) :=
  bind (loads depth (strip m)) (fun text2sql_call_ =>
    let d := as_dict text2sql_call_ in
    if is_text2sql_action d then Ok [text2sql_call d] else Ok []).

(** The flattening of an object-valued [args] (pass 4 only). *)
Definition flatten_args (d : dict) : dict :=
  match dict_get k_args d with
  | Some (JObject args_dict) =>
      match dict_get (u "종목명") args_dict, dict_get (u "날짜") args_dict with
      | Some stock, Some date =>
          dict_set k_args
            (JString (py_str stock ++ u "의 " ++ py_str date ++ u " 시가는?")) d
      | _, _ => dict_set k_args (JString (py_str (JObject args_dict))) d
      end
  | _ => d
  end.

Definition body4 (m : str) : may_raise (list dict) :=
  bind (loads depth (strip m)) (fun tool_call =>
    let d := as_dict tool_call in
    if has_name_args d then Ok [flatten_args d] else Ok []).

Definition body5 : str -> may_raise (list dict) := body3.

(** [(call.get('name'), call.get('args'))] *)
Definition identifier (call : dict) : json * json :=
  (match dict_get k_name call with Some v => v | None => JNull end,
   match dict_get k_args call with Some v => v | None => JNull end).

Definition identifier_eqb (a b : json * json) : bool :=
  hashable_eqb (fst a) (fst b) && hashable_eqb (snd a) (snd b).

Definition unhashable (v : json) : exn :=
  match v with
  | JArray _ => TypeError (u "unhashable type: 'list'")
  | _ => TypeError (u "unhashable type: 'dict'")
  end.

(** The de-duplication loop.  [identifier not in seen] hashes the tuple,
    which raises [TypeError] when one of its members is a list or a dict;
    nothing around the loop catches it.  [seen] is the set, as the list of
    its members; membership compares as Python does ([hashable_eqb]). *)
Fixpoint dedup (tool_calls : list dict) (seen : list (json * json))
         (unique_tool_calls : list dict) : may_raise (list dict) :=
  match tool_calls with
  | [] => Ok unique_tool_calls
  | call :: rest =>
      let id := identifier call in
      if negb (hashable (fst id)) then Raise (unhashable (fst id))
      else if negb (hashable (snd id)) then Raise (unhashable (snd id))
      else if existsb (identifier_eqb id) seen then dedup rest seen unique_tool_calls
      else dedup rest (id :: seen) (unique_tool_calls ++ [call])
  end.

(** The five passes, in the order of the source. *)
Definition collect (content : str) : may_raise (list dict) :=
  let matches1 := findall1 pattern1 content in
  let matches2 := findall_groups 4 pattern2 content in
  let matches3 := findall1 pattern3 content in
  let matches4 := findall1 pattern4 content in
  let matches5 := findall1 pattern5 content in
  bind (for_each body1 matches1 []) (fun tc1 =>
  bind (for_each body2 (List.concat matches2) tc1) (fun tc2 =>
  bind (for_each body3 matches3 tc2) (fun tc3 =>
  bind (for_each body4 matches4 tc3) (fun tc4 =>
  for_each body5 matches5 tc4)))).

Definition _parse_tool_calls (content : str) : may_raise (list dict) :=
  bind (collect content) (fun tool_calls => dedup tool_calls [] []).

End WithBuiltins.

End Parser.

Import Parser.

(* ================================================================== *)
(** ** The parameter extractor: [QueryParser._extract_parameters] *)
(* ================================================================== *)

Module Extractor.

(** [\{ [^{}]* (?: \{ [^{}]* \} [^{}]* )* \}]: the first brace span with at
    most one level of nesting. *)
Definition span_pattern : re := braces (Star nb).

Definition prompt (query schema rules : str) : str :=
  u "다음 질문에서 필요한 파라미터를 추출하세요:
주의: 학습된 날짜 이후의 파라미터를 추출해야 할 수도 있습니다.

질문: " ++ query ++ u "

JSON으로만 응답: " ++ schema ++ u "

" ++ rules ++ u "

반드시 JSON 형식으로만 응답하고 다른 설명은 하지 마세요.".

Section WithModel.

(** The nesting that the recursion limit of the interpreter leaves to
    [json.loads] where the extractor calls it. *)
Variable depth : nat.

(** The world the collaborators act on, and the model client:
    [self.llm.invoke([HumanMessage(content=prompt)]).content], which may
    raise. *)
Variable W : Type.
Variable llm : str -> W -> W * may_raise str.

(** What the [try] block computes from the reply. *)
Definition parse_reply (reply : str) : may_raise json :=
  let content := strip reply in
  match search span_pattern content with
  | Some json_match => loads depth (m_text json_match)
  | None => loads depth content
  end.

(** The [try] block. *)
Definition try_block (query schema rules : str) (w : W) : W * may_raise json :=
  let '(w', response) := llm (prompt query schema rules) w in
  (w', bind response parse_reply).

(** [except Exception: return {}] around it. *)
Definition _extract_parameters (query schema rules : str) (w : W) : W * json :=
  let '(w', r) := try_block query schema rules w in
  (w', match r with
       | Ok params => params
       | Raise _ => JObject []
       end).

(** The extraction as the specification words it: decode the first brace
    span; if that fails, decode the whole trimmed reply; if both fail, the
    empty mapping. *)
Definition spec_parse_reply (reply : str) : json :=
  let content := strip reply in
  let whole := match loads depth content with
               | Ok v => v
               | Raise _ => JObject []
               end in
  match search span_pattern content with
  | Some json_match =>
      match loads depth (m_text json_match) with
      | Ok v => v
      | Raise _ => whole
      end
  | None => whole
  end.

End WithModel.

End Extractor.

(* ================================================================== *)
(** ** The orchestration state machine: [StockSearchAgent] *)
(* ================================================================== *)

Module Agent.

Inductive role : Type := HumanMessage | AIMessage.

Record message : Type := mk_message {
  msg_role : role;
  content : str
}.

(** The values [validation_status] takes. *)
Inductive status : Type := pending | success | param_missing | tool_error.

Definition status_eqb (a b : status) : bool :=
  match a, b with
  | pending, pending | success, success
  | param_missing, param_missing | tool_error, tool_error => true
  | _, _ => false
  end.

(** An entry of [tool_results] (its timing fields, which nothing reads,
    are left out). *)
Record tool_result_detail : Type := mk_detail {
  tool_name : json;
  tool_args : json;
  full_result : str;
  detail_status : status
}.

(** [StockSearchState].  The diagnostic logs ([execution_log],
    [node_traces], [state_history]) are left out: the nodes append to them
    and no node reads them.  An equality between two states below is
    therefore an equality of all the other keys. *)
Record StockSearchState : Type := mk_state {
  messages : list message;
  query : str;
  result : str;
  tool_calls : list dict;
  iterations : Z;
  validation_status : status;
  clarification_needed : bool;
  retry_count : Z;
  tool_results : list tool_result_detail;
  current_tool_index : Z;
  pending_tools : list dict;
  completed_tools : list dict;
  tool_execution_results : list str
}.

(** [{**state, key: value}], one function per key that a node writes. *)
Definition with_messages (v : list message) (s : StockSearchState) :=
  mk_state v (query s) (result s) (tool_calls s) (iterations s)
    (validation_status s) (clarification_needed s) (retry_count s)
    (tool_results s) (current_tool_index s) (pending_tools s) (completed_tools s)
    (tool_execution_results s).

Definition with_result (v : str) (s : StockSearchState) :=
  mk_state (messages s) (query s) v (tool_calls s) (iterations s)
    (validation_status s) (clarification_needed s) (retry_count s)
    (tool_results s) (current_tool_index s) (pending_tools s) (completed_tools s)
    (tool_execution_results s).

Definition with_iterations (v : Z) (s : StockSearchState) :=
  mk_state (messages s) (query s) (result s) (tool_calls s) v
    (validation_status s) (clarification_needed s) (retry_count s)
    (tool_results s) (current_tool_index s) (pending_tools s) (completed_tools s)
    (tool_execution_results s).

Definition with_validation_status (v : status) (s : StockSearchState) :=
  mk_state (messages s) (query s) (result s) (tool_calls s) (iterations s)
    v (clarification_needed s) (retry_count s)
    (tool_results s) (current_tool_index s) (pending_tools s) (completed_tools s)
    (tool_execution_results s).

Definition with_clarification_needed (v : bool) (s : StockSearchState) :=
  mk_state (messages s) (query s) (result s) (tool_calls s) (iterations s)
    (validation_status s) v (retry_count s)
    (tool_results s) (current_tool_index s) (pending_tools s) (completed_tools s)
    (tool_execution_results s).

Definition with_tool_results (v : list tool_result_detail) (s : StockSearchState) :=
  mk_state (messages s) (query s) (result s) (tool_calls s) (iterations s)
    (validation_status s) (clarification_needed s) (retry_count s)
    v (current_tool_index s) (pending_tools s) (completed_tools s)
    (tool_execution_results s).

Definition with_tool_execution_results (v : list str) (s : StockSearchState) :=
  mk_state (messages s) (query s) (result s) (tool_calls s) (iterations s)
    (validation_status s) (clarification_needed s) (retry_count s)
    (tool_results s) (current_tool_index s) (pending_tools s) (completed_tools s)
    v.

(** What [parse_node] writes. *)
Definition with_parsed (calls : list dict) (s : StockSearchState) :=
  mk_state (messages s) (query s) (result s) calls (iterations s)
    (validation_status s) (clarification_needed s) (retry_count s)
    (tool_results s) 0%Z calls [] [].

(** The initial state that [search] builds. *)
Definition initial_state (q : str) : StockSearchState :=
  mk_state [] q [] [] 0%Z pending false 0%Z [] 0%Z [] [] [].

(** The graph's nodes. *)
Inductive node : Type :=
| Agent_ | Parse | Tools | Text2sql | FilterDecision | ResultFilter
| Clarifier | Generation.

Definition node_eqb (a b : node) : bool :=
  match a, b with
  | Agent_, Agent_ | Parse, Parse | Tools, Tools | Text2sql, Text2sql
  | FilterDecision, FilterDecision | ResultFilter, ResultFilter
  | Clarifier, Clarifier | Generation, Generation => true
  | _, _ => false
  end.

(** The keys of [QueryParser.tool_mappings], which name [self.tools]. *)
Definition tool_mappings_keys : list str :=
  List.map u
    [ "get_stock_price"; "get_market_stats"; "get_market_index";
      "search_company"; "search_price"; "search_price_change";
      "search_volume"; "search_trading_value_ranking";
      "get_rsi_signals"; "get_bollinger_signals"; "get_ma_breakout";
      "get_volume_surge"; "get_cross_signals"; "count_cross_signals";
      "search_compound"; "text2sql" ]%string.

Definition TOOLS_NEED_FILTERING : list str :=
  List.map u
    [ "search_price_change"; "search_volume"; "search_price";
      "search_compound"; "get_rsi_signals"; "get_ma_breakout";
      "get_volume_surge"; "get_cross_signals"; "text2sql" ]%string.

(** The phrases by which [tools_node] recognises a missing parameter. *)
Definition error_keywords : list str :=
  List.map u
    [ "질문을 이해할 수 없습니다";
      "날짜 정보를 찾을 수 없습니다";
      "조건을 찾을 수 없습니다";
      "임계값을 찾을 수 없습니다";
      "파라미터를 추출할 수 없습니다" ]%string.

(** [any(keyword in result for keyword in error_keywords)] *)
Definition has_error_keyword (result : str) : bool :=
  existsb (fun keyword => contains keyword result) error_keywords.

(** [call.get("name")] and [call.get("args", "")]. *)
Definition call_name (call : dict) : json :=
  match dict_get k_name call with Some v => v | None => JNull end.

Definition call_args (call : dict) : json :=
  match dict_get k_args call with Some v => v | None => JString [] end.

(** The tool of [self.tools] whose name is [tool_name], if any. *)
Definition find_tool (tool_name : json) : option str :=
  match tool_name with
  | JString n => List.find (fun t => str_eqb t n) tool_mappings_keys
  | _ => None
  end.

Definition clarification_prompt (q : str) : str :=
  u "질문을 더 구체적으로 해주세요. 

원본 질문: " ++ q ++ u "

다음과 같은 정보가 필요합니다:
- 정확한 날짜 (예: 2025-11-06)
- 구체적인 조건 (예: RSI 70 이상, 거래량 100만주 이상)
- 시장 구분이 필요한 경우 KOSPI 또는 KOSDAQ 명시

예시:
- " ++ qq "'2025-11-06 RSI 70 이상 과매수 종목은?'
- '2025-11-06 KOSPI 시장에서 가격이 1만원 이상 5만원 이하인 종목은?'
- '2025-01-01부터 2025-12-31까지 골든크로스 발생 종목은?".

(** The collaborators of the agent, which the code reaches through
    [self.llm_main], [self.tools], [self.text2sql_node] and Python's
    builtins.  Each call that has an effect threads the world [W]. *)
Record Externals (W : Type) : Type := mk_externals {
  (** [self.llm_main.invoke([HumanMessage(content=prompt)]).content] *)
  llm_main : str -> W -> W * may_raise str;
  (** the prompt of [agent_node] for a query (it embeds today's date) *)
  agent_prompt : str -> W -> str;
  (** the prompt of [generation_node] for a query and the tool output *)
  generation_prompt : str -> str -> str;
  (** [tool.func(tool_args)] of the tool of that name *)
  tool_func : str -> json -> W -> W * may_raise str;
  (** [self.text2sql_node.execute_text2sql(original_query, [], ...)] *)
  execute_text2sql : json -> W -> W * may_raise str;
  json_dumps : json -> str;
  py_repr : json -> str;
  (** the nesting that the recursion limit leaves to [json.loads] where
      [_parse_tool_calls] calls it *)
  json_depth : nat;
  (** the Unicode tables behind [\w], [\d] with [int()], and [str.lower] *)
  unicode_word : N -> bool;
  unicode_decimal : N -> option N;
  py_lower : str -> str;
  enable_detailed_logging : bool
}.

Section Nodes.

Variable W : Type.
Variable E : Externals W.

Definition fmt (v : json) : str := py_str (py_repr E) v.

(** *** [agent_node] *)
Definition agent_node (w : W) (state : StockSearchState)
  : W * may_raise StockSearchState :=
  let '(w', response) := llm_main E (agent_prompt E (query state) w) w in
  (w', bind response (fun reply =>
         Ok (with_iterations (iterations state + 1)
               (with_messages
                  (messages state ++
                     [mk_message HumanMessage (query state);
                      mk_message AIMessage reply]) state)))).

(** The content of the last [AIMessage], or the empty string. *)
Fixpoint first_ai_content (reversed_messages : list message) : str :=
  match reversed_messages with
  | [] => []
  | m :: rest =>
      match msg_role m with
      | AIMessage => content m
      | HumanMessage => first_ai_content rest
      end
  end.

(** *** [parse_node] *)
Definition parse_node (w : W) (state : StockSearchState)
  : W * may_raise StockSearchState :=
  let ai_response := first_ai_content (rev (messages state)) in
  (w, bind (_parse_tool_calls (json_depth E) (json_dumps E) (py_repr E) ai_response)
           (fun calls => Ok (with_parsed calls state))).

(** [call.get("name") != "text2sql"] *)
Definition is_regular (call : dict) : bool := negb (is_text2sql (call_name call)).

(** The variables the loop of [tools_node] updates. *)
Record batch : Type := mk_batch {
  b_results : list str;
  b_tool_results : list tool_result_detail;
  b_tool_execution_results : list str;
  b_validation_status : status
}.

(** One iteration of [for tool_call in regular_tools], with its
    [try ... except Exception]. *)
Definition tools_step (tool_call : dict) (w : W) (b : batch) : W * batch :=
  let tool_name := call_name tool_call in
  let tool_args := call_args tool_call in
  match find_tool tool_name with
  | Some tool =>
      let '(w', r) := tool_func E tool tool_args w in
      match r with
      | Ok result =>
          let validation_status :=
            if has_error_keyword result then param_missing
            else b_validation_status b in
          let line := fmt tool_name ++ u " 결과: " ++ result in
          (w', mk_batch (b_results b ++ [line])
                 (b_tool_results b ++
                    [mk_detail tool_name tool_args result validation_status])
                 (b_tool_execution_results b ++ [line])
                 validation_status)
      | Raise e =>
          let line := fmt tool_name ++ u " 오류: " ++ exn_str e in
          (w', mk_batch (b_results b ++ [line]) (b_tool_results b)
                 (b_tool_execution_results b ++ [line]) tool_error)
      end
  | None =>
      let line := u "알 수 없는 도구: " ++ fmt tool_name in
      (w, mk_batch (b_results b ++ [line]) (b_tool_results b)
            (b_tool_execution_results b ++ [line]) tool_error)
  end.

Fixpoint tools_loop (regular_tools : list dict) (w : W) (b : batch) : W * batch :=
  match regular_tools with
  | [] => (w, b)
  | tool_call :: rest =>
      let '(w', b') := tools_step tool_call w b in
      tools_loop rest w' b'
  end.

Definition nl2 : str := [10; 10].

(** What both execution nodes write when their loop is over. *)
Definition write_batch (b : batch) (state : StockSearchState) : StockSearchState :=
  let tool_result := join nl2 (b_results b) in
  with_tool_execution_results (b_tool_execution_results b)
    (with_tool_results (b_tool_results b)
       (with_validation_status (b_validation_status b)
          (with_result tool_result
             (with_messages
                (messages state ++ [mk_message AIMessage tool_result]) state)))).

Definition start_batch (state : StockSearchState) : batch :=
  mk_batch [] (tool_results state) (tool_execution_results state) success.

(** *** [tools_node] *)
Definition tools_node (w : W) (state : StockSearchState) : W * StockSearchState :=
  let regular_tools := List.filter is_regular (tool_calls state) in
  match regular_tools with
  | [] => (w, with_validation_status success state)
  | _ :: _ =>
      let '(w', b) := tools_loop regular_tools w (start_batch state) in
      (w', write_batch b state)
  end.

(** One iteration of [for text2sql_call in text2sql_calls]. *)
Definition text2sql_step (q : str) (text2sql_call : dict) (w : W) (b : batch)
  : W * batch :=
  let tool_args := call_args text2sql_call in
  let original_query :=
    if truthy tool_args then tool_args else JString q in
  let '(w', r) := execute_text2sql E original_query w in
  match r with
  | Ok result =>
      let line := u "text2sql 결과: " ++ result in
      (w', mk_batch (b_results b ++ [line])
             (b_tool_results b ++
                [mk_detail (JString text2sql) tool_args result success])
             (b_tool_execution_results b ++ [line])
             (b_validation_status b))
  | Raise e =>
      let line := u "text2sql 오류: " ++ exn_str e in
      (w', mk_batch (b_results b ++ [line]) (b_tool_results b)
             (b_tool_execution_results b ++ [line]) tool_error)
  end.

Fixpoint text2sql_loop (q : str) (text2sql_calls : list dict) (w : W) (b : batch)
  : W * batch :=
  match text2sql_calls with
  | [] => (w, b)
  | call :: rest =>
      let '(w', b') := text2sql_step q call w b in
      text2sql_loop q rest w' b'
  end.

Definition is_text2sql_call (call : dict) : bool := is_text2sql (call_name call).

(** *** [text2sql_node] *)
Definition text2sql_node (w : W) (state : StockSearchState) : W * StockSearchState :=
  let text2sql_calls := List.filter is_text2sql_call (tool_calls state) in
  match text2sql_calls with
  | [] => (w, with_validation_status success state)
  | _ :: _ =>
      let '(w', b) := text2sql_loop (query state) text2sql_calls w (start_batch state) in
      (w', write_batch b state)
  end.

(** *** The routing functions *)
Definition should_continue (state : StockSearchState) : node :=
  match tool_calls state with
  | [] => Generation
  | _ :: _ =>
      let has_text2sql := existsb is_text2sql_call (tool_calls state) in
      let has_regular_tools := existsb is_regular (tool_calls state) in
      if has_text2sql && has_regular_tools then Tools
      else if has_text2sql then Text2sql
      else if has_regular_tools then Tools
      else Generation
  end.

Definition after_tools_routing (state : StockSearchState) : node :=
  if status_eqb (validation_status state) param_missing
     && (retry_count state <? 2)%Z
  then Clarifier
  else if existsb is_text2sql_call (tool_calls state) then Text2sql
  else FilterDecision.

Definition after_text2sql_routing (state : StockSearchState) : node :=
  if status_eqb (validation_status state) param_missing
     && (retry_count state <? 2)%Z
  then Clarifier
  else FilterDecision.

(** [any(call.get("name") in self.TOOLS_NEED_FILTERING for call in
    tool_calls)]: membership in a set hashes the name. *)
Fixpoint needs_filtering (calls : list dict) : may_raise bool :=
  match calls with
  | [] => Ok false
  | call :: rest =>
      let n := call_name call in
      if negb (hashable n) then Raise (unhashable n)
      else
        match n with
        | JString name =>
            if existsb (str_eqb name) TOOLS_NEED_FILTERING then Ok true
            else needs_filtering rest
        | _ => needs_filtering rest
        end
  end.

Definition should_filter_results (state : StockSearchState) : may_raise node :=
  bind (needs_filtering (tool_calls state))
       (fun b => Ok (if b then ResultFilter else Generation)).

(** *** [clarifier_node] *)
Definition clarifier_node (state : StockSearchState) : StockSearchState :=
  let prompt := clarification_prompt (query state) in
  with_clarification_needed true
    (with_result prompt
       (with_messages (messages state ++ [mk_message AIMessage prompt]) state)).

(** *** [result_filter_node] *)

Definition is_decimal (c : N) : bool :=
  match unicode_decimal E c with Some _ => true | None => false end.

(** [[\w가-힣]] *)
Definition word_or_hangul : re :=
  Cls (fun c => unicode_word E c || ((44032 <=? c) && (c <=? 55203))%N).

(** [[\w\d]] *)
Definition word_or_digit : re := Cls (fun c => unicode_word E c || is_decimal c).

(** [\d] *)
Definition digit : re := Cls is_decimal.

(** [[\w가-힣]+ \s* \( [\w\d]+ \)], as in a name followed by its code. *)
Definition code_pattern : re :=
  Seq (Plus word_or_hangul) (Seq (Star ws)
    (Seq (Chr 40) (Seq (Plus word_or_digit) (Chr 41)))).

(** [^ \d+ \. \s* [\w가-힣]], a numbered item. *)
Definition numbered_pattern : re :=
  Seq Bol (Seq (Plus digit) (Seq (Chr 46) (Seq (Star ws) word_or_hangul))).

(** [[\w가-힣]+ \s* \| \s* [\d,]+], a name, a bar and a number. *)
Definition pipe_pattern : re :=
  Seq (Plus word_or_hangul) (Seq (Star ws) (Seq (Chr 124) (Seq (Star ws)
    (Plus (Cls (fun c => is_decimal c || (c =? 44)%N)))))).

Definition found (r : re) (line : str) : bool :=
  match search r line with Some _ => true | None => false end.

(** The four heuristics of a stock-like line. *)
Definition is_stock_like (line : str) : bool :=
  found code_pattern line
  || found numbered_pattern line
  || found pipe_pattern line
  || (Nat.ltb 5 (List.length line) && Nat.ltb (List.length line) 100
      && existsb (fun c => existsb (N.eqb c) (u "가나다라마바사아자차카타파하")) line).

(** [[line.strip() for line in result.split('\n') if line.strip()]] *)
Definition result_lines (result : str) : list str :=
  List.map strip (List.filter (fun line => nonempty (strip line)) (split_on 10 result)).

Definition stock_like_lines (lines : list str) : list str :=
  List.filter is_stock_like lines.

(** [any(keyword in query.lower() for keyword in ['모두', '전체', '모든'])] *)
Definition asks_for_all (q : str) : bool :=
  existsb (fun keyword => contains keyword (py_lower E q))
          (List.map u ["모두"; "전체"; "모든"]%string).

(** [(\d+)개] *)
Definition count_pattern : re := Seq (Grp 1 (Plus digit)) (Chr 44060).

(** [int(s)] on a string of decimal digits: [ValueError] when there are
    more digits than [int_max_str_digits]. *)
Definition int_of_digits (s : str) : may_raise N :=
  if Nat.ltb int_max_str_digits (List.length s)
  then Raise (ValueError (int_limit_msg (List.length s)))
  else Ok (fold_left (fun acc c =>
                        match unicode_decimal E c with
                        | Some d => acc * 10 + d
                        | None => acc
                        end)%N s 0%N).

(** [int(match.group(1))] of [re.search(r'(\d+)개', query)], if it matches. *)
Definition requested_count (q : str) : may_raise (option N) :=
  match search count_pattern q with
  | Some m => bind (int_of_digits (group 1 (m_caps m))) (fun limit => Ok (Some limit))
  | None => Ok None
  end.

(** [(should_limit, limit)] for a query and a number of stock-like lines. *)
Definition display_limit (q : str) (n : nat) : may_raise (bool * N) :=
  if asks_for_all q then Ok (false, N.of_nat n)
  else bind (requested_count q) (fun requested =>
         match requested with
         | Some k => Ok (true, k)
         | None => if Nat.ltb 100 n then Ok (true, 100%N) else Ok (false, N.of_nat n)
         end).

(** The [result] that the node stores: [Some filtered_result] when it
    limits, [None] when it leaves the result as it is. *)
Definition filtered_result (q result : str) : may_raise (option str) :=
  let lines := result_lines result in
  let stocks := stock_like_lines lines in
  bind (display_limit q (List.length stocks)) (fun decided =>
    let '(should_limit, limit) := decided in
    if should_limit && (limit <? N.of_nat (List.length stocks))%N then
      let header_lines :=
        List.filter (fun line => negb (existsb (str_eqb line) stocks)) lines in
      let filtered_stocks := firstn (N.to_nat limit) stocks in
      Ok (Some (join [10] (header_lines ++ filtered_stocks)
                  ++ [10; 10] ++ u "... 등 총 " ++ str_of_nat (List.length stocks)
                  ++ u "개 종목이 있습니다."))
    else Ok None).

(** The node raises what [int] raises; nothing in it catches. *)
Definition result_filter_node (state : StockSearchState) : may_raise StockSearchState :=
  bind (filtered_result (query state) (result state)) (fun filtered =>
    match filtered with
    | Some r => Ok (with_result r state)
    | None => Ok state
    end).

(** *** [generation_node] *)

(** The concatenated tool output that the generation prompt embeds. *)
Definition generation_tool_result (state : StockSearchState) : str :=
  match tool_execution_results state with
  | [] => result state
  | _ :: _ => join nl2 (tool_execution_results state)
  end.

Definition generation_node (w : W) (state : StockSearchState)
  : W * may_raise StockSearchState :=
  let prompt := generation_prompt E (query state) (generation_tool_result state) in
  let '(w', response) := llm_main E prompt w in
  (w', bind response (fun final_answer =>
         Ok (with_result final_answer
               (with_messages
                  (messages state ++ [mk_message AIMessage final_answer]) state)))).

(** *** The graph of [_create_graph] *)

(** What a node does to the state. *)
Definition run_node (n : node) (w : W) (state : StockSearchState)
  : W * may_raise StockSearchState :=
  match n with
  | Agent_ => agent_node w state
  | Parse => parse_node w state
  | Tools => let '(w', s) := tools_node w state in (w', Ok s)
  | Text2sql => let '(w', s) := text2sql_node w state in (w', Ok s)
  | FilterDecision => (w, Ok state)
  | ResultFilter => (w, result_filter_node state)
  | Clarifier => (w, Ok (clarifier_node state))
  | Generation => generation_node w state
  end.

(** The edges: the node that follows, [None] being [END]. *)
Definition next_node (n : node) (state : StockSearchState) : may_raise (option node) :=
  match n with
  | Agent_ => Ok (Some Parse)
  | Parse => Ok (Some (should_continue state))
  | Tools => Ok (Some (after_tools_routing state))
  | Text2sql => Ok (Some (after_text2sql_routing state))
  | FilterDecision => bind (should_filter_results state) (fun n' => Ok (Some n'))
  | ResultFilter => Ok (Some Generation)
  | Clarifier => Ok None
  | Generation => Ok None
  end.

(** A run of the compiled graph from node [n]: the world, the final state
    or the exception that escaped, and the nodes visited in order.  [fuel]
    is the recursion limit of the graph runtime. *)
Fixpoint invoke_from (fuel : nat) (n : node) (w : W) (state : StockSearchState)
  : W * may_raise StockSearchState * list node :=
  match fuel with
  | O => (w, Raise GraphRecursionError, [])
  | S f =>
      let '(w1, r) := run_node n w state in
      match r with
      | Raise e => (w1, Raise e, [n])
      | Ok s1 =>
          match next_node n s1 with
          | Raise e => (w1, Raise e, [n])
          | Ok None => (w1, Ok s1, [n])
          | Ok (Some n') =>
              let '(w2, r2, visited) := invoke_from f n' w1 s1 in
              (w2, r2, n :: visited)
          end
      end
  end.

Definition recursion_limit : nat := 25.

(** [self.graph.invoke(initial_state)], the entry point being [agent]. *)
Definition graph_invoke (w : W) (state : StockSearchState)
  : W * may_raise StockSearchState * list node :=
  invoke_from recursion_limit Agent_ w state.

(** *** [search] *)

(** The [final_state] summary of the detailed answer. *)
Record final_state : Type := mk_final_state {
  fs_iterations : Z;
  fs_validation_status : status;
  fs_clarification_needed : bool;
  fs_retry_count : Z;
  fs_tool_calls_count : nat
}.

(** What [search] returns: the answer text, or the detailed record, whose
    [final_state] is the summary of the run or the error marker. *)
Inductive search_answer : Type :=
| Text (final_result : str)
| Detailed (final_result : str) (error : option str)
           (results : list tool_result_detail) (summary : option final_state).

Definition error_msg (e : exn) : str := u "검색 중 오류 발생: " ++ exn_str e.

Definition search (q : str) (return_detailed_info : bool) (w : W)
  : W * search_answer :=
  let '(w', r, _) := graph_invoke w (initial_state q) in
  let detailed := return_detailed_info && enable_detailed_logging E in
  match r with
  | Ok state =>
      let final_result := result state in
      (w', if detailed
           then Detailed final_result None (tool_results state)
                  (Some (mk_final_state (iterations state)
                           (validation_status state)
                           (clarification_needed state)
                           (retry_count state)
                           (List.length (tool_calls state))))
           else Text final_result)
  | Raise e =>
      (w', if detailed
           then Detailed (error_msg e) (Some (exn_str e)) [] None
           else Text (error_msg e))
  end.

End Nodes.

End Agent.

Import Agent.

(* ================================================================== *)
(** ** A concrete environment for the examples *)
(* ================================================================== *)

Module Demo.

(** A scripted model and scripted tools over a trivial world: the model
    answers [reply] to the prompt of [agent_node] and [answer] to any other
    prompt; a handler raises on the argument [boom], reports a missing date
    on the argument [when] and echoes any other argument; the tables are
    those of ASCII. *)
Definition ascii_word (c : N) : bool :=
  ((48 <=? c) && (c <=? 57)) || ((65 <=? c) && (c <=? 90))
  || ((97 <=? c) && (c <=? 122)) || (c =? 95).

Definition ascii_decimal (c : N) : option N :=
  if (48 <=? c) && (c <=? 57) then Some (c - 48) else None.

Definition ascii_lower (s : str) : str :=
  List.map (fun c => if (65 <=? c) && (c <=? 90) then c + 32 else c) s.

Definition show (v : json) : str :=
  match v with
  | JString s => s
  | JInt z => str_of_N (Z.to_N z)
  | JBool true => u "True"
  | JBool false => u "False"
  | JNull => u "None"
  | JFloat _ => u "<float>"
  | JArray _ => u "[...]"
  | JObject _ => u "{...}"
  end.

Definition agent_marker : str := u "AGENT:".

(** A nesting that an interpreter with the usual recursion limit of 1000
    leaves to the decoder. *)
Definition depth : nat := 900.

Definition handler (tool : str) (args : json) (w : unit) : unit * may_raise str :=
  match args with
  | JString a =>
      if str_eqb a (u "boom") then (w, Raise (External (u "connection lost")))
      else if str_eqb a (u "when") then (w, Ok (u "날짜 정보를 찾을 수 없습니다"))
      else (w, Ok (u "ok " ++ a))
  | _ => (w, Ok (u "ok"))
  end.

Definition externals (reply : may_raise str) (answer : may_raise str) : Externals unit :=
  mk_externals
    (fun prompt w => if startswith agent_marker prompt then (w, reply) else (w, answer))
    (fun q _ => agent_marker ++ q)
    (fun q tool_result => q ++ [10] ++ tool_result)
    handler
    (fun q w => (w, Ok (u "rows for " ++ show q)))
    show show
    depth
    ascii_word ascii_decimal ascii_lower
    true.

(** A parsed call, and the state after [parse_node] found the given calls. *)
Definition call (name args : string) : dict :=
  [(k_name, JString (u name)); (k_args, JString (u args))].

Definition parsed (calls : list dict) : StockSearchState :=
  with_parsed calls (initial_state (u "q")).

(** A listing of [n] numbered items, one per line. *)
Definition listing (n : nat) : str :=
  u "상승률 상위 종목" ++ [10] ++
  join [10] (List.map (fun i => str_of_nat i ++ u ". item") (seq 1 n)).

(** The environment whose model is never asked. *)
Definition quiet : Externals unit := externals (Ok []) (Ok []).

End Demo.

(* ================================================================== *)
(** ** What a batch of calls does, call by call *)
(* ================================================================== *)

Section Batches.

Variable W : Type.
Variable E : Externals W.

(** The outcome of each call of a structured batch when every call is
    made, in order, whatever happened to the calls before it: [None] for a
    name that no tool has (nothing is invoked), otherwise what the handler
    returned or raised. *)
Fixpoint outcomes (calls : list dict) (w : W) : list (option (may_raise str)) :=
  match calls with
  | [] => []
  | call :: rest =>
      match find_tool (call_name call) with
      | Some tool =>
          let '(w', r) := tool_func E tool (call_args call) w in
          Some r :: outcomes rest w'
      | None => None :: outcomes rest w
      end
  end.


(** The result entry of a call with a given outcome. *)
Definition entry (call : dict) (o : option (may_raise str)) : str :=
  match o with
  | Some (Ok r) => fmt E (call_name call) ++ u " 결과: " ++ r
  | Some (Raise e) => fmt E (call_name call) ++ u " 오류: " ++ exn_str e
  | None => u "알 수 없는 도구: " ++ fmt E (call_name call)
  end.

Definition entries (calls : list dict) (os : list (option (may_raise str))) : list str :=
  List.map (fun co => entry (fst co) (snd co)) (combine calls os).

(** The status that a call with a given outcome writes, if it writes. *)
Definition status_write (o : option (may_raise str)) : option status :=
  match o with
  | Some (Ok r) => if has_error_keyword r then Some param_missing else None
  | Some (Raise _) => Some tool_error
  | None => Some tool_error
  end.

(** The classification of one call. *)
Definition classification (o : option (may_raise str)) : status :=
  match status_write o with
  | Some s => s
  | None => success
  end.

(** The value of a variable after a sequence of optional writes. *)
Definition last_write (ws : list (option status)) (init : status) : status :=
  fold_left (fun acc w => match w with Some s => s | None => acc end) ws init.

(** The same for the SQL stage: what each call returned or raised. *)
Fixpoint sql_outcomes (q : str) (calls : list dict) (w : W) : list (may_raise str) :=
  match calls with
  | [] => []
  | call :: rest =>
      let original_query :=
        if truthy (call_args call) then call_args call
        else JString q in
      let '(w', r) := execute_text2sql E original_query w in
      r :: sql_outcomes q rest w'
  end.

Definition sql_entry (o : may_raise str) : str :=
  match o with
  | Ok r => u "text2sql 결과: " ++ r
  | Raise e => u "text2sql 오류: " ++ exn_str e
  end.

End Batches.



(* ================================================================== *)
(** ** The shape of the graph *)
(* ================================================================== *)

(** The edges that a run can take: those that [_create_graph] adds,
    without the one from the SQL stage to the clarifier. *)
Definition edgeb (a b : node) : bool :=
  match a, b with
  | Agent_, Parse
  | Parse, Tools | Parse, Text2sql | Parse, Generation
  | Tools, Clarifier | Tools, Text2sql | Tools, FilterDecision
  | Text2sql, FilterDecision
  | FilterDecision, ResultFilter | FilterDecision, Generation
  | ResultFilter, Generation => true
  | _, _ => false
  end.

(** [n :: l] follows edges only. *)
Fixpoint chain (n : node) (l : list node) : bool :=
  match l with
  | [] => true
  | m :: l' => edgeb n m && chain m l'
  end.

(** The number of nodes on the longest path that starts at a node. *)
Definition depth (n : node) : nat :=
  match n with
  | Agent_ => 7
  | Parse => 6
  | Tools => 5
  | Text2sql => 4
  | FilterDecision => 3
  | ResultFilter => 2
  | Clarifier => 1
  | Generation => 1
  end.

(** The [final_result] of what [search] returns. *)
Definition answer_text (a : search_answer) : str :=
  match a with
  | Text final_result => final_result
  | Detailed final_result _ _ _ => final_result
  end.

(** Both members of the identifier of a call can be hashed. *)
Definition hashable_call (call : dict) : Prop :=
  hashable (call_name call) = true /\ hashable (call_args call) = true.



(** The keywords by which a query asks for every line. *)
Definition all_keywords : list str := List.map u ["모두"; "전체"; "모든"]%string.

(** What every record built by a pass has: a name and an args field. *)
Definition well_formed (call : dict) : Prop := has_name_args call = true.

(** The character that a pattern must start with, when its shape tells. *)
Fixpoint first_chr (r : re) : option N :=
  match r with
  | Chr c => Some c
  | Seq r1 _ => first_chr r1
  | Grp _ r1 => first_chr r1
  | _ => None
  end.

(** Every group of the pattern starts with an opening brace. *)
Fixpoint brace_groups (r : re) : bool :=
  match r with
  | Grp _ r1 =>
      match first_chr r1 with
      | Some c => (c =? 123)%N && brace_groups r1
      | None => false
      end
  | Seq r1 r2 | Alt r1 r2 => brace_groups r1 && brace_groups r2
  | Star r1 => brace_groups r1
  | _ => true
  end.

(** Every captured text starts with an opening brace. *)
Definition brace_caps (cs : caps) : Prop :=
  Forall (fun it => exists t, snd it = 123%N :: t) cs.


(* ================================================================== *)
(** ** Notions used to state what the parser and the runs keep *)
(* ================================================================== *)

(** [l1] is [l2] with some of its members left out, the order kept. *)
Inductive subseq (A : Type) : list A -> list A -> Prop :=
| subseq_nil : subseq [] []
| subseq_skip (x : A) (l1 l2 : list A) : subseq l1 l2 -> subseq l1 (x :: l2)
| subseq_take (x : A) (l1 l2 : list A) : subseq l1 l2 -> subseq (x :: l1) (x :: l2).

(** A pattern that cannot match without reading an opening brace. *)
Fixpoint needs_brace (r : re) : bool :=
  match r with
  | Chr c => (c =? 123)%N
  | Seq r1 r2 => needs_brace r1 || needs_brace r2
  | Alt r1 r2 => needs_brace r1 && needs_brace r2
  | Grp _ r1 => needs_brace r1
  | _ => false
  end.

(** The collaborators [E] with the tools replaced by [f]. *)
Definition with_tool_func (W : Type) (f : str -> json -> W -> W * may_raise str)
           (E : Externals W) : Externals W :=
  mk_externals (llm_main E) (agent_prompt E) (generation_prompt E) f
    (execute_text2sql E) (json_dumps E) (py_repr E) (json_depth E)
    (unicode_word E) (unicode_decimal E) (py_lower E) (enable_detailed_logging E).

(** The collaborators [E] with the SQL subsystem replaced by [f]. *)
Definition with_execute_text2sql (W : Type) (f : json -> W -> W * may_raise str)
           (E : Externals W) : Externals W :=
  mk_externals (llm_main E) (agent_prompt E) (generation_prompt E) (tool_func E)
    f (json_dumps E) (py_repr E) (json_depth E)
    (unicode_word E) (unicode_decimal E) (py_lower E) (enable_detailed_logging E).

(** The bodies of the five loops of the parser, in their order; each is
    applied to the text of a match. *)
Definition passes (depth : nat) (json_dumps py_repr : json -> str)
  : list (str -> may_raise (list dict)) :=
  [ body1 depth; body2 depth json_dumps; body3 depth json_dumps;
    body4 depth py_repr; body5 depth json_dumps ].

(** The bodies that turn a text2sql directive into a call. *)
Definition directive_passes (depth : nat) (json_dumps : json -> str)
  : list (str -> may_raise (list dict)) :=
  [ body2 depth json_dumps; body3 depth json_dumps; body5 depth json_dumps ].

(** A record one of whose identifying members cannot be hashed. *)
Definition unhashable_call (call : dict) : Prop :=
  hashable (fst (identifier call)) = false \/ hashable (snd (identifier call)) = false.






(* ================================================================== *)
(** ** The tools: [QueryParser] of [core/query_parser.py] and
       [StockSearchAgent._create_tools] *)
(* ================================================================== *)

(** What the code of a tool can raise: the [AttributeError] of a method
    that a value does not have, or the exception of a collaborator. *)
Inductive error : Type :=
| AttributeError (msg : str)
| Raised (e : exn).

(** [str(e)]. *)
Definition error_str (e : error) : str :=
  match e with
  | AttributeError msg => msg
  | Raised e => exn_str e
  end.

Inductive outcome (A : Type) : Type :=
| Returned (a : A)
| Failed (e : error).

Arguments Returned {A} a.
Arguments Failed {A} e.

(** [type(v).__name__] of a decoded value. *)
Definition type_name (v : json) : str :=
  match v with
  | JNull => u "NoneType"
  | JBool _ => u "bool"
  | JInt _ => u "int"
  | JFloat _ => u "float"
  | JString _ => u "str"
  | JArray _ => u "list"
  | JObject _ => u "dict"
  end.

(** The message of the [AttributeError] that [v.attr] raises. *)
Definition no_attribute (v : json) (attr : str) : str :=
  u "'" ++ type_name v ++ u "' object has no attribute '" ++ attr ++ u "'".

Module QueryParser.

(** The message of the [AttributeError] that [v.get] raises. *)
Definition no_attribute_get (v : json) : str := no_attribute v (u "get").

(** [params.get(key, default)] on a [dict]. *)
Definition get (params : dict) (key : str) (default : json) : json :=
  match dict_get key params with
  | Some v => v
  | None => default
  end.

(** The query functions of [BasicQueries] and [TechnicalQueries], with
    their arguments in the order in which the handler writes them. *)
Record Backends (W : Type) : Type := mk_backends {
  (** [self.basic_queries.get_stock_price_info] *)
  get_stock_price_info : json -> json -> W -> W * may_raise str;
  (** [self.basic_queries.get_market_statistics] *)
  get_market_statistics : json -> W -> W * may_raise str;
  (** [self.basic_queries.get_market_index] *)
  get_market_index : json -> json -> W -> W * may_raise str;
  (** [self.basic_queries.search_company_by_name] *)
  search_company_by_name : json -> W -> W * may_raise str;
  (** [self.technical_queries.search_by_price] *)
  search_by_price : json -> json -> json -> json -> json -> json -> json -> json -> json -> W -> W * may_raise str;
  (** [self.technical_queries.search_by_price_change_rate] *)
  search_by_price_change_rate : json -> json -> json -> json -> json -> json -> json -> json -> W -> W * may_raise str;
  (** [self.technical_queries.search_by_volume] *)
  search_by_volume : json -> json -> json -> json -> json -> json -> json -> W -> W * may_raise str;
  (** [self.basic_queries.get_trading_value_ranking] *)
  get_trading_value_ranking : json -> json -> W -> W * may_raise str;
  (** [self.technical_queries.get_rsi_signals] *)
  get_rsi_signals : json -> json -> json -> W -> W * may_raise str;
  (** [self.technical_queries.get_bollinger_signals] *)
  get_bollinger_signals : json -> json -> W -> W * may_raise str;
  (** [self.technical_queries.get_ma_breakout_stocks] *)
  get_ma_breakout_stocks : json -> json -> json -> W -> W * may_raise str;
  (** [self.technical_queries.get_volume_surge_stocks] *)
  get_volume_surge_stocks : json -> json -> W -> W * may_raise str;
  (** [self.technical_queries.get_cross_signals] *)
  get_cross_signals : json -> json -> json -> W -> W * may_raise str;
  (** [self.technical_queries.count_cross_signals] *)
  count_cross_signals : json -> json -> json -> json -> W -> W * may_raise str;
  (** [self.technical_queries.search_compound] *)
  search_compound : json -> json -> json -> json -> json -> json -> json -> json -> json -> json -> W -> W * may_raise str
}.

Section WithCollaborators.

(** The nesting that the recursion limit of the interpreter leaves to the
    [json.loads] of [_extract_parameters]. *)
Variable depth : nat.
Variable W : Type.
(** [self.llm.invoke([HumanMessage(content=prompt)]).content] *)
Variable llm : str -> W -> W * may_raise str.
Variable B : Backends W.
Variable py_repr : json -> str.

(** [self._extract_parameters(query, schema, rules)], the query being
    formatted into the prompt. *)
Definition extract (query : json) (schema rules : str) (w : W) : W * json :=
  Extractor._extract_parameters depth llm (py_str py_repr query) schema rules w.

(** The calls of [params.get] that follow the extraction: the first of
    them raises when [params] is no [dict]. *)
Definition on_dict (params : json) (w : W) (k : dict -> W * outcome str)
  : W * outcome str :=
  match params with
  | JObject d => k d
  | v => (w, Failed (AttributeError (no_attribute_get v)))
  end.

(** The call of a query function, whose exception goes on. *)
Definition call (r : W * may_raise str) : W * outcome str :=
  match r with
  | (w, Ok s) => (w, Returned s)
  | (w, Raise e) => (w, Failed (Raised e))
  end.

(** [_handle_stock_price], lines 94 to 104. *)
Definition _handle_stock_price (query : json) (w : W) : W * outcome str :=
  let '(w1, params) :=
    extract query
      (qq "{'ticker': '종목코드나종목명', 'date': 'YYYY-MM-DD'}")
      (u "종목명인 경우 그대로 유지하고, 질문에 날짜가 명시되어 있지 않으면 '2025-09-15' 사용") w in
  on_dict params w1 (fun params =>
    let ticker := get params (u "ticker") (JString (u "005930")) in
    let date := get params (u "date") (JString (u "2025-09-15")) in
    call (get_stock_price_info B ticker date w1)).

(** [_handle_market_stats], lines 111 to 120. *)
Definition _handle_market_stats (query : json) (w : W) : W * outcome str :=
  let '(w1, params) :=
    extract query
      (qq "{'date': 'YYYY-MM-DD'}")
      (u "질문에 날짜가 명시되어 있지 않으면 '2025-09-15' 사용") w in
  on_dict params w1 (fun params =>
    let date := get params (u "date") (JString (u "2025-09-15")) in
    call (get_market_statistics B date w1)).

(** [_handle_market_index], lines 136 to 150. *)
Definition _handle_market_index (query : json) (w : W) : W * outcome str :=
  let '(w1, params) :=
    extract query
      (qq "{'date': 'YYYY-MM-DD', 'market': 'KOSPI'}")
      (qq "규칙:
- date: 질문에 날짜가 명시되어 있지 않으면 '2025-09-15' 사용
- market: 'KOSPI' 또는 'KOSDAQ' (기본값: 'KOSPI')
  예: 'KOSDAQ 지수', '코스닥' → 'KOSDAQ'
  예: 'KOSPI 지수', '코스피' → 'KOSPI'") w in
  on_dict params w1 (fun params =>
    let date := get params (u "date") (JString (u "2025-09-15")) in
    let market := get params (u "market") (JString (u "KOSPI")) in
    call (get_market_index B date market w1)).

(** [_handle_company_search], lines 106 to 109. *)
Definition _handle_company_search (query : json) (w : W) : W * outcome str :=
  call (search_company_by_name B query w).

(** [_handle_price_search], lines 295 to 321. *)
Definition _handle_price_search (query : json) (w : W) : W * outcome str :=
  let '(w1, params) :=
    extract query
      (qq "{'date': 'YYYY-MM-DD', 'search_type': '순위검색|범위검색', 'result_type': '목록순위|종목순위', 'ticker': null, 'price_type': '시가|고가|저가|종가', 'limit': 10, 'min_price': null, 'max_price': null, 'market': 'KOSPI|KOSDAQ|null'}")
      (qq "규칙:
- date: 질문에 날짜가 명시되어 있지 않으면 '2025-09-15' 사용
- search_type: '가장 비싼', '순위', '상위' → '순위검색', '1만원~5만원', '범위', '이상', '이하' → '범위검색'
- result_type: '상위 10개', '목록' → '목록순위', '삼성전자가 몇 등', '순위' → '종목순위'
- ticker: 종목명이나 코드 추출 (종목순위일 때만 필수)
- price_type: '시가' → '시가', '고가' → '고가', '저가' → '저가', '종가' → '종가' (기본값: 종가)
- limit: '10개', '20개' → 10, 20 (기본값 10, 목록순위일 때만)
- min_price: '1만원', '5만원' → 10000, 50000 (범위검색일 때만)
- max_price: '10만원', '50만원' → 100000, 500000 (범위검색일 때만)
- market: 'KOSPI' → 'KOSPI', 'KOSDAQ' → 'KOSDAQ', 없으면 null 사용") w in
  on_dict params w1 (fun params =>
    let date := get params (u "date") (JString (u "2025-09-15")) in
    let search_type := get params (u "search_type") (JString (u "범위검색")) in
    let result_type := get params (u "result_type") (JString (u "목록순위")) in
    let ticker := get params (u "ticker") (JNull) in
    let price_type := get params (u "price_type") (JString (u "종가")) in
    let limit := get params (u "limit") (JInt 50) in
    let min_price := get params (u "min_price") (JNull) in
    let max_price := get params (u "max_price") (JNull) in
    let market := get params (u "market") (JNull) in
    call (search_by_price B date min_price max_price market limit search_type price_type result_type ticker w1)).

(** [_handle_price_change_search], lines 245 to 269. *)
Definition _handle_price_change_search (query : json) (w : W) : W * outcome str :=
  let '(w1, params) :=
    extract query
      (qq "{'date': 'YYYY-MM-DD', 'ranking_type': '상승률순위|하락률순위|범위검색', 'result_type': '목록순위|종목순위', 'ticker': null, 'limit': 5, 'min_change_rate': null, 'max_change_rate': null, 'market': 'KOSPI|KOSDAQ|null'}")
      (qq "규칙:
- date: 질문에 날짜가 명시되어 있지 않으면 '2025-09-15' 사용
- ranking_type: '상승률 높은', '상승률순위' → '상승률순위', '하락률 높은', '하락률순위' → '하락률순위', 범위 조건 → '범위검색'
- result_type: '상위 10개', '목록' → '목록순위', '삼성전자가 몇 등', '순위' → '종목순위'
- ticker: 종목명이나 코드 추출 (종목순위일 때만 필수)
- limit: '5개', '10개' → 5, 10 (기본값 5, 목록순위일 때만)
- min_change_rate: '5% 이상', '+10% 이상' → 5.0, 10.0 (범위검색일 때만)
- max_change_rate: '-10% 이하', '5% 이하' → -10.0, 5.0 (범위검색일 때만)
- market: 'KOSPI' → 'KOSPI', 'KOSDAQ' → 'KOSDAQ', 없으면 null 사용") w in
  on_dict params w1 (fun params =>
    let date := get params (u "date") (JString (u "2025-09-15")) in
    let ranking_type := get params (u "ranking_type") (JString (u "범위검색")) in
    let result_type := get params (u "result_type") (JString (u "목록순위")) in
    let ticker := get params (u "ticker") (JNull) in
    let limit := get params (u "limit") (JInt 50) in
    let min_change_rate := get params (u "min_change_rate") (JNull) in
    let max_change_rate := get params (u "max_change_rate") (JNull) in
    let market := get params (u "market") (JNull) in
    call (search_by_price_change_rate B date min_change_rate max_change_rate market limit ranking_type result_type ticker w1)).

(** [_handle_volume_search], lines 271 to 293. *)
Definition _handle_volume_search (query : json) (w : W) : W * outcome str :=
  let '(w1, params) :=
    extract query
      (qq "{'date': 'YYYY-MM-DD', 'ranking_type': '거래량순위|임계값검색', 'result_type': '목록순위|종목순위', 'ticker': null, 'limit': 10, 'min_volume': null, 'market': 'KOSPI|KOSDAQ|null'}")
      (qq "규칙:
- date: 질문에 날짜가 명시되어 있지 않으면 '2025-09-15' 사용
- ranking_type: '거래량 순위', '거래량 상위' → '거래량순위', '100만주 이상', '임계값' → '임계값검색'
- result_type: '상위 10개', '목록' → '목록순위', '삼성전자가 몇 등', '순위' → '종목순위'
- ticker: 종목명이나 코드 추출 (종목순위일 때만 필수)
- limit: '10개', '20개' → 10, 20 (기본값 10, 목록순위일 때만)
- min_volume: '100만주', '500만주' → 1000000, 5000000 (임계값검색일 때만)
- market: 'KOSPI' → 'KOSPI', 'KOSDAQ' → 'KOSDAQ', 없으면 null 사용") w in
  on_dict params w1 (fun params =>
    let date := get params (u "date") (JString (u "2025-09-15")) in
    let ranking_type := get params (u "ranking_type") (JString (u "임계값검색")) in
    let result_type := get params (u "result_type") (JString (u "목록순위")) in
    let ticker := get params (u "ticker") (JNull) in
    let limit := get params (u "limit") (JInt 50) in
    let min_volume := get params (u "min_volume") (JNull) in
    let market := get params (u "market") (JNull) in
    call (search_by_volume B date min_volume market limit ranking_type result_type ticker w1)).

(** [_handle_trading_ranking], lines 123 to 133. *)
Definition _handle_trading_ranking (query : json) (w : W) : W * outcome str :=
  let '(w1, params) :=
    extract query
      (qq "{'date': 'YYYY-MM-DD', 'limit': 10}")
      (u "질문에 날짜가 명시되어 있지 않으면 '2025-09-15', 개수가 없으면 10 사용") w in
  on_dict params w1 (fun params =>
    let date := get params (u "date") (JString (u "2025-09-15")) in
    let limit := get params (u "limit") (JInt 10) in
    call (get_trading_value_ranking B date limit w1)).

(** [_handle_rsi_signals], lines 152 to 167. *)
Definition _handle_rsi_signals (query : json) (w : W) : W * outcome str :=
  let '(w1, params) :=
    extract query
      (qq "{'date': 'YYYY-MM-DD', 'rsi_min': null, 'rsi_max': null}")
      (qq "규칙:
- date: 질문에 날짜가 명시되어 있지 않으면 '2025-09-15' 사용
- rsi_min: RSI 최소값 (예: 'RSI 70 이상', '과매수' → 70.0)
- rsi_max: RSI 최대값 (예: 'RSI 30 이하', '과매도' → 30.0)
- 과매수만 언급되면 rsi_min: 70.0, 과매도만 언급되면 rsi_max: 30.0") w in
  on_dict params w1 (fun params =>
    let date := get params (u "date") (JString (u "2025-09-15")) in
    let rsi_min := get params (u "rsi_min") (JNull) in
    let rsi_max := get params (u "rsi_max") (JNull) in
    call (get_rsi_signals B date rsi_min rsi_max w1)).

(** [_handle_bollinger_signals], lines 169 to 179. *)
Definition _handle_bollinger_signals (query : json) (w : W) : W * outcome str :=
  let '(w1, params) :=
    extract query
      (qq "{'date': 'YYYY-MM-DD', 'band_type': 'upper|lower'}")
      (u "질문에 날짜가 명시되어 있지 않으면 '2025-09-15' 사용, '상단'/'upper' → 'upper', '하단'/'lower' → 'lower'") w in
  on_dict params w1 (fun params =>
    let date := get params (u "date") (JString (u "2025-09-15")) in
    let band_type := get params (u "band_type") (JString (u "upper")) in
    call (get_bollinger_signals B date band_type w1)).

(** [_handle_ma_breakout], lines 181 to 195. *)
Definition _handle_ma_breakout (query : json) (w : W) : W * outcome str :=
  let '(w1, params) :=
    extract query
      (qq "{'date': 'YYYY-MM-DD', 'ma_period': 20, 'breakout_ratio': 0.03}")
      (qq "규칙:
- date: 질문에 날짜가 명시되어 있지 않으면 '2025-09-15' 사용
- ma_period: '5일'/'MA5' → 5, '20일'/'MA20' → 20, '60일'/'MA60' → 60, 없으면 20 사용
- breakout_ratio: '1%' → 0.01, '3%' → 0.03, '5%' → 0.05, '10%' → 0.10, 없으면 0.03 사용") w in
  on_dict params w1 (fun params =>
    let date := get params (u "date") (JString (u "2025-09-15")) in
    let ma_period := get params (u "ma_period") (JInt 20) in
    let breakout_ratio := get params (u "breakout_ratio") (JFloat (float_literal "0.03")) in
    call (get_ma_breakout_stocks B date ma_period breakout_ratio w1)).

(** [_handle_volume_surge], lines 197 to 207. *)
Definition _handle_volume_surge (query : json) (w : W) : W * outcome str :=
  let '(w1, params) :=
    extract query
      (qq "{'date': 'YYYY-MM-DD', 'surge_ratio': 5.0}")
      (u "질문에 날짜가 명시되어 있지 않으면 '2025-09-15' 사용, '100%' → 1.0, '200%' → 2.0, '500%' → 5.0") w in
  on_dict params w1 (fun params =>
    let date := get params (u "date") (JString (u "2025-09-15")) in
    let surge_ratio := get params (u "surge_ratio") (JFloat (float_literal "5.0")) in
    call (get_volume_surge_stocks B date surge_ratio w1)).

(** [_handle_cross_signals], lines 209 to 223. *)
Definition _handle_cross_signals (query : json) (w : W) : W * outcome str :=
  let '(w1, params) :=
    extract query
      (qq "{'start_date': 'YYYY-MM-DD', 'end_date': 'YYYY-MM-DD', 'signal_type': 'golden|dead'}")
      (qq "규칙:
- start_date: 시작날짜, 없으면 '2024-01-01' 사용
- end_date: 종료날짜, 없으면 '2024-12-31' 사용
- signal_type: '데드크로스' → 'dead', '골든크로스' → 'golden' ") w in
  on_dict params w1 (fun params =>
    let start_date := get params (u "start_date") (JString (u "2024-01-01")) in
    let end_date := get params (u "end_date") (JString (u "2024-12-31")) in
    let signal_type := get params (u "signal_type") (JString (u "golden")) in
    call (get_cross_signals B start_date end_date signal_type w1)).

(** [_handle_cross_count], lines 225 to 241. *)
Definition _handle_cross_count (query : json) (w : W) : W * outcome str :=
  let '(w1, params) :=
    extract query
      (qq "{'ticker': '종목명', 'start_date': 'YYYY-MM-DD', 'end_date': 'YYYY-MM-DD', 'signal_type': 'golden|dead|both'}")
      (qq "규칙:
- ticker: 종목명을 추출, 없으면 '삼성전자' 사용
- start_date: 시작날짜, 없으면 '2024-06-01' 사용
- end_date: 종료날짜, 없으면 '2025-06-30' 사용
- signal_type: '골든크로스'만 → 'golden', '데드크로스'만 → 'dead', 둘다 → 'both' ") w in
  on_dict params w1 (fun params =>
    let ticker := get params (u "ticker") (JString (u "삼성전자")) in
    let start_date := get params (u "start_date") (JString (u "2024-06-01")) in
    let end_date := get params (u "end_date") (JString (u "2025-06-30")) in
    let signal_type := get params (u "signal_type") (JString (u "both")) in
    call (count_cross_signals B ticker start_date end_date signal_type w1)).

(** [_handle_compound_search], lines 323 to 363. *)
Definition _handle_compound_search (query : json) (w : W) : W * outcome str :=
  let '(w1, params) :=
    extract query
      (qq "{'date': 'YYYY-MM-DD', 'market': 'KOSPI|KOSDAQ|null', 'limit': 10, 'price_min': null, 'price_max': null, 'change_rate_min': null, 'change_rate_max': null, 'volume_min': null, 'rsi_min': null, 'rsi_max': null}")
      (qq "규칙:
- date: 질문에 날짜가 명시되어 있지 않으면 '2025-09-15' 사용
- market: 'KOSPI' → 'KOSPI', 'KOSDAQ' → 'KOSDAQ', 없으면 null 사용
- limit: '10개', '20개' → 10, 20 (기본값 10)
- price_min: '1만원 이상' → 10000 (가격 최소값)
- price_max: '5만원 이하' → 50000 (가격 최대값)
- change_rate_min: '+3% 이상' → 3.0 (등락률 최소값)
- change_rate_max: '+10% 이하' → 10.0 (등락률 최대값)
- volume_min: '100만주 이상' → 1000000 (거래량 최소값)
- rsi_min: 'RSI 70 이상' → 70.0 (RSI 최소값)
- rsi_max: 'RSI 30 이하' → 30.0 (RSI 최대값)") w in
  on_dict params w1 (fun params =>
    let date := get params (u "date") (JString (u "2025-09-15")) in
    let market := get params (u "market") (JNull) in
    let limit := get params (u "limit") (JInt 50) in
    let price_min := get params (u "price_min") (JNull) in
    let price_max := get params (u "price_max") (JNull) in
    let change_rate_min := get params (u "change_rate_min") (JNull) in
    let change_rate_max := get params (u "change_rate_max") (JNull) in
    let volume_min := get params (u "volume_min") (JNull) in
    let rsi_min := get params (u "rsi_min") (JNull) in
    let rsi_max := get params (u "rsi_max") (JNull) in
    call (search_compound B date market limit price_min price_max change_rate_min change_rate_max volume_min rsi_min rsi_max w1)).

(** [_handle_text2sql], lines 365 to 367. *)
Definition _handle_text2sql (query : json) (w : W) : W * outcome str :=
  (w, Returned (u "TEXT2SQL 쿼리가 별도 노드에서 처리됩니다: " ++ py_str py_repr query)).

(** [self.tool_mappings], in the order of the source. *)
Definition tool_mappings : list (str * (json -> W -> W * outcome str)) :=
  [ (u "get_stock_price", _handle_stock_price);
    (u "get_market_stats", _handle_market_stats);
    (u "get_market_index", _handle_market_index);
    (u "search_company", _handle_company_search);
    (u "search_price", _handle_price_search);
    (u "search_price_change", _handle_price_change_search);
    (u "search_volume", _handle_volume_search);
    (u "search_trading_value_ranking", _handle_trading_ranking);
    (u "get_rsi_signals", _handle_rsi_signals);
    (u "get_bollinger_signals", _handle_bollinger_signals);
    (u "get_ma_breakout", _handle_ma_breakout);
    (u "get_volume_surge", _handle_volume_surge);
    (u "get_cross_signals", _handle_cross_signals);
    (u "count_cross_signals", _handle_cross_count);
    (u "search_compound", _handle_compound_search);
    (u "text2sql", _handle_text2sql) ].

(** [tool_name in self.tool_mappings] and [self.tool_mappings[tool_name]]. *)
Fixpoint lookup (A : Type) (name : str) (m : list (str * A)) : option A :=
  match m with
  | [] => None
  | (k, v) :: m' => if str_eqb name k then Some v else lookup name m'
  end.

(** The [try] block of [parse_and_execute]. *)
Definition parse_and_execute_body (tool_name : str) (query : json) (w : W)
  : W * outcome str :=
  match lookup tool_name tool_mappings with
  | None => (w, Returned (u "알 수 없는 도구: " ++ tool_name))
  | Some handler => handler query w
  end.

(** [parse_and_execute], with its [except Exception]. *)
Definition parse_and_execute (tool_name : str) (query : json) (w : W)
  : W * may_raise str :=
  let '(w', r) := parse_and_execute_body tool_name query w in
  (w', match r with
       | Returned result => Ok result
       | Failed e => Ok (tool_name ++ u " 실행 중 오류: " ++ error_str e)
       end).

(** *** [StockSearchAgent._create_tools] *)

(** A [Tool]. *)
Record Tool : Type := mk_Tool {
  name : str;
  description : str;
  func : json -> W -> W * may_raise str
}.

Definition descriptions : list (str * str) :=
  [ (u "get_stock_price",
     u "특정 종목의 특정날짜의 시가/고가/저가/종가/거래량/등락률을 조회합니다. 종목명(삼성전자)이나 코드(005930)로 검색 가능");
    (u "get_market_index",
     u "시장 지수를 조회합니다. KOSPI나 KOSDAQ 지수값을 날짜별로 조회 가능");
    (u "get_market_stats",
     u "시장 통계를 조회합니다. 제공 정보: 전체/상승/하락/보합 종목수, KOSPI/KOSDAQ 종목수, 시장 평균 등락률, 최고/최저 등락률, 전체 거래대금, 상승/하락 종목 평균 등락률");
    (u "search_company",
     u "회사명으로 종목을 검색합니다. 부분 검색도 가능");
    (u "search_price",
     u "가격 기준 검색을 수행합니다. 가격 순위 조회 및 가격 범위 검색 모두 가능. 시가/고가/저가/종가 지원");
    (u "search_price_change",
     u "등락률 기준 검색을 수행합니다. 상승률/하락률 순위 조회 및 등락률 범위 검색 모두 가능");
    (u "search_volume",
     u "거래량 기준 검색을 수행합니다. 거래량 순위 조회 및 거래량 임계값 검색 모두 가능");
    (u "search_trading_value_ranking",
     u "거래대금 순위를 조회합니다. 거래대금 상위 종목들");
    (u "get_rsi_signals",
     u "RSI 기반 과매수/과매도 신호를 감지합니다. RSI 70 이상 과매수, 30 이하 과매도 종목 검색");
    (u "get_bollinger_signals",
     u "볼린저 밴드 상단/하단 터치 종목을 검색합니다. 볼린저 밴드 신호 감지");
    (u "get_ma_breakout",
     u "이동평균선 돌파 종목을 검색합니다. 5일, 20일, 60일 이동평균 돌파 분석");
    (u "get_volume_surge",
     u "거래량 급증 종목을 검색합니다. 20일 평균 대비 100%, 200%, 300%, 500% 이상 급증 (※전날대비/어제대비/하루대비는 TEXT2SQL 사용)");
    (u "get_cross_signals",
     u "특정 기간 동안 골든크로스/데드크로스가 발생한 종목 목록을 검색합니다. '어떤 종목이 데드크로스 발생했는지' 질문에 사용");
    (u "count_cross_signals",
     u "특정 종목 하나의 골든크로스/데드크로스 발생 횟수를 계산합니다. '삼성전자가 몇 번 데드크로스 발생했는지' 질문에 사용");
    (u "search_compound",
     u "복합조건 검색을 수행합니다. 가격, 등락률, 거래량, RSI 등 여러 조건을 동시에 만족하는 종목을 검색");
    (u "text2sql",
     u "복잡한 계산이나 집계가 필요한 쿼리를 처리합니다. 전날대비 비교, 시장 비율 계산, 복잡한 조건 검색 등에 사용") ].

Definition _create_tools : list Tool :=
  List.map
    (fun tool_name : str =>
       mk_Tool tool_name
         (match lookup tool_name descriptions with
          | Some text => text
          | None => tool_name ++ u " 도구"
          end)
         (fun query => parse_and_execute tool_name query))
    (List.map fst tool_mappings).

(** The search of [tools_node] for the function of a tool:
    [for tool in self.tools: if tool.name == tool_name: ...]. *)
Definition tool_func_of (tool_name : json) : option (json -> W -> W * may_raise str) :=
  match tool_name with
  | JString n =>
      match List.find (fun tool => str_eqb (name tool) n) _create_tools with
      | Some tool => Some (func tool)
      | None => None
      end
  | _ => None
  end.

End WithCollaborators.

End QueryParser.


(* ================================================================== *)
(** ** The SQL subsystem: [Text2SQLNode] of [core/text2sql_node.py] *)
(* ================================================================== *)

Module Text2SQL.

(** A character of a literal under [re.IGNORECASE]: the characters that
    match it. *)
Definition any_case (cs : list N) : re := Cls (fun c => existsb (N.eqb c) cs).

(** The pattern of [_extract_sql_from_response], flags [DOTALL] and
    [IGNORECASE], written with a blank between its tokens:
    [``` sql \s* ( .*? ) \s* ```].  [opener] is what precedes the group and
    [closer] what follows it; under [IGNORECASE] the letter s also matches
    U+017F. *)
Definition opener : re :=
  Seq (Lit (u "```"))
    (Seq (any_case [115; 83; 383]%N)
       (Seq (any_case [113; 81]%N) (Seq (any_case [108; 76]%N) (Star ws)))).

Definition closer : re := Seq (Star ws) (Lit (u "```")).

(** The lazy [.*?] under [DOTALL], followed by [k]: the shortest text
    first. *)
Fixpoint lazy_any (A : Type) (pos : nat) (s : str) (k : nat -> str -> option A)
  : option A :=
  match k pos s with
  | Some x => Some x
  | None =>
      match s with
      | [] => None
      | _ :: s' => lazy_any (S pos) s' k
      end
  end.

(** The match of the whole pattern at offset [pos]: the text of group 1. *)
Definition fenced_at (pos : nat) (s : str) : option str :=
  go opener pos s []
     (fun p1 s1 _ =>
        lazy_any p1 s1
          (fun p2 s2 =>
             go closer p2 s2 [] (fun _ _ _ => Some (firstn (p2 - p1) s1)))).

Fixpoint fenced_from (pos : nat) (s : str) : option str :=
  match fenced_at pos s with
  | Some g => Some g
  | None =>
      match s with
      | [] => None
      | _ :: s' => fenced_from (S pos) s'
      end
  end.

(** [re.search(sql_pattern, response, re.DOTALL | re.IGNORECASE)], as the
    text of its group 1. *)
Definition fenced (response : str) : option str := fenced_from 0 response.

(** [s.endswith(suffix)]. *)
Definition endswith (suffix s : str) : bool := startswith (rev suffix) (rev s).

Fixpoint lstrip_char (c : N) (s : str) : str :=
  match s with
  | x :: s' => if (x =? c)%N then lstrip_char c s' else s
  | [] => []
  end.

(** [s.rstrip(';')]. *)
Definition rstrip_semicolon (s : str) : str := rev (lstrip_char 59 (rev s)).

(** The words a line of a query may start with. *)
Definition sql_keywords : list str :=
  List.map u ["SELECT"; "FROM"; "WHERE"; "GROUP"; "ORDER"; "HAVING"; "LIMIT";
              "AND"; "OR"; "WITH"]%string.

Section WithUpper.

(** [str.upper]. *)
Variable py_upper : str -> str.

(** The loop over the lines of a reply that has no fenced block;
    [in_sql] and [sql_lines] are its variables. *)
Fixpoint scan_lines (lines : list str) (in_sql : bool) (sql_lines : list str)
  : list str :=
  match lines with
  | [] => sql_lines
  | line0 :: rest =>
      let line := strip line0 in
      let in_sql := in_sql || startswith (u "SELECT") (py_upper line) in
      if in_sql then
        let sql_lines := sql_lines ++ [line] in
        if endswith (u ";") line
           || (nonempty line
               && negb (existsb (fun kw => startswith kw (py_upper line))
                                sql_keywords))
        then sql_lines
        else scan_lines rest in_sql sql_lines
      else scan_lines rest in_sql sql_lines
  end.

Definition _extract_sql_from_response (response : str) : str :=
  match fenced response with
  | Some group1 => strip group1
  | None =>
      rstrip_semicolon (join [10%N] (scan_lines (split_on 10 response) false []))
  end.

Section WithSubsystem.

Variable W : Type.
(** [self.llm.invoke([HumanMessage(content=sql_prompt)]).content] *)
Variable llm : str -> W -> W * may_raise str.
(** [self._build_sql_prompt(query, self._get_schema_for_columns(columns),
    query_type)]: the prompt for a query. *)
Variable sql_prompt : json -> str.
(** A [pandas.DataFrame], [self._execute_sql] and
    [self._format_results]. *)
Variable DataFrame : Type.
Variable _execute_sql : str -> W -> W * may_raise DataFrame.
Variable _format_results : DataFrame -> json -> may_raise str.

(** [f"TEXT2SQL 실행 중 오류 발생: {str(e)}"] *)
Definition failure (e : exn) : str := u "TEXT2SQL 실행 중 오류 발생: " ++ exn_str e.

(** The [try] block of [execute_text2sql]. *)
Definition execute_text2sql_body (query : json) (w : W) : W * may_raise str :=
  let '(w1, response) := llm (sql_prompt query) w in
  match response with
  | Raise e => (w1, Raise e)
  | Ok content =>
      let sql_query := _extract_sql_from_response content in
      let '(w2, results) := _execute_sql sql_query w1 in
      (w2, bind results (fun df => _format_results df query))
  end.

(** [execute_text2sql], with its [except Exception]. *)
Definition execute_text2sql (query : json) (w : W) : W * may_raise str :=
  let '(w', r) := execute_text2sql_body query w in
  (w', match r with
       | Ok formatted_result => Ok formatted_result
       | Raise e => Ok (failure e)
       end).

End WithSubsystem.

End WithUpper.

End Text2SQL.

(* ================================================================== *)
(** ** The agent as [StockSearchAgent.__init__] wires it *)
(* ================================================================== *)

Section Wiring.

Variable W : Type.
(** The collaborators that the agent reaches directly. *)
Variable E : Externals W.
(** The nesting that the recursion limit leaves to the [json.loads] of
    the query parser. *)
Variable extractor_depth : nat.
(** [self.llm_simple], which the query parser asks for parameters. *)
Variable llm_simple : str -> W -> W * may_raise str.
Variable B : QueryParser.Backends W.
Variable py_upper : str -> str.
Variable sql_prompt : json -> str.
Variable DataFrame : Type.
Variable _execute_sql : str -> W -> W * may_raise DataFrame.
Variable _format_results : DataFrame -> json -> may_raise str.

(** The tools are those of [_create_tools], over
    [QueryParser(self.llm_simple, db_manager)]; the SQL subsystem is
    [Text2SQLNode(db_manager.stock_db_path, self.llm_main)]. *)
Definition wired : Externals W :=
  with_execute_text2sql
    (Text2SQL.execute_text2sql py_upper (llm_main E) sql_prompt
       _execute_sql _format_results)
    (with_tool_func
       (fun tool_name =>
        QueryParser.parse_and_execute extractor_depth llm_simple B (py_repr E) tool_name)
       E).

End Wiring.


(* ================================================================== *)
(** ** The stock price query: [BasicQueries] of [core/basic_queries.py] *)
(* ================================================================== *)

Module BasicQueries.

(** The market suffix is added to a code that has none: a code with a dot
    is taken as it is, any other is tried on the three markets in turn. *)
Definition _format_ticker (ticker : str) : list str :=
  if contains (u ".") ticker then [ticker]
  else [ticker ++ u ".KS"; ticker ++ u ".KQ"; ticker ++ u ".KN"].

Section WithDatabase.

Variable W : Type.
(** A row of the price table. *)
Variable Row : Type.
(** [str.isdigit]. *)
Variable isdigit : str -> bool.
(** [self.db_manager.get_company_info(stock_name=...)], as the ticker
    column of the rows it finds. *)
Variable get_company_info : str -> W -> W * may_raise (list str).
(** [self.db_manager.get_stock_price(ticker, date)], as the rows it
    finds. *)
Variable get_stock_price : str -> json -> W -> W * may_raise (list Row).
(** The text that the f-strings make of a row; a field that cannot be
    formatted raises. *)
Variable price_text : Row -> may_raise str.
Variable py_repr : json -> str.

(** [for ticker_formatted in tickers_to_try: df = ...; if not df.empty:
    break], [df] being the rows of the last lookup. *)
Fixpoint try_tickers (tickers_to_try : list str) (date : json) (w : W)
         (df : list Row) : W * may_raise (list Row) :=
  match tickers_to_try with
  | [] => (w, Ok df)
  | ticker_formatted :: rest =>
      let '(w1, r) := get_stock_price ticker_formatted date w in
      match r with
      | Raise e => (w1, Raise e)
      | Ok [] => try_tickers rest date w1 []
      | Ok (row :: rows) => (w1, Ok (row :: rows))
      end
  end.

(** The name of a company is replaced by the ticker of the first company
    found under that name, if any. *)
Definition resolve (ticker : str) (w : W) : W * may_raise str :=
  if negb (isdigit ticker) && negb (contains (u ".") ticker) then
    let '(w1, r) := get_company_info ticker w in
    (w1, bind r (fun company_df =>
                   match company_df with
                   | [] => Ok ticker
                   | first :: _ => Ok first
                   end))
  else (w, Ok ticker).

Definition not_found (ticker : str) (date : json) : str :=
  ticker ++ u " 종목의 " ++ py_str py_repr date ++ u " 가격 정보를 찾을 수 없습니다.".

(** The [try] block of [get_stock_price_info]. *)
Definition get_stock_price_info_body (ticker date : json) (w : W)
  : W * outcome str :=
  match ticker with
  | JString name =>
      let '(w1, r1) := resolve name w in
      match r1 with
      | Raise e => (w1, Failed (Raised e))
      | Ok ticker =>
          let '(w2, r2) := try_tickers (_format_ticker ticker) date w1 [] in
          match r2 with
          | Raise e => (w2, Failed (Raised e))
          | Ok [] => (w2, Returned (not_found ticker date))
          | Ok (row :: _) =>
              (w2, match price_text row with
                   | Ok result => Returned result
                   | Raise e => Failed (Raised e)
                   end)
          end
      end
  | v => (w, Failed (AttributeError (no_attribute v (u "isdigit"))))
  end.

(** [get_stock_price_info], with its [except Exception]. *)
Definition get_stock_price_info (ticker date : json) (w : W) : W * may_raise str :=
  let '(w', r) := get_stock_price_info_body ticker date w in
  (w', match r with
       | Returned result => Ok result
       | Failed e => Ok (u "가격 정보 조회 중 오류 발생: " ++ error_str e)
       end).


End WithDatabase.

End BasicQueries.

(* ================================================================== *)
(** ** The greedy star of the matcher, as a function of its own *)
(* ================================================================== *)

Section StarRun.

Variable A : Type.
Variable r1 : re.
Variable k : nat -> str -> caps -> option A.

(** The loop that [go] runs for [Star r1]: [n] bounds the number of
    repetitions, [k] is what follows the star. *)
Fixpoint star_run (n : nat) (pos : nat) (s : str) (cs : caps) : option A :=
  match n with
  | O => k pos s cs
  | S n' =>
      match go r1 pos s cs
               (fun pos' s' cs' =>
                  if Nat.ltb pos pos' then star_run n' pos' s' cs' else None) with
      | Some x => Some x
      | None => k pos s cs
      end
  end.

End StarRun.

(* ================================================================== *)
(** ** The records that the structured stage keeps *)
(* ================================================================== *)

(** The entries that a batch adds to [tool_results]: one for each call
    that returned, with the status that the batch had after that call;
    [status] is the status before the first call. *)
Fixpoint details (calls : list dict) (os : list (option (may_raise str)))
         (status : Agent.status) : list tool_result_detail :=
  match calls, os with
  | call :: calls', o :: os' =>
      match o with
      | Some (Ok r) =>
          let status' := if has_error_keyword r then param_missing else status in
          mk_detail (call_name call) (call_args call) r status'
            :: details calls' os' status'
      | Some (Raise _) | None => details calls' os' tool_error
      end
  | _, _ => []
  end.


(* ================================================================== *)
(** ** Scripted query functions for the examples *)
(* ================================================================== *)

Module DemoTools.

(** A query function that answers with its own name and its arguments. *)
Definition echo (name : string) (args : list json) (w : unit) : unit * may_raise str :=
  (w, Ok (u name ++ u "(" ++ join (u ", ") (List.map Demo.show args) ++ u ")")).

Definition backends : QueryParser.Backends unit :=
  QueryParser.mk_backends
    (fun a0 a1 => echo "get_stock_price_info" [a0; a1])
    (fun a0 => echo "get_market_statistics" [a0])
    (fun a0 a1 => echo "get_market_index" [a0; a1])
    (fun a0 => echo "search_company_by_name" [a0])
    (fun a0 a1 a2 a3 a4 a5 a6 a7 a8 => echo "search_by_price" [a0; a1; a2; a3; a4; a5; a6; a7; a8])
    (fun a0 a1 a2 a3 a4 a5 a6 a7 => echo "search_by_price_change_rate" [a0; a1; a2; a3; a4; a5; a6; a7])
    (fun a0 a1 a2 a3 a4 a5 a6 => echo "search_by_volume" [a0; a1; a2; a3; a4; a5; a6])
    (fun a0 a1 => echo "get_trading_value_ranking" [a0; a1])
    (fun a0 a1 a2 => echo "get_rsi_signals" [a0; a1; a2])
    (fun a0 a1 => echo "get_bollinger_signals" [a0; a1])
    (fun a0 a1 a2 => echo "get_ma_breakout_stocks" [a0; a1; a2])
    (fun a0 a1 => echo "get_volume_surge_stocks" [a0; a1])
    (fun a0 a1 a2 => echo "get_cross_signals" [a0; a1; a2])
    (fun a0 a1 a2 a3 => echo "count_cross_signals" [a0; a1; a2; a3])
    (fun a0 a1 a2 a3 a4 a5 a6 a7 a8 a9 => echo "search_compound" [a0; a1; a2; a3; a4; a5; a6; a7; a8; a9]).

(** A parameter model that gives the same reply to every prompt. *)
Definition llm (reply : may_raise str) (prompt : str) (w : unit) : unit * may_raise str :=
  (w, reply).

(** [str.upper] on ASCII. *)
Definition ascii_upper (s : str) : str :=
  List.map (fun c => if ((97 <=? c) && (c <=? 122))%N then (c - 32)%N else c) s.

(** The agent wired to the scripted collaborators: [reply] is what the
    main model answers to the prompt of [agent_node], [answer] what it
    answers to any other prompt, and [params] what the parameter model
    answers. *)
Definition wired (reply answer params : may_raise str) : Externals unit :=
  wired (Demo.externals reply answer) Demo.depth (llm params) backends ascii_upper
    (fun q => u "sql for " ++ Demo.show q)
    (fun (sql : str) (w : unit) => (w, Raise (External (u "no such table")) : may_raise unit))
    (fun (df : unit) (q : json) => Ok (u "rows")).

End DemoTools.

(** No two of the strings are equal. *)
Fixpoint distinct_strs (l : list str) : bool :=
  match l with
  | [] => true
  | x :: l' => negb (existsb (str_eqb x) l') && distinct_strs l'
  end.

(* ================================================================== *)
(** ** Properties of the routing functions *)
(* ================================================================== *)

(** C4.  After an execution stage whose status is [param_missing], a retry
    count of 0 or 1 routes to the clarifier (from either stage); a retry
    count of 2 or more does not: the SQL stage is followed by the filter
    decision, and the structured stage by the SQL stage when a text2sql call
    is present and by the filter decision otherwise. *)
Theorem C4_clarification_gating :
  forall s : StockSearchState,
    validation_status s = param_missing ->
    ((retry_count s = 0 \/ retry_count s = 1)%Z ->
       after_tools_routing s = Clarifier /\ after_text2sql_routing s = Clarifier) /\
    ((2 <= retry_count s)%Z ->
       after_text2sql_routing s = FilterDecision /\
       after_tools_routing s =
         (if existsb is_text2sql_call (tool_calls s) then Text2sql else FilterDecision)).
Proof.
  intros s Hs. unfold after_tools_routing, after_text2sql_routing.
  rewrite Hs. cbn [status_eqb andb]. split.
  - intros [H | H]; rewrite H; split; reflexivity.
  - intros H. apply Z.ltb_ge in H. rewrite H. split; reflexivity.
Qed.

Lemma C4_clarification_gating_witness :
  let s0 := with_validation_status param_missing (initial_state (u "q")) in
  let s2 := mk_state [] (u "q") [] [] 1%Z param_missing false 2%Z [] 0%Z [] [] [] in
  (after_tools_routing s0 = Clarifier /\ after_text2sql_routing s0 = Clarifier) /\
  (after_text2sql_routing s2 = FilterDecision /\ after_tools_routing s2 = FilterDecision).
Proof.
  intros s0 s2. split.
  - apply (proj1 (C4_clarification_gating s0 eq_refl)). left. reflexivity.
  - apply (proj2 (C4_clarification_gating s2 eq_refl)). simpl. lia.
Defined.


(* ================================================================== *)
(** ** Properties of the matcher and of the decoder *)
(* ================================================================== *)

Section MatcherFacts.

Variable A : Type.

(** A successful match hands its continuation an offset that is not
    before the one it started from. *)
Lemma go_advances (r : re) :
  forall pos s cs (k : nat -> str -> caps -> option A) x,
    go r pos s cs k = Some x ->
    exists pos' s' cs', (pos <= pos')%nat /\ k pos' s' cs' = Some x.
Proof.
  induction r as [|c|p|r1 IH1 r2 IH2|r1 IH1 r2 IH2|r1 IH1|i r1 IH1|];
    intros pos s cs k x H; cbn [go] in H.
  - now exists pos, s, cs.
  - destruct s as [|y s']; [discriminate|].
    destruct (N.eqb y c); [|discriminate].
    exists (S pos), s', cs. split; [lia | assumption].
  - destruct s as [|y s']; [discriminate|].
    destruct (p y); [|discriminate].
    exists (S pos), s', cs. split; [lia | assumption].
  - apply IH1 in H as (p1 & s1 & c1 & Hle1 & H).
    apply IH2 in H as (p2 & s2 & c2 & Hle2 & H).
    exists p2, s2, c2. split; [lia | assumption].
  - destruct (go r1 pos s cs k) eqn:H1.
    + inversion H; subst. now apply IH1 in H1.
    + now apply IH2 in H.
  - remember (List.length s) as n eqn:Hn in H. clear Hn.
    revert pos s cs H. induction n as [|n IHn]; intros pos s cs H.
    + now exists pos, s, cs.
    + match type of H with
      | match ?g with _ => _ end = _ => destruct g eqn:H1
      end.
      * inversion H; subst.
        apply IH1 in H1 as (p1 & s1 & c1 & Hle1 & H1).
        destruct (Nat.ltb pos p1) eqn:Hlt; [|discriminate].
        apply IHn in H1 as (p2 & s2 & c2 & Hle2 & H1).
        exists p2, s2, c2. split; [lia | assumption].
      * now exists pos, s, cs.
  - apply IH1 in H as (p1 & s1 & c1 & Hle1 & H).
    now exists p1, s1, ((i, firstn (p1 - pos) s) :: c1).
  - destruct (Nat.eqb pos 0); [|discriminate]. now exists pos, s, cs.
Qed.

End MatcherFacts.

Section StarOfClass.

Variable A : Type.
Variable k : nat -> str -> caps -> option A.

Lemma go_star (r1 : re) (pos : nat) (s : str) (cs : caps) :
  go (Star r1) pos s cs k = star_run r1 k (List.length s) pos s cs.
Proof. reflexivity. Qed.

Variable p : N -> bool.





End StarOfClass.



(** The text of a match of a pattern that starts with a given character
    starts with that character. *)
Lemma match_at_first (c : N) (r : re) (pos : nat) (s : str) (m : rmatch) :
  match_at (Seq (Chr c) r) pos s = Some m ->
  exists t, m_text m = c :: t.
Proof.
  unfold match_at. cbn [go]. destruct s as [|y s']; [discriminate|].
  destruct (N.eqb y c) eqn:Hy; [|discriminate]. apply N.eqb_eq in Hy. subst y.
  intros H. apply go_advances in H as (p1 & s1 & c1 & Hle & H).
  inversion H; subst. cbn [m_text].
  destruct (p1 - pos)%nat as [|d] eqn:Hd; [lia|].
  now exists (firstn d s').
Qed.

Lemma search_from_first (c : N) (r : re) (s : str) :
  forall pos m,
    search_from (Seq (Chr c) r) pos s = Some m ->
    exists t, m_text m = c :: t.
Proof.
  induction s as [|y s IH]; intros pos m H; cbn [search_from] in H.
  - destruct (match_at (Seq (Chr c) r) pos []) eqn:Hm; [|discriminate].
    inversion H; subst. now apply match_at_first in Hm.
  - destruct (match_at (Seq (Chr c) r) pos (y :: s)) eqn:Hm.
    + inversion H; subst. now apply match_at_first in Hm.
    + now apply IH in H.
Qed.

(** The members of an object decode to an object. *)
Lemma parse_members_object (fuel : nat) :
  forall depth s acc v r,
    parse_members fuel depth s acc = Ok (v, r) -> exists d, v = JObject d.
Proof.
  induction fuel as [|f IH]; intros depth s acc v r H; [discriminate|].
  cbn [parse_members] in H.
  destruct s as [|c s']; [discriminate|].
  destruct (negb (c =? 34)%N); [discriminate|].
  destruct (scan_string s') as [[k r1]|e]; [|discriminate].
  destruct (skip_ws r1) as [|c2 r2]; [discriminate|].
  destruct (negb (c2 =? 58)%N); [discriminate|].
  destruct (scan_once f depth (skip_ws r2)) as [[v' r3]|e]; [|discriminate].
  cbn zeta in H.
  destruct (skip_ws r3) as [|c4 r4]; [discriminate|].
  destruct (c4 =? 125)%N.
  - inversion H; subst. now eexists.
  - destruct (c4 =? 44)%N; [|discriminate]. now apply IH in H.
Qed.

(** A text that starts with an opening brace decodes to a [dict]. *)
Lemma loads_brace_object (depth : nat) (t : str) (v : json) :
  loads depth (123 :: t) = Ok v -> exists d, v = JObject d.
Proof.
  unfold loads. change (skip_ws (123 :: t)) with (123 :: t).
  remember (2 * List.length (123%N :: t) + 2)%nat as fuel eqn:Hfuel.
  destruct fuel as [|f]; [discriminate|].
  cbn [scan_once].
  change (123 =? 34)%N with false. change (123 =? 123)%N with true. cbv iota.
  destruct depth as [|d]; [discriminate|].
  destruct (skip_ws t) as [|c' r'] eqn:Ht; [discriminate|].
  destruct (c' =? 125)%N.
  - destruct (skip_ws r'); [|discriminate]. intros H; inversion H. now eexists.
  - destruct (parse_members _ _ (c' :: r') []) as [[v' r]|e] eqn:Hm; [|discriminate].
    destruct (skip_ws r); [|discriminate]. intros H; inversion H; subst.
    now apply parse_members_object in Hm.
Qed.

Section CaptureFacts.

Variable A : Type.

(** In a pattern whose groups all start with an opening brace, every
    capture starts with one; and a pattern that must start with a
    character consumes it. *)
Lemma go_captures (r : re) :
  brace_groups r = true ->
  forall pos s cs (k : nat -> str -> caps -> option A) x,
    go r pos s cs k = Some x ->
    brace_caps cs ->
    exists pos' s' cs',
      (pos <= pos')%nat /\ brace_caps cs' /\ k pos' s' cs' = Some x /\
      (forall c, first_chr r = Some c ->
                 (pos < pos')%nat /\ exists s0, s = c :: s0).
Proof.
  induction r as [|c|p|r1 IH1 r2 IH2|r1 IH1 r2 IH2|r1 IH1|i r1 IH1|];
    intros Hb pos s cs k x H Hcs; cbn [go] in H; cbn [brace_groups] in Hb.
  - exists pos, s, cs.
    split; [lia | split; [assumption | split; [assumption | discriminate]]].
  - destruct s as [|y s']; [discriminate|].
    destruct (N.eqb y c) eqn:Hy; [|discriminate]. apply N.eqb_eq in Hy. subst y.
    exists (S pos), s', cs.
    split; [lia | split; [assumption | split; [assumption |]]].
    intros c0 Hc0. inversion Hc0; subst. split; [lia | now exists s'].
  - destruct s as [|y s']; [discriminate|].
    destruct (p y); [|discriminate].
    exists (S pos), s', cs.
    split; [lia | split; [assumption | split; [assumption | discriminate]]].
  - apply andb_true_iff in Hb as [Hb1 Hb2].
    apply (IH1 Hb1) in H as (p1 & s1 & c1 & Hle1 & Hc1 & H & Hf1); [|assumption].
    apply (IH2 Hb2) in H as (p2 & s2 & c2 & Hle2 & Hc2 & H & _); [|assumption].
    exists p2, s2, c2.
    split; [lia | split; [assumption | split; [assumption |]]].
    intros c0 Hc0. cbn [first_chr] in Hc0. destruct (Hf1 c0 Hc0) as [Hlt Hs].
    split; [lia | exact Hs].
  - apply andb_true_iff in Hb as [Hb1 Hb2].
    destruct (go r1 pos s cs k) eqn:H1.
    + inversion H; subst.
      apply (IH1 Hb1) in H1 as (p1 & s1 & c1 & Hle1 & Hc1 & H1 & _); [|assumption].
      exists p1, s1, c1.
      split; [lia | split; [assumption | split; [assumption | discriminate]]].
    + apply (IH2 Hb2) in H as (p2 & s2 & c2 & Hle2 & Hc2 & H & _); [|assumption].
      exists p2, s2, c2.
      split; [lia | split; [assumption | split; [assumption | discriminate]]].
  - assert (Hstar : exists pos' s' cs',
               (pos <= pos')%nat /\ brace_caps cs' /\ k pos' s' cs' = Some x).
    { remember (List.length s) as n eqn:Hn in H. clear Hn.
      revert pos s cs H Hcs. induction n as [|n IHn]; intros pos s cs H Hcs.
      - exists pos, s, cs. split; [lia | split; assumption].
      - match type of H with
        | match ?g with _ => _ end = _ => destruct g eqn:H1
        end.
        + inversion H; subst.
          apply (IH1 Hb) in H1 as (p1 & s1 & c1 & Hle1 & Hc1 & H1 & _);
            [|assumption].
          destruct (Nat.ltb pos p1) eqn:Hlt; [|discriminate].
          apply IHn in H1 as (p2 & s2 & c2 & Hle2 & Hc2 & H1); [|assumption].
          exists p2, s2, c2. split; [lia | split; assumption].
        + exists pos, s, cs. split; [lia | split; assumption]. }
    destruct Hstar as (p2 & s2 & c2 & Hle & Hc & Hk).
    exists p2, s2, c2.
    split; [lia | split; [assumption | split; [assumption | discriminate]]].
  - destruct (first_chr r1) as [c|] eqn:Hf; [|discriminate].
    apply andb_true_iff in Hb as [Hc Hb1]. apply N.eqb_eq in Hc. subst c.
    apply (IH1 Hb1) in H as (p1 & s1 & c1 & Hle1 & Hc1 & H & Hf1); [|assumption].
    destruct (Hf1 _ eq_refl) as [Hlt (s0 & Hs)].
    exists p1, s1, ((i, firstn (p1 - pos) s) :: c1).
    split; [lia | split; [| split; [assumption |]]].
    + constructor; [|assumption]. cbn [snd]. subst s.
      destruct (p1 - pos)%nat as [|d] eqn:Hd; [lia|]. now eexists.
    + intros c0 Hc0. cbn [first_chr] in Hc0. rewrite Hf in Hc0.
      inversion Hc0; subst. split; [lia | now exists s0].
  - destruct (Nat.eqb pos 0); [|discriminate].
    exists pos, s, cs.
    split; [lia | split; [assumption | split; [assumption | discriminate]]].
Qed.

End CaptureFacts.

Lemma search_from_captures (r : re) (s : str) :
  brace_groups r = true ->
  forall pos m, search_from r pos s = Some m -> brace_caps (m_caps m).
Proof.
  intros Hb.
  assert (Hat : forall pos s m, match_at r pos s = Some m -> brace_caps (m_caps m)).
  { intros pos s0 m H. unfold match_at in H.
    apply (go_captures r Hb) in H as (p1 & s1 & c1 & _ & Hc & H & _);
      [|constructor].
    now inversion H; subst. }
  induction s as [|y s IH]; intros pos m H; cbn [search_from] in H.
  - destruct (match_at r pos []) eqn:Hm; [|discriminate].
    inversion H; subst. now apply Hat in Hm.
  - destruct (match_at r pos (y :: s)) eqn:Hm.
    + inversion H; subst. now apply Hat in Hm.
    + now apply IH in H.
Qed.

Lemma finditer_captures (r : re) :
  brace_groups r = true ->
  forall fuel pos s,
    Forall (fun m => brace_caps (m_caps m)) (finditer_from fuel r pos s).
Proof.
  intros Hb. induction fuel as [|f IH]; intros pos s; cbn [finditer_from];
    [constructor|].
  destruct (search_from r pos s) as [m|] eqn:Hs; [|constructor].
  constructor; [now apply search_from_captures in Hs|].
  destruct (Nat.ltb (m_start m) (m_end m)); [apply IH|].
  destruct (m_rest m); [constructor | apply IH].
Qed.

(** A group of such a match is empty (it took no part) or starts with an
    opening brace. *)
Lemma group_brace (i : nat) (cs : caps) :
  brace_caps cs -> group i cs = [] \/ exists t, group i cs = 123%N :: t.
Proof.
  induction cs as [|[j t] cs IH]; intros H; cbn [group]; [now left|].
  inversion H as [|? ? Ht Hcs]; subst.
  destruct (Nat.eqb i j); [right; exact Ht | now apply IH].
Qed.

Lemma lstrip_keeps_last (c : N) (a : str) :
  isspace c = false -> exists a', lstrip (a ++ [c]) = a' ++ [c].
Proof.
  intros Hc. induction a as [|x a IH]; cbn [app lstrip].
  - rewrite Hc. now exists [].
  - destruct (isspace x); [exact IH | now exists (x :: a)].
Qed.

(** Trimming keeps an opening brace at the head. *)
Lemma strip_brace (t : str) : exists t', strip (123%N :: t) = 123%N :: t'.
Proof.
  unfold strip, rstrip. change (lstrip (123%N :: t)) with (123%N :: t).
  cbn [rev]. destruct (@lstrip_keeps_last 123%N (rev t) eq_refl) as (a' & ->).
  rewrite rev_app_distr. now exists (rev a').
Qed.

(** What a match of one of the five patterns decodes to is a [dict]; this
    is what [as_dict] relies on. *)
Lemma decoded_match_is_dict (depth : nat) (content m : str) (v : json) :
  In m (findall1 pattern1 content)
  \/ In m (List.concat (findall_groups 4 pattern2 content))
  \/ In m (findall1 pattern3 content)
  \/ In m (findall1 pattern4 content)
  \/ In m (findall1 pattern5 content) ->
  loads depth (strip m) = Ok v ->
  exists d, v = JObject d.
Proof.
  intros Hin Hl.
  assert (Hm : m = [] \/ exists t, m = 123%N :: t).
  { assert (H1 : forall r, brace_groups r = true ->
                   In m (findall1 r content) -> m = [] \/ exists t, m = 123%N :: t).
    { intros r Hb H. unfold findall1 in H. apply in_map_iff in H as (x & <- & Hx).
      apply group_brace.
      pose proof (finditer_captures r Hb (S (List.length content)) 0 content) as Hall.
      rewrite Forall_forall in Hall. now apply Hall. }
    destruct Hin as [H | [H | [H | [H | H]]]];
      [ apply (H1 pattern1 eq_refl H) | | apply (H1 pattern3 eq_refl H)
      | apply (H1 pattern4 eq_refl H) | apply (H1 pattern5 eq_refl H) ].
    apply in_concat in H as (tup & Htup & Hm).
    unfold findall_groups in Htup. apply in_map_iff in Htup as (x & <- & Hx).
    apply in_map_iff in Hm as (i & <- & _).
    apply group_brace.
    pose proof (finditer_captures pattern2 eq_refl (S (List.length content)) 0 content)
      as Hall.
    rewrite Forall_forall in Hall. now apply Hall. }
  destruct Hm as [-> | (t & ->)].
  - discriminate.
  - destruct (strip_brace t) as (t' & Ht). rewrite Ht in Hl.
    now apply loads_brace_object in Hl.
Qed.


(* ================================================================== *)
(** ** Properties of the execution stages *)
(* ================================================================== *)

Section BatchFacts.

Variable W : Type.
Variable E : Externals W.

Lemma outcomes_length (calls : list dict) :
  forall w, List.length (outcomes E calls w) = List.length calls.
Proof.
  induction calls as [|c rest IH]; intros w; cbn [outcomes]; [reflexivity|].
  destruct (find_tool (call_name c)) as [tool|].
  - destruct (tool_func E tool (call_args c) w) as [w' r]. cbn. now rewrite IH.
  - cbn. now rewrite IH.
Qed.

Lemma entries_length (calls : list dict) (os : list (option (may_raise str))) :
  List.length os = List.length calls ->
  List.length (entries E calls os) = List.length calls.
Proof.
  intros H. unfold entries. rewrite length_map, length_combine, H.
  apply Nat.min_id.
Qed.

Lemma entries_nth (calls : list dict) :
  forall os i call o,
    nth_error calls i = Some call ->
    nth_error os i = Some o ->
    nth_error (entries E calls os) i = Some (entry E call o).
Proof.
  induction calls as [|c rest IH]; intros os i call o Hc Ho.
  - destruct i; discriminate.
  - destruct os as [|o' os']; [destruct i; discriminate|].
    destruct i as [|i]; cbn in *.
    + now inversion Hc; inversion Ho.
    + now apply IH.
Qed.

Lemma last_write_app (a b : list (option status)) (init : status) :
  last_write (a ++ b) init = last_write b (last_write a init).
Proof. unfold last_write. now rewrite fold_left_app. Qed.

Lemma last_write_cons (x : option status) (l : list (option status)) (init : status) :
  last_write (x :: l) init =
    last_write l (match x with Some s => s | None => init end).
Proof. reflexivity. Qed.

Lemma last_write_quiet (l : list (option status)) :
  forall init, Forall (fun w => w = None) l -> last_write l init = init.
Proof.
  induction l as [|x l IH]; intros init H; [reflexivity|].
  inversion H as [|? ? Hx Hl]; subst. cbn. now apply IH.
Qed.

Lemma last_write_no_param_missing (l : list (option status)) :
  forall init,
    init = tool_error ->
    Forall (fun w => w = None \/ w = Some tool_error) l ->
    last_write l init = tool_error.
Proof.
  induction l as [|x l IH]; intros init Hi H; [exact Hi|].
  inversion H as [|? ? Hx Hl]; subst. cbn.
  destruct Hx as [-> | ->]; now apply IH.
Qed.

(** The loop of [tools_node]: one entry per call, each made from that
    call's own outcome, and the status left by the last call that wrote
    one. *)
Lemma tools_loop_spec (calls : list dict) :
  forall w b,
    let b' := snd (tools_loop E calls w b) in
    b_results b' = b_results b ++ entries E calls (outcomes E calls w) /\
    b_tool_execution_results b' =
      b_tool_execution_results b ++ entries E calls (outcomes E calls w) /\
    b_validation_status b' =
      last_write (List.map status_write (outcomes E calls w)) (b_validation_status b).
Proof.
  induction calls as [|c rest IH]; intros w b; cbn [tools_loop outcomes].
  - cbn. now rewrite !app_nil_r.
  - unfold tools_step.
    destruct (find_tool (call_name c)) as [tool|].
    + destruct (tool_func E tool (call_args c) w) as [w' [r|e]];
        specialize (IH w'); cbn zeta in IH.
      * match goal with |- context [tools_loop E rest w' ?b0] =>
          destruct (IH b0) as (H1 & H2 & H3) end.
        cbn zeta. rewrite H1, H2, H3. cbn [b_results b_tool_execution_results
          b_validation_status entries combine List.map fst snd entry status_write last_write fold_left].
        rewrite <- !app_assoc. cbn [app].
        repeat split; try reflexivity.
        destruct (has_error_keyword r); reflexivity.
      * match goal with |- context [tools_loop E rest w' ?b0] =>
          destruct (IH b0) as (H1 & H2 & H3) end.
        cbn zeta. rewrite H1, H2, H3. cbn [b_results b_tool_execution_results
          b_validation_status entries combine List.map fst snd entry status_write last_write fold_left].
        rewrite <- !app_assoc. cbn [app]. repeat split; reflexivity.
    + specialize (IH w); cbn zeta in IH.
      match goal with |- context [tools_loop E rest w ?b0] =>
        destruct (IH b0) as (H1 & H2 & H3) end.
      cbn zeta. rewrite H1, H2, H3. cbn [b_results b_tool_execution_results
        b_validation_status entries combine List.map fst snd entry status_write last_write fold_left].
      rewrite <- !app_assoc. cbn [app]. repeat split; reflexivity.
Qed.


Lemma sql_outcomes_length (q : str) (calls : list dict) :
  forall w, List.length (sql_outcomes E q calls w) = List.length calls.
Proof.
  induction calls as [|c rest IH]; intros w; cbn [sql_outcomes]; [reflexivity|].
  destruct (execute_text2sql E _ w) as [w' r]. cbn. now rewrite IH.
Qed.

(** The loop of [text2sql_node]. *)
Lemma text2sql_loop_spec (q : str) (calls : list dict) :
  forall w b,
    let b' := snd (text2sql_loop E q calls w b) in
    b_results b' = b_results b ++ List.map sql_entry (sql_outcomes E q calls w) /\
    b_tool_execution_results b' =
      b_tool_execution_results b ++ List.map sql_entry (sql_outcomes E q calls w) /\
    b_validation_status b' =
      (if forallb is_ok (sql_outcomes E q calls w) then b_validation_status b
       else tool_error).
Proof.
  induction calls as [|c rest IH]; intros w b; cbn [text2sql_loop sql_outcomes].
  - cbn. now rewrite !app_nil_r.
  - unfold text2sql_step.
    destruct (execute_text2sql E _ w) as [w' [r|e]];
      specialize (IH w'); cbn zeta in IH;
      match goal with |- context [text2sql_loop E q rest w' ?b0] =>
        destruct (IH b0) as (H1 & H2 & H3) end;
      cbn zeta; rewrite H1, H2, H3;
      cbn [b_results b_tool_execution_results b_validation_status List.map
           sql_entry forallb is_ok andb];
      rewrite <- !app_assoc; cbn [app]; repeat split; try reflexivity.
    now destruct (forallb is_ok (sql_outcomes E q rest w')).
Qed.

(** The state that [tools_node] returns for a non-empty batch. *)
Lemma tools_node_batch (w : W) (st : StockSearchState) :
  List.filter is_regular (tool_calls st) <> [] ->
  snd (tools_node E w st) =
    write_batch (snd (tools_loop E (List.filter is_regular (tool_calls st)) w
                        (start_batch st))) st /\
  fst (tools_node E w st) =
    fst (tools_loop E (List.filter is_regular (tool_calls st)) w (start_batch st)).
Proof.
  intros H. unfold tools_node.
  destruct (List.filter is_regular (tool_calls st)) as [|c rest] eqn:Hf; [congruence|].
  destruct (tools_loop E (c :: rest) w (start_batch st)) as [w' b]. now split.
Qed.

Lemma text2sql_node_batch (w : W) (st : StockSearchState) :
  List.filter is_text2sql_call (tool_calls st) <> [] ->
  snd (text2sql_node E w st) =
    write_batch (snd (text2sql_loop E (query st)
                        (List.filter is_text2sql_call (tool_calls st)) w
                        (start_batch st))) st /\
  fst (text2sql_node E w st) =
    fst (text2sql_loop E (query st)
           (List.filter is_text2sql_call (tool_calls st)) w (start_batch st)).
Proof.
  intros H. unfold text2sql_node.
  destruct (List.filter is_text2sql_call (tool_calls st)) as [|c rest] eqn:Hf;
    [congruence|].
  destruct (text2sql_loop E (query st) (c :: rest) w (start_batch st)) as [w' b].
  now split.
Qed.

(** The status that [text2sql_node] writes. *)
Lemma text2sql_node_status (w : W) (st : StockSearchState) :
  validation_status (snd (text2sql_node E w st)) = success \/
  validation_status (snd (text2sql_node E w st)) = tool_error.
Proof.
  destruct (List.filter is_text2sql_call (tool_calls st)) as [|c rest] eqn:Hf.
  - unfold text2sql_node. rewrite Hf. now left.
  - destruct (text2sql_node_batch w st) as [Hs _]; [rewrite Hf; discriminate|].
    rewrite Hs.
    destruct (text2sql_loop_spec (query st)
               (List.filter is_text2sql_call (tool_calls st)) w (start_batch st))
      as (_ & _ & H3).
    cbn [write_batch with_tool_execution_results with_tool_results
         with_validation_status validation_status].
    rewrite H3. cbn [start_batch b_validation_status].
    destruct (forallb _ _); [now left | now right].
Qed.

End BatchFacts.


(* ================================================================== *)
(** ** Properties of the call parser *)
(* ================================================================== *)

Section ParserFacts.

Variable depth : nat.
Variable json_dumps : json -> str.
Variable py_repr : json -> str.

Lemma identifier_hashable (call : dict) :
  hashable (fst (identifier call)) = true ->
  hashable (snd (identifier call)) = true ->
  hashable_call call.
Proof.
  unfold identifier, hashable_call, call_name, call_args. cbn [fst snd].
  destruct (dict_get k_name call), (dict_get k_args call); auto.
Qed.

(** The de-duplication returns only calls whose identifier it hashed. *)
Lemma dedup_hashable (tool_calls : list dict) :
  forall seen acc out,
    dedup tool_calls seen acc = Ok out ->
    Forall hashable_call acc ->
    Forall hashable_call out.
Proof.
  induction tool_calls as [|c rest IH]; intros seen acc out H Hacc;
    cbn [dedup] in H.
  - now inversion H; subst.
  - destruct (hashable (fst (identifier c))) eqn:H1; cbn [negb] in H; [|discriminate].
    destruct (hashable (snd (identifier c))) eqn:H2; cbn [negb] in H; [|discriminate].
    destruct (existsb _ seen).
    + eapply IH; eassumption.
    + eapply IH; [eassumption|].
      apply Forall_app. split; [assumption|].
      constructor; [|constructor]. now apply identifier_hashable.
Qed.

Lemma parsed_calls_hashable (content : str) (calls : list dict) :
  _parse_tool_calls depth json_dumps py_repr content = Ok calls ->
  Forall hashable_call calls.
Proof.
  unfold _parse_tool_calls.
  destruct (collect depth json_dumps py_repr content) as [tcs|e]; cbn [bind];
    [|discriminate].
  intros H. eapply dedup_hashable; [eassumption | constructor].
Qed.

End ParserFacts.


Lemma str_eqb_eq (a : str) : forall b, str_eqb a b = true -> a = b.
Proof.
  induction a as [|x a IH]; intros [|y b] H; cbn in H; try discriminate.
  - reflexivity.
  - apply andb_true_iff in H as [Hx Hab]. apply N.eqb_eq in Hx.
    now rewrite Hx, (IH b Hab).
Qed.

Lemma str_eqb_refl (a : str) : str_eqb a a = true.
Proof.
  induction a as [|x a IH]; [reflexivity|]. cbn. now rewrite N.eqb_refl, IH.
Qed.


Lemma dict_get_set_same (k : str) (v : json) (m : dict) :
  dict_get k (dict_set k v m) = Some v.
Proof.
  induction m as [|[k' v'] m IH]; cbn [dict_set dict_get].
  - now rewrite str_eqb_refl.
  - destruct (str_eqb k k') eqn:Hk; cbn [dict_get]; rewrite Hk; [reflexivity | exact IH].
Qed.

Lemma dict_get_set_other (k1 k2 : str) (v : json) (m : dict) :
  str_eqb k1 k2 = false ->
  dict_get k1 (dict_set k2 v m) = dict_get k1 m.
Proof.
  intros Hne. induction m as [|[k' v'] m IH]; cbn [dict_set dict_get].
  - now rewrite Hne.
  - destruct (str_eqb k2 k') eqn:Hk; cbn [dict_get].
    + apply str_eqb_eq in Hk. subst k'. now rewrite Hne.
    + destruct (str_eqb k1 k'); [reflexivity | exact IH].
Qed.

(** What [json.loads] raises. *)
Lemma scan_number_raises (s : str) (e : exn) :
  scan_number s = Raise e -> e = JSONDecodeError \/ exists msg, e = ValueError msg.
Proof.
  unfold scan_number.
  destruct (match s with 45%N :: r => (true, r) | _ => (false, s) end) as [neg s1].
  destruct s1 as [|c r]; [intros H; inversion H; now left|].
  destruct (negb (is_digit c)); [intros H; inversion H; now left|].
  destruct (if (c =? 48)%N then ([c], r) else take_digits (c :: r) []) as [ip s2].
  destruct (match s2 with
            | 46%N :: d :: r' =>
                if is_digit d then take_digits (d :: r') [] else ([], s2)
            | _ => ([], s2)
            end) as [fp s3].
  match goal with |- (let '(ep, s4) := ?x in _) = _ -> _ => destruct x as [ep s4] end.
  destruct fp as [|d fp]; [|discriminate].
  destruct ep as [x|]; [discriminate|].
  destruct (Nat.ltb int_max_str_digits (List.length ip)); [|discriminate].
  intros H; inversion H. right. now eexists.
Qed.

Section PassFacts.

Variable depth : nat.
Variable json_dumps : json -> str.
Variable py_repr : json -> str.

(** A match whose body raises a decode error is dropped and the loop goes
    on with the matches after it. *)
Lemma for_each_skips (body : str -> may_raise (list dict)) (m : str)
      (rest : list str) (acc : list dict) :
  body m = Raise JSONDecodeError ->
  for_each body (m :: rest) acc = for_each body rest acc.
Proof. intros H. cbn [for_each]. rewrite H. cbn [except_JSONDecodeError bind]. now rewrite app_nil_r. Qed.

(** A match whose body returns records has them appended. *)
Lemma for_each_appends (body : str -> may_raise (list dict)) (m : str)
      (rest : list str) (acc new : list dict) :
  body m = Ok new ->
  for_each body (m :: rest) acc = for_each body rest (acc ++ new).
Proof. intros H. cbn [for_each]. rewrite H. reflexivity. Qed.

(** Any other exception of a body ends the loop, and the parser with it. *)
Lemma for_each_raises (body : str -> may_raise (list dict)) (m : str)
      (rest : list str) (acc : list dict) (e : exn) :
  body m = Raise e -> e <> JSONDecodeError ->
  for_each body (m :: rest) acc = Raise e.
Proof.
  intros H Hne. cbn [for_each]. rewrite H.
  destruct e; try reflexivity. now elim Hne.
Qed.

(** What a loop that returns has appended is what its body built. *)
Lemma for_each_keeps (P : dict -> Prop) (body : str -> may_raise (list dict)) :
  (forall m new, body m = Ok new -> Forall P new) ->
  forall matches acc out,
    for_each body matches acc = Ok out ->
    Forall P acc -> Forall P out.
Proof.
  intros Hbody. induction matches as [|m rest IH]; intros acc out H Hacc.
  - cbn [for_each] in H. now inversion H; subst.
  - cbn [for_each] in H. destruct (body m) as [new|e] eqn:Hm.
    + cbn [except_JSONDecodeError bind] in H. eapply IH; [exact H|].
      apply Forall_app. split; [assumption | now apply (Hbody m)].
    + destruct e; cbn [except_JSONDecodeError bind] in H; try discriminate.
      eapply IH; [exact H|]. now rewrite app_nil_r.
Qed.

Lemma flatten_args_well_formed (d : dict) :
  well_formed d -> well_formed (flatten_args py_repr d).
Proof.
  unfold well_formed, has_name_args, dict_has, flatten_args.
  intros H. apply andb_true_iff in H as [Hn Ha].
  assert (Hset : forall v,
             match dict_get k_name (dict_set k_args v d) with
             | Some _ => true | None => false end
             && match dict_get k_args (dict_set k_args v d) with
                | Some _ => true | None => false end = true).
  { intros v. rewrite dict_get_set_same, dict_get_set_other by reflexivity.
    now rewrite Hn. }
  destruct (dict_get k_args d) as [[| | | | | |args_dict]|] eqn:Hargs;
    try (now rewrite Hn, Hargs).
  destruct (dict_get (u "종목명") args_dict), (dict_get (u "날짜") args_dict);
    apply Hset.
Qed.

Lemma body1_well_formed (m : str) (new : list dict) :
  body1 depth m = Ok new -> Forall well_formed new.
Proof.
  unfold body1. destruct (loads depth (strip m)) as [v|e]; cbn [bind]; [|discriminate].
  destruct (has_name_args (as_dict v)) eqn:H; intros Hn; inversion Hn; subst;
    repeat constructor. exact H.
Qed.

Lemma body2_well_formed (m : str) (new : list dict) :
  body2 depth json_dumps m = Ok new -> Forall well_formed new.
Proof.
  unfold body2. destruct (nonempty m); [|intros H; inversion H; constructor].
  destruct (loads depth (strip m)) as [v|e]; cbn [bind]; [|discriminate].
  destruct (is_text2sql_action (as_dict v)).
  - intros Hn; inversion Hn; subst. repeat constructor.
  - destruct (has_name_args (as_dict v)) eqn:H; intros Hn; inversion Hn; subst;
      repeat constructor. exact H.
Qed.

Lemma body3_well_formed (m : str) (new : list dict) :
  body3 depth json_dumps m = Ok new -> Forall well_formed new.
Proof.
  unfold body3. destruct (loads depth (strip m)) as [v|e]; cbn [bind]; [|discriminate].
  destruct (is_text2sql_action (as_dict v)); intros Hn; inversion Hn; subst;
    repeat constructor.
Qed.

Lemma body4_well_formed (m : str) (new : list dict) :
  body4 depth py_repr m = Ok new -> Forall well_formed new.
Proof.
  unfold body4. destruct (loads depth (strip m)) as [v|e]; cbn [bind]; [|discriminate].
  destruct (has_name_args (as_dict v)) eqn:H; intros Hn; inversion Hn; subst;
    repeat constructor. now apply flatten_args_well_formed.
Qed.

(** Every record that the five passes collect has a name and an args. *)
Lemma collect_well_formed (content : str) (tool_calls : list dict) :
  collect depth json_dumps py_repr content = Ok tool_calls ->
  Forall well_formed tool_calls.
Proof.
  unfold collect. cbv zeta. intros H.
  destruct (for_each (body1 depth) (findall1 pattern1 content) []) as [t1|e] eqn:H1;
    cbn [bind] in H; [|discriminate].
  destruct (for_each (body2 depth json_dumps)
              (List.concat (findall_groups 4 pattern2 content)) t1) as [t2|e] eqn:H2;
    cbn [bind] in H; [|discriminate].
  destruct (for_each (body3 depth json_dumps) (findall1 pattern3 content) t2)
    as [t3|e] eqn:H3; cbn [bind] in H; [|discriminate].
  destruct (for_each (body4 depth py_repr) (findall1 pattern4 content) t3)
    as [t4|e] eqn:H4; cbn [bind] in H; [|discriminate].
  apply (@for_each_keeps well_formed _ body1_well_formed) in H1; [|constructor].
  apply (@for_each_keeps well_formed _ body2_well_formed) in H2; [|assumption].
  apply (@for_each_keeps well_formed _ body3_well_formed) in H3; [|assumption].
  apply (@for_each_keeps well_formed _ body4_well_formed) in H4; [|assumption].
  now apply (@for_each_keeps well_formed _ body3_well_formed) in H.
Qed.

(** One iteration of the de-duplication loop. *)
Lemma dedup_step (call : dict) (rest : list dict) (seen : list (json * json))
      (acc : list dict) :
  dedup (call :: rest) seen acc =
    (let id := identifier call in
     if negb (hashable (fst id)) then Raise (unhashable (fst id))
     else if negb (hashable (snd id)) then Raise (unhashable (snd id))
     else if existsb (identifier_eqb id) seen then dedup rest seen acc
     else dedup rest (id :: seen) (acc ++ [call])).
Proof. reflexivity. Qed.

Lemma dedup_keeps (P : dict -> Prop) (tool_calls : list dict) :
  forall seen acc out,
    dedup tool_calls seen acc = Ok out ->
    Forall P tool_calls -> Forall P acc -> Forall P out.
Proof.
  induction tool_calls as [|c rest IH]; intros seen acc out H Hall Hacc;
    cbn [dedup] in H.
  - now inversion H; subst.
  - inversion Hall as [|? ? Hc Hrest]; subst.
    destruct (negb (hashable (fst (identifier c)))); [discriminate|].
    destruct (negb (hashable (snd (identifier c)))); [discriminate|].
    destruct (existsb _ seen).
    + eapply IH; eassumption.
    + eapply IH; [eassumption | assumption |].
      apply Forall_app. split; [assumption | now constructor].
Qed.

Lemma unhashable_is_TypeError (v : json) : exists msg, unhashable v = TypeError msg.
Proof. destruct v; eexists; reflexivity. Qed.

(** What the de-duplication raises is a [TypeError]. *)
Lemma dedup_raises (tool_calls : list dict) :
  forall seen acc e,
    dedup tool_calls seen acc = Raise e -> exists msg, e = TypeError msg.
Proof.
  induction tool_calls as [|c rest IH]; intros seen acc e H.
  - discriminate.
  - change (dedup (c :: rest) seen acc) with
      (let id := identifier c in
       if negb (hashable (fst id)) then Raise (unhashable (fst id))
       else if negb (hashable (snd id)) then Raise (unhashable (snd id))
       else if existsb (identifier_eqb id) seen then dedup rest seen acc
       else dedup rest (id :: seen) (acc ++ [c])) in H.
    cbv zeta in H.
    destruct (negb (hashable (fst (identifier c)))).
    { injection H as <-. apply unhashable_is_TypeError. }
    destruct (negb (hashable (snd (identifier c)))).
    { injection H as <-. apply unhashable_is_TypeError. }
    destruct (existsb _ seen); eapply IH; eassumption.
Qed.

End PassFacts.


Section DedupFacts.

(** The de-duplication raises as soon as it meets a record that it cannot
    hash. *)
Lemma dedup_unhashable (tool_calls : list dict) :
  forall seen acc,
    Exists unhashable_call tool_calls ->
    exists msg, dedup tool_calls seen acc = Raise (TypeError msg).
Proof.
  induction tool_calls as [|c rest IH]; intros seen acc Hex.
  - inversion Hex.
  - rewrite dedup_step. cbv zeta.
    destruct (hashable (fst (identifier c))) eqn:H1; cbn [negb];
      [|destruct (unhashable_is_TypeError (fst (identifier c))) as (msg & ->);
        now exists msg].
    destruct (hashable (snd (identifier c))) eqn:H2; cbn [negb];
      [|destruct (unhashable_is_TypeError (snd (identifier c))) as (msg & ->);
        now exists msg].
    assert (Hrest : Exists unhashable_call rest).
    { inversion Hex as [? ? [H|H]|]; subst; [congruence | congruence | assumption]. }
    destruct (existsb _ seen); now apply IH.
Qed.

(** And it returns when it can hash every record. *)
Lemma dedup_returns (tool_calls : list dict) :
  forall seen acc out,
    dedup tool_calls seen acc = Ok out -> ~ Exists unhashable_call tool_calls.
Proof.
  intros seen acc out H Hex.
  destruct (dedup_unhashable seen acc Hex) as (msg & Hr). congruence.
Qed.

End DedupFacts.

(** C1, at the input on which it fails.  A labelled call whose args is a
    JSON object is kept by the first pass as it is decoded, and the
    de-duplication that follows cannot hash it: the parser raises
    [TypeError].  In general, when the five passes return, the parser
    raises [TypeError] exactly when one of the records they collected has
    a list or a dict as its name or as its args.  What holds of the claim
    is that a match that does not decode is dropped and the matches after
    it are still processed; any other exception of the decoder leaves the
    loop and the parser. *)
Theorem C1_parser_raises_on_object_args :
  forall (depth : nat) (json_dumps py_repr : json -> str),
    ((2 <= depth)%nat ->
     _parse_tool_calls depth json_dumps py_repr
       (qq "TOOL_CALL: {'name': 'get_stock_price', 'args': {'종목명': '삼성전자', '날짜': '2024-11-06'}}")
     = Raise (TypeError (u "unhashable type: 'dict'"))) /\
    (forall content collected,
        collect depth json_dumps py_repr content = Ok collected ->
        (Exists unhashable_call collected <->
         exists msg,
           _parse_tool_calls depth json_dumps py_repr content = Raise (TypeError msg))) /\
    (forall m d,
        loads depth (strip m) = Ok (JObject d) -> has_name_args d = true ->
        body1 depth m = Ok [d]) /\
    (forall body m rest acc e,
        In body (passes depth json_dumps py_repr) -> m <> [] ->
        loads depth (strip m) = Raise e ->
        for_each body (m :: rest) acc =
          match e with
          | JSONDecodeError => for_each body rest acc
          | _ => Raise e
          end).
Proof.
  intros depth json_dumps py_repr. split; [|split; [|split]].
  - intros Hd. destruct depth as [|[|d]]; [lia | lia |]. vm_compute. reflexivity.
  - intros content collected Hc. unfold _parse_tool_calls. rewrite Hc. cbn [bind].
    split.
    + intros Hex. now apply dedup_unhashable.
    + intros (msg & Hr).
      destruct (dedup collected [] []) as [out|e] eqn:Hd; [discriminate|].
      clear Hr Hc. revert Hd. generalize (@nil (json * json)), (@nil dict).
      induction collected as [|c rest IH]; intros seen acc Hd; [discriminate|].
      rewrite dedup_step in Hd. cbv zeta in Hd.
      destruct (hashable (fst (identifier c))) eqn:H1; cbn [negb] in Hd;
        [|left; now left].
      destruct (hashable (snd (identifier c))) eqn:H2; cbn [negb] in Hd;
        [|left; now right].
      right. destruct (existsb _ seen); eapply IH; eassumption.
  - intros m d Hl Hn. unfold body1. rewrite Hl. cbn [bind as_dict]. now rewrite Hn.
  - intros body m rest acc e Hin Hm Hl.
    assert (Hb : body m = Raise e).
    { cbn [passes In] in Hin.
      destruct Hin as [<- | [<- | [<- | [<- | [<- | []]]]]];
        unfold body5, body4, body3, body2, body1; rewrite ?Hl; try reflexivity.
      destruct m; [congruence|]. reflexivity. }
    destruct e; try (apply for_each_raises; [exact Hb | discriminate]).
    now apply for_each_skips.
Qed.

(** What that exception does to a run: it escapes [parse_node] and the
    graph, and [search] answers with the error text. *)
Example object_args_reach_search :
  let reply :=
    qq "TOOL_CALL: {'name': 'get_stock_price', 'args': {'종목명': '삼성전자', '날짜': '2024-11-06'}}" in
  let E := Demo.externals (Ok reply) (Ok (u "final")) in
  snd (graph_invoke E tt (initial_state (u "삼성전자 시가"))) = [Agent_; Parse] /\
  snd (search E (u "삼성전자 시가") false tt)
    = Text (u "검색 중 오류 발생: unhashable type: 'dict'").
Proof. vm_compute. split; reflexivity. Qed.

(** C7 as the specification states it fails twice.  A labelled call whose args is a
    number is returned with that number as args, not a string; and the
    first pass keeps an object-valued args as an object. *)
Lemma C7_counterexample :
  (exists calls call,
      _parse_tool_calls Demo.depth Demo.show Demo.show
        (qq "TOOL_CALL: {'name': 'get_stock_price', 'args': 5}") = Ok calls /\
      In call calls /\ call_args call = JInt 5 /\ is_str (call_args call) = false) /\
  (exists call args_dict,
      body1 Demo.depth
            (qq "{'name': 'get_stock_price', 'args': {'종목명': '삼성전자', '날짜': '2024-11-06'}}")
        = Ok [call] /\
      call_args call = JObject args_dict /\ is_str (call_args call) = false).
Proof.
  split.
  - eexists. eexists. vm_compute. split; [reflexivity|].
    split; [left; reflexivity|]. split; reflexivity.
  - eexists. eexists. vm_compute. split; [reflexivity|]. split; reflexivity.
Qed.

(** C7, as the code has it.  A record that the parser returns has a name
    and an args, and its args is no object and no array: it is a string, or
    a number, a boolean or null kept as decoded.  The fourth pass turns a
    match that decodes to an object with a name and an object-valued args
    into one record, whose args is one string, made of the values of 종목명
    and 날짜 when the object has both and of the stringified object
    otherwise, every other key being kept; when the args is no object the
    record is the decoded object.  A pass that finds a text2sql action
    makes the record whose args is the serialized action.  So a bare object
    whose args is the object of 종목명 삼성전자 and 날짜 2024-11-06 is returned
    with one string that holds both values. *)
Theorem C7_args_flattening :
  forall (depth : nat) (json_dumps py_repr : json -> str),
    (forall content calls,
        _parse_tool_calls depth json_dumps py_repr content = Ok calls ->
        Forall (fun call =>
                  exists name args,
                    dict_get k_name call = Some name /\
                    dict_get k_args call = Some args /\
                    hashable args = true) calls) /\
    (forall m d args_dict,
        loads depth (strip m) = Ok (JObject d) ->
        dict_has k_name d = true ->
        dict_get k_args d = Some (JObject args_dict) ->
        exists call,
          body4 depth py_repr m = Ok [call] /\
          dict_get k_args call =
            Some (JString
                    match dict_get (u "종목명") args_dict, dict_get (u "날짜") args_dict with
                    | Some stock, Some date =>
                        py_str py_repr stock ++ u "의 " ++ py_str py_repr date
                          ++ u " 시가는?"
                    | _, _ => py_str py_repr (JObject args_dict)
                    end) /\
          (forall k, str_eqb k k_args = false -> dict_get k call = dict_get k d)) /\
    (forall m d args,
        loads depth (strip m) = Ok (JObject d) ->
        dict_has k_name d = true ->
        dict_get k_args d = Some args ->
        (forall args_dict, args <> JObject args_dict) ->
        body4 depth py_repr m = Ok [d]) /\
    (forall body m d,
        In body (directive_passes depth json_dumps) -> m <> [] ->
        loads depth (strip m) = Ok (JObject d) ->
        is_text2sql_action d = true ->
        body m = Ok [[(k_name, JString text2sql);
                      (k_args, JString (json_dumps (JObject d)))]]) /\
    ((2 <= depth)%nat ->
     _parse_tool_calls depth json_dumps py_repr
       (qq "{'name': 'get_stock_price', 'args': {'종목명': '삼성전자', '날짜': '2024-11-06'}}")
     = Ok [[(k_name, JString (u "get_stock_price"));
            (k_args, JString (u "삼성전자의 2024-11-06 시가는?"))]]).
Proof.
  intros depth json_dumps py_repr. split; [|split; [|split; [|split]]].
  - intros content calls H.
    pose proof (parsed_calls_hashable _ _ _ _ H) as Hh.
    unfold _parse_tool_calls in H.
    destruct (collect depth json_dumps py_repr content) as [tcs|e] eqn:Hc;
      cbn [bind] in H; [|discriminate].
    pose proof (collect_well_formed _ _ _ _ Hc) as Hwf.
    pose proof (@dedup_keeps well_formed _ _ _ _ H Hwf (Forall_nil _)) as Hw.
    apply Forall_forall. intros call Hin.
    rewrite Forall_forall in Hh, Hw.
    destruct (Hh call Hin) as [_ Ha]. specialize (Hw call Hin).
    unfold well_formed, has_name_args, dict_has in Hw.
    unfold call_args in Ha.
    destruct (dict_get k_name call) as [name|]; [|discriminate].
    destruct (dict_get k_args call) as [args|]; [|discriminate].
    now exists name, args.
  - intros m d args_dict Hl Hn Hargs. unfold body4. rewrite Hl. cbn [bind as_dict].
    unfold has_name_args. rewrite Hn. unfold dict_has at 1. rewrite Hargs. cbn [andb].
    eexists. split; [reflexivity|]. unfold flatten_args. rewrite Hargs.
    destruct (dict_get (u "종목명") args_dict), (dict_get (u "날짜") args_dict);
      (split; [apply dict_get_set_same | intros k Hk; now apply dict_get_set_other]).
  - intros m d args Hl Hn Hargs Hno. unfold body4. rewrite Hl. cbn [bind as_dict].
    unfold has_name_args. rewrite Hn. unfold dict_has at 1. rewrite Hargs. cbn [andb].
    unfold flatten_args. rewrite Hargs.
    destruct args; try reflexivity. now elim (Hno m0).
  - intros body m d Hin Hm Hl Ha. cbn [directive_passes In] in Hin.
    destruct Hin as [<- | [<- | [<- | []]]]; unfold body5, body3, body2.
    + destruct m; [congruence|]. cbn [nonempty]. rewrite Hl. cbn [bind as_dict].
      now rewrite Ha.
    + rewrite Hl. cbn [bind as_dict]. now rewrite Ha.
    + rewrite Hl. cbn [bind as_dict]. now rewrite Ha.
  - intros Hd. destruct depth as [|[|d]]; [lia | lia |]. vm_compute. reflexivity.
Qed.

Lemma C7_args_flattening_witness :
  let content := qq "TOOL_CALL: {'name': 'search_company', 'args': 'SK하이닉스'}
`{'action': 'text2sql', 'query': 'market average'}`" in
  exists calls,
    _parse_tool_calls Demo.depth Demo.show Demo.show content = Ok calls /\
    List.length calls = 2%nat /\
    Forall (fun call =>
              exists name args,
                dict_get k_name call = Some name /\
                dict_get k_args call = Some args /\
                hashable args = true) calls.
Proof.
  intros content.
  assert (H : exists calls,
             _parse_tool_calls Demo.depth Demo.show Demo.show content = Ok calls /\
             List.length calls = 2%nat).
  { eexists. vm_compute. split; reflexivity. }
  destruct H as (calls & Hp & Hl). exists calls. split; [exact Hp|]. split; [exact Hl|].
  exact (proj1 (C7_args_flattening Demo.depth Demo.show Demo.show) content calls Hp).
Defined.


Lemma status_write_cases (o : option (may_raise str)) :
  status_write o <> Some param_missing ->
  status_write o = None \/ status_write o = Some tool_error.
Proof.
  destruct o as [[r|e]|]; cbn [status_write]; auto.
  destruct (has_error_keyword r); intros H; [now elim H | now left].
Qed.

(** The status that [tools_node] leaves: the last status written by a call
    of the batch, [success] when no call wrote one. *)
Lemma tools_node_status (W : Type) (E : Externals W) (w : W) (st : StockSearchState) :
  validation_status (snd (tools_node E w st)) =
    last_write
      (List.map status_write (outcomes E (List.filter is_regular (tool_calls st)) w))
      success.
Proof.
  destruct (List.filter is_regular (tool_calls st)) as [|c rest] eqn:Hf.
  - unfold tools_node. rewrite Hf. reflexivity.
  - destruct (tools_node_batch E w st) as [Hs _]; [rewrite Hf; discriminate|].
    rewrite Hs, Hf.
    destruct (tools_loop_spec E (c :: rest) w (start_batch st)) as (_ & _ & H3).
    cbn [write_batch with_tool_execution_results with_tool_results
         with_validation_status validation_status].
    rewrite H3. reflexivity.
Qed.

(** The outcomes of the first calls of a batch are the first outcomes of
    the batch. *)
Lemma outcomes_firstn (W : Type) (E : Externals W) (calls : list dict) :
  forall k w, outcomes E (firstn k calls) w = firstn k (outcomes E calls w).
Proof.
  induction calls as [|c rest IH]; intros k w.
  - now rewrite !firstn_nil.
  - destruct k as [|k]; [reflexivity|]. cbn [firstn outcomes].
    destruct (find_tool (call_name c)) as [tool|].
    + destruct (tool_func E tool (call_args c) w) as [w' r]. cbn [firstn].
      now rewrite IH.
    + cbn [firstn]. now rewrite IH.
Qed.

(** No call writes [success]. *)
Lemma last_write_not_success (os : list (option (may_raise str))) :
  forall init, init <> success -> last_write (List.map status_write os) init <> success.
Proof.
  induction os as [|o os IH]; intros init Hi; [exact Hi|].
  cbn [List.map]. rewrite last_write_cons. apply IH.
  destruct o as [[r|e]|]; cbn [status_write]; try discriminate.
  destruct (has_error_keyword r); [discriminate | exact Hi].
Qed.

Lemma firstn_S_nth_error (A : Type) (l : list A) :
  forall i x, nth_error l i = Some x ->
              l = firstn i l ++ x :: skipn (S i) l.
Proof.
  induction l as [|y l IH]; intros i x H; [destruct i; discriminate|].
  destruct i as [|i]; cbn in *.
  - now inversion H.
  - f_equal. now apply IH.
Qed.

(** C5.  A structured batch of N calls yields N result entries, joined by
    blank lines into the result and appended in order to
    [tool_execution_results].  The entry of each call is made from that
    call's own outcome, every call being made in turn whatever the calls
    before it did: the handler's output after the tool's name, or, for a
    handler that raised, the inline error string.  A call that raises sets
    the status to [tool_error]: that is the status when its iteration is
    over, the calls after it write on top of it, and the batch does not end
    in [success].  In a batch of three whose second call raises, the first
    and third entries hold their tools' output. *)
Theorem C5_fault_isolation :
  forall (W : Type) (E : Externals W) (w : W) (st : StockSearchState),
    let calls := List.filter is_regular (tool_calls st) in
    let os := outcomes E calls w in
    let st' := snd (tools_node E w st) in
    calls <> [] ->
    List.length (entries E calls os) = List.length calls /\
    result st' = join nl2 (entries E calls os) /\
    tool_execution_results st' = tool_execution_results st ++ entries E calls os /\
    (forall i call o,
        nth_error calls i = Some call -> nth_error os i = Some o ->
        nth_error (entries E calls os) i = Some (entry E call o)) /\
    (forall i e,
        nth_error os i = Some (Some (Raise e)) ->
        b_validation_status
          (snd (tools_loop E (firstn (S i) calls) w (start_batch st))) = tool_error /\
        validation_status st' =
          last_write (List.map status_write (skipn (S i) os)) tool_error /\
        validation_status st' <> success) /\
    (forall c1 c2 c3 r1 e r3,
        calls = [c1; c2; c3] ->
        os = [Some (Ok r1); Some (Raise e); Some (Ok r3)] ->
        entries E calls os =
          [ fmt E (call_name c1) ++ u " 결과: " ++ r1;
            fmt E (call_name c2) ++ u " 오류: " ++ exn_str e;
            fmt E (call_name c3) ++ u " 결과: " ++ r3 ]).
Proof.
  intros W E w st calls os st' Hne.
  destruct (tools_node_batch E w st Hne) as [Hs _].
  destruct (tools_loop_spec E calls w (start_batch st)) as (H1 & H2 & _).
  fold calls in Hs. subst st'.
  split; [|split; [|split; [|split; [|split]]]].
  - apply entries_length, outcomes_length.
  - rewrite Hs. cbn [write_batch with_tool_execution_results with_tool_results
      with_validation_status with_result result]. now rewrite H1.
  - rewrite Hs. cbn [write_batch with_tool_execution_results
      tool_execution_results]. now rewrite H2.
  - intros i call o. apply entries_nth.
  - intros i e H. split; [|split].
    + destruct (tools_loop_spec E (firstn (S i) calls) w (start_batch st))
        as (_ & _ & H3).
      rewrite H3, outcomes_firstn. fold os.
      rewrite (firstn_S_nth_error os i H) at 1.
      rewrite firstn_app, firstn_firstn, Nat.min_r by lia.
      rewrite length_firstn, map_app, last_write_app.
      assert (Hi : (i < List.length os)%nat)
        by (apply nth_error_Some; rewrite H; discriminate).
      replace (S i - Nat.min i (List.length os))%nat with 1%nat by lia.
      reflexivity.
    + rewrite tools_node_status. fold calls. fold os.
      rewrite (firstn_S_nth_error os i H) at 1.
      rewrite map_app, last_write_app. reflexivity.
    + rewrite tools_node_status. fold calls. fold os.
      rewrite (firstn_S_nth_error os i H), map_app, last_write_app.
      cbn [List.map status_write]. rewrite last_write_cons.
      apply last_write_not_success. discriminate.
  - intros c1 c2 c3 r1 e r3 -> ->. reflexivity.
Qed.

Lemma C5_fault_isolation_witness :
  let st := Demo.parsed [Demo.call "get_stock_price" "a";
                         Demo.call "search_company" "boom";
                         Demo.call "get_market_index" "c"] in
  let st' := snd (tools_node Demo.quiet tt st) in
  result st' =
    u "get_stock_price 결과: ok a" ++ nl2 ++
    u "search_company 오류: connection lost" ++ nl2 ++
    u "get_market_index 결과: ok c" /\
  List.length (tool_execution_results st') = 3%nat /\
  validation_status st' = tool_error.
Proof.
  intros st st'. subst st'.
  assert (Hne : List.filter is_regular (tool_calls st) <> []) by (vm_compute; discriminate).
  destruct (C5_fault_isolation Demo.quiet tt st Hne) as (Hlen & Hres & Hexec & _ & Herr & _).
  split; [|split].
  - rewrite Hres. vm_compute. reflexivity.
  - rewrite Hexec, length_app, Hlen. vm_compute. reflexivity.
  - destruct (Herr 1%nat (External (u "connection lost"))) as (_ & Hst & _).
    + vm_compute. reflexivity.
    + rewrite Hst. vm_compute. reflexivity.
Defined.

(** C6, as the code has it.  The status of a structured batch is the one
    written by the last call that wrote one, and [success] when none did: a
    call whose output carries a marker phrase writes [param_missing], a call
    that raises or names no tool writes [tool_error], and a call that
    succeeds writes nothing, so it leaves the status of the calls before
    it. *)
Theorem C6_last_writer_wins :
  forall (W : Type) (E : Externals W) (w : W) (st : StockSearchState),
    let os := outcomes E (List.filter is_regular (tool_calls st)) w in
    let final := validation_status (snd (tools_node E w st)) in
    final = last_write (List.map status_write os) success /\
    (forall pre o post s,
        os = pre ++ o :: post ->
        status_write o = Some s ->
        Forall (fun o' => status_write o' = None) post ->
        final = s) /\
    (Forall (fun o => status_write o = None) os -> final = success).
Proof.
  intros W E w st os final. subst final. rewrite tools_node_status. fold os.
  split; [reflexivity|split].
  - intros pre o post s Hos Hw Hpost.
    rewrite Hos, map_app, last_write_app. cbn [List.map].
    rewrite last_write_cons, Hw.
    apply last_write_quiet. apply Forall_map.
    revert Hpost. apply Forall_impl. auto.
  - intros Hq. apply last_write_quiet. apply Forall_map.
    revert Hq. apply Forall_impl. auto.
Qed.

Lemma C6_last_writer_wins_witness :
  let st := Demo.parsed [Demo.call "get_stock_price" "boom";
                         Demo.call "search_company" "when";
                         Demo.call "get_market_index" "c"] in
  validation_status (snd (tools_node Demo.quiet tt st)) = param_missing.
Proof.
  intros st.
  apply (proj1 (proj2 (C6_last_writer_wins Demo.quiet tt st))
           [Some (Raise (External (u "connection lost")))]
           (Some (Ok (u "날짜 정보를 찾을 수 없습니다")))
           [Some (Ok (u "ok c"))]).
  - vm_compute. reflexivity.
  - vm_compute. reflexivity.
  - repeat constructor.
Defined.

(** C6 as the specification states it fails: in a batch of two calls, the first
    reporting a missing date and the second succeeding, the most recently
    executed call is classified [success] and the batch is left
    [param_missing]. *)
Lemma C6_counterexample :
  let st := Demo.parsed [Demo.call "get_stock_price" "when";
                         Demo.call "search_company" "a"] in
  let os := outcomes Demo.quiet (List.filter is_regular (tool_calls st)) tt in
  classification (List.last os None) = success /\
  validation_status (snd (tools_node Demo.quiet tt st)) = param_missing /\
  validation_status (snd (tools_node Demo.quiet tt st))
    <> classification (List.last os None).
Proof.
  vm_compute. repeat split. discriminate.
Qed.


(* ================================================================== *)
(** ** Properties of the runs of the graph *)
(* ================================================================== *)

Section Runs.

Variable W : Type.
Variable E : Externals W.

Lemma tools_node_keeps (w : W) (st : StockSearchState) :
  query (snd (tools_node E w st)) = query st /\
  clarification_needed (snd (tools_node E w st)) = clarification_needed st /\
  tool_calls (snd (tools_node E w st)) = tool_calls st /\
  retry_count (snd (tools_node E w st)) = retry_count st.
Proof.
  unfold tools_node. destruct (List.filter is_regular (tool_calls st)).
  - repeat split.
  - destruct (tools_loop E _ w (start_batch st)) as [w' b]. repeat split.
Qed.

Lemma text2sql_node_keeps (w : W) (st : StockSearchState) :
  query (snd (text2sql_node E w st)) = query st /\
  clarification_needed (snd (text2sql_node E w st)) = clarification_needed st /\
  tool_calls (snd (text2sql_node E w st)) = tool_calls st /\
  retry_count (snd (text2sql_node E w st)) = retry_count st.
Proof.
  unfold text2sql_node. destruct (List.filter is_text2sql_call (tool_calls st)).
  - repeat split.
  - destruct (text2sql_loop E _ _ w (start_batch st)) as [w' b]. repeat split.
Qed.

(** The filter, when it returns, returns the state it was given or that
    state with another result. *)
Lemma result_filter_node_result (st st' : StockSearchState) :
  result_filter_node E st = Ok st' ->
  st' = st \/ exists r, st' = with_result r st.
Proof.
  unfold result_filter_node.
  destruct (filtered_result E _ _) as [[r|]|e]; cbn [bind]; intros H;
    inversion H; subst; [right; now exists r | now left].
Qed.


Lemma result_filter_node_keeps (st st' : StockSearchState) :
  result_filter_node E st = Ok st' ->
  query st' = query st /\
  clarification_needed st' = clarification_needed st /\
  tool_calls st' = tool_calls st /\
  tool_execution_results st' = tool_execution_results st.
Proof.
  intros H. destruct (result_filter_node_result _ H) as [-> | (r & ->)];
    repeat split.
Qed.

(** Every node keeps the query, and every node but the clarifier keeps
    [clarification_needed]. *)
Lemma run_node_keeps (n : node) (w w1 : W) (st s1 : StockSearchState) :
  run_node E n w st = (w1, Ok s1) ->
  query s1 = query st /\
  (n <> Clarifier -> clarification_needed s1 = clarification_needed st).
Proof.
  destruct n; cbn [run_node]; intros H.
  - unfold agent_node in H.
    destruct (llm_main E _ w) as [w' [reply|e]]; cbn in H; inversion H; subst.
    now split.
  - unfold parse_node in H.
    destruct (_parse_tool_calls _ _ _) as [calls|e]; cbn in H; inversion H; subst.
    now split.
  - pose proof (tools_node_keeps w st) as (Hq & Hc & _).
    destruct (tools_node E w st) as [w' s]. inversion H; subst. now split.
  - pose proof (text2sql_node_keeps w st) as (Hq & Hc & _).
    destruct (text2sql_node E w st) as [w' s]. inversion H; subst. now split.
  - inversion H; subst. now split.
  - inversion H as [[Hw Hf]]; subst.
    pose proof (result_filter_node_keeps _ Hf) as (Hq & Hc & _). now split.
  - inversion H; subst. split; [reflexivity|congruence].
  - unfold generation_node in H.
    destruct (llm_main E _ w) as [w' [answer|e]]; cbn in H; inversion H; subst.
    now split.
Qed.

(** After the SQL stage the routing never chooses the clarifier. *)
Lemma after_text2sql_never_clarifies (w : W) (st : StockSearchState) :
  after_text2sql_routing (snd (text2sql_node E w st)) = FilterDecision.
Proof.
  unfold after_text2sql_routing.
  destruct (text2sql_node_status E w st) as [H | H]; rewrite H; reflexivity.
Qed.

(** The node that follows a node is one of its successors in the graph. *)
Lemma next_node_edge (n n' : node) (w w1 : W) (st s1 : StockSearchState) :
  run_node E n w st = (w1, Ok s1) ->
  next_node n s1 = Ok (Some n') ->
  edgeb n n' = true.
Proof.
  destruct n; cbn [run_node next_node]; intros Hr Hn.
  - inversion Hn; reflexivity.
  - inversion Hn; subst. unfold should_continue.
    destruct (tool_calls s1); [reflexivity|].
    destruct (existsb is_text2sql_call _), (existsb is_regular _); reflexivity.
  - inversion Hn; subst. unfold after_tools_routing.
    destruct (_ && _); [reflexivity|].
    destruct (existsb _ _); reflexivity.
  - inversion Hn; subst.
    pose proof (after_text2sql_never_clarifies w st) as Ha.
    destruct (text2sql_node E w st) as [w' s]. inversion Hr; subst.
    cbn [snd] in Ha. now rewrite Ha.
  - unfold should_filter_results in Hn.
    destruct (needs_filtering (tool_calls s1)) as [[|]|e]; cbn in Hn;
      inversion Hn; reflexivity.
  - inversion Hn; reflexivity.
  - discriminate.
  - discriminate.
Qed.

(** A node with no next node is the clarifier or the generation stage. *)
Lemma next_node_end (n : node) (s : StockSearchState) :
  next_node n s = Ok None -> n = Clarifier \/ n = Generation.
Proof.
  destruct n; cbn [next_node]; intros H; try discriminate; auto.
  unfold should_filter_results in H.
  destruct (needs_filtering (tool_calls s)) as [[|]|e]; discriminate.
Qed.

(** One step of a run. *)
Lemma invoke_from_S (f : nat) (n : node) (w : W) (st : StockSearchState) :
  invoke_from E (S f) n w st =
    (let '(w1, r) := run_node E n w st in
     match r with
     | Raise e => (w1, Raise e, [n])
     | Ok s1 =>
         match next_node n s1 with
         | Raise e => (w1, Raise e, [n])
         | Ok None => (w1, Ok s1, [n])
         | Ok (Some n') =>
             let '(w2, r2, visited) := invoke_from E f n' w1 s1 in
             (w2, r2, n :: visited)
         end
     end).
Proof. reflexivity. Qed.

(** The nodes that a run visits follow the edges of the graph. *)
Lemma invoke_from_chain (fuel : nat) :
  forall n w st,
    let visited := snd (invoke_from E (S fuel) n w st) in
    exists tl, visited = n :: tl /\ chain n tl = true.
Proof.
  induction fuel as [|f IH]; intros n w st; rewrite invoke_from_S.
  - destruct (run_node E n w st) as [w1 [s1|e]]; [|now exists []].
    destruct (next_node n s1) as [[n'|]|e]; now exists [].
  - destruct (run_node E n w st) as [w1 [s1|e]] eqn:Hr; [|now exists []].
    destruct (next_node n s1) as [[n'|]|e] eqn:Hn; try now exists [].
    destruct (IH n' w1 s1) as (tl & Htl & Hc).
    destruct (invoke_from E (S f) n' w1 s1) as [[w2 r2] visited'].
    cbn [snd] in *. subst visited'. exists (n' :: tl). split; [reflexivity|].
    cbn [chain]. now rewrite (next_node_edge _ _ _ Hr Hn), Hc.
Qed.

(** A run that ends with a state ends in a node without a next node, and
    its state is what that node returned; the query is the one given, and
    [clarification_needed] was not touched before that node. *)
Lemma invoke_from_ok (fuel : nat) :
  forall n w st w' s visited,
    invoke_from E fuel n w st = (w', Ok s, visited) ->
    exists pre final w0 s0,
      visited = pre ++ [final] /\
      run_node E final w0 s0 = (w', Ok s) /\
      next_node final s = Ok None /\
      query s0 = query st /\
      clarification_needed s0 = clarification_needed st.
Proof.
  induction fuel as [|f IH]; intros n w st w' s visited H;
    [discriminate | rewrite invoke_from_S in H].
  - destruct (run_node E n w st) as [w1 [s1|e]] eqn:Hr; [|discriminate].
    destruct (next_node n s1) as [[n'|]|e] eqn:Hn; try discriminate.
    + destruct (invoke_from E f n' w1 s1) as [[w2 r2] visited'] eqn:Hi.
      inversion H; subst.
      destruct (IH _ _ _ _ _ _ Hi) as (pre & final & w0 & s0 & Hv & Hrun & Hend & Hq & Hc).
      exists (n :: pre), final, w0, s0.
      destruct (run_node_keeps _ _ _ Hr) as [Hq1 Hc1].
      repeat split; try assumption.
      * now rewrite Hv.
      * congruence.
      * rewrite Hc. apply Hc1. intros ->. discriminate.
    + inversion H; subst. exists [], n, w, st. repeat split; assumption.
Qed.

(** In a chain, a node without successors can only come last. *)
Lemma chain_terminal_last (x : node) :
  (forall m, edgeb x m = false) ->
  forall tl n, chain n tl = true -> In x (n :: tl) ->
  exists pre, n :: tl = pre ++ [x].
Proof.
  intros Hx. induction tl as [|m tl IH]; intros n Hc Hin.
  - destruct Hin as [-> | []]. now exists [].
  - cbn [chain] in Hc. apply andb_true_iff in Hc as [He Hc].
    destruct Hin as [-> | Hin].
    + now rewrite Hx in He.
    + destruct (IH m Hc Hin) as (pre & Hpre). exists (n :: pre).
      now rewrite Hpre.
Qed.

(** In a chain, what comes just before a node is one of its predecessors. *)
Lemma chain_predecessor (y : node) :
  forall tl n pre post,
    chain n tl = true -> n :: tl = pre ++ y :: post -> pre <> [] ->
    exists pre' x, pre = pre' ++ [x] /\ edgeb x y = true.
Proof.
  induction tl as [|m tl IH]; intros n pre post Hc Heq Hpre.
  - destruct pre as [|p pre]; [congruence|].
    inversion Heq as [[Hn Hrest]]. destruct pre; discriminate.
  - destruct pre as [|p pre]; [congruence|].
    inversion Heq as [[Hn Hrest]]; subst p.
    cbn [chain] in Hc. apply andb_true_iff in Hc as [He Hc].
    destruct pre as [|p' pre].
    + inversion Hrest; subst. exists [], n. now split.
    + destruct (IH m (p' :: pre) post Hc Hrest) as (pre' & x & Hp & Hx);
        [discriminate|].
      exists (n :: pre'), x. split; [now rewrite Hp | assumption].
Qed.

(** A run does not depend on the recursion limit once the limit is at
    least the depth of the graph. *)
Lemma invoke_from_enough_fuel (f1 : nat) :
  forall f2 n w st,
    (depth n <= f1)%nat -> (depth n <= f2)%nat ->
    invoke_from E f1 n w st = invoke_from E f2 n w st.
Proof.
  induction f1 as [|g1 IH]; intros f2 n w st H1 H2.
  - destruct n; cbn in H1; lia.
  - destruct f2 as [|g2]; [destruct n; cbn in H2; lia|].
    rewrite !invoke_from_S.
    destruct (run_node E n w st) as [w1 [s1|e]] eqn:Hr; [|reflexivity].
    destruct (next_node n s1) as [[n'|]|e] eqn:Hn; try reflexivity.
    pose proof (next_node_edge _ _ _ Hr Hn) as He.
    rewrite (IH g2 n' w1 s1); [reflexivity| |];
      destruct n, n'; cbn in He, H1, H2 |- *; try discriminate; lia.
Qed.

End Runs.


(** C2.  Every run started by [search] ends in exactly one of three ways:
    the generation stage returned the final state, whose result is the
    model's answer and whose [clarification_needed] is false; or the
    clarifier returned it, with the clarification prompt as result and
    [clarification_needed] true; or an exception escaped the graph and
    [search] turned it into the error answer.  The answer of [search] is
    that result.  No run visits both the clarifier and the generation
    stage, and the recursion limit of the graph runtime plays no part: the
    run is the same under any limit of at least seven steps. *)
Theorem C2_exactly_one_outcome :
  forall (W : Type) (E : Externals W) (q : str) (detailed : bool) (w : W),
    let '(w', r, visited) := graph_invoke E w (initial_state q) in
    let answer := answer_text (snd (search E q detailed w)) in
    let by_generation :=
      exists s w0 s0 pre final_answer,
        r = Ok s /\ visited = pre ++ [Generation] /\
        llm_main E (generation_prompt E q (generation_tool_result s0)) w0
          = (w', Ok final_answer) /\
        generation_node E w0 s0 = (w', Ok s) /\
        result s = final_answer /\
        clarification_needed s = false /\
        answer = final_answer in
    let by_clarifier :=
      exists s s0 pre,
        r = Ok s /\ visited = pre ++ [Clarifier] /\
        s = clarifier_node s0 /\
        result s = clarification_prompt q /\
        clarification_needed s = true /\
        answer = clarification_prompt q in
    let by_error :=
      exists e, r = Raise e /\ answer = error_msg e in
    ((by_generation /\ ~ by_clarifier /\ ~ by_error) \/
     (~ by_generation /\ by_clarifier /\ ~ by_error) \/
     (~ by_generation /\ ~ by_clarifier /\ by_error)) /\
    ~ (In Clarifier visited /\ In Generation visited) /\
    (forall limit, (7 <= limit)%nat ->
       invoke_from E limit Agent_ w (initial_state q) = (w', r, visited)).
Proof.
  intros W E q detailed w.
  pose proof (invoke_from_chain E 24 Agent_ w (initial_state q)) as Hchain.
  unfold search.
  change (invoke_from E 25 Agent_ w (initial_state q))
    with (graph_invoke E w (initial_state q)) in Hchain.
  destruct (graph_invoke E w (initial_state q)) as [[w' r] visited] eqn:Hrun.
  cbn [snd] in Hchain. destruct Hchain as (tl & Hv & Hc).
  split; [|split];
    [| | intros limit Hl; rewrite <- Hrun; unfold graph_invoke, recursion_limit;
         apply invoke_from_enough_fuel; cbn [depth]; lia].
  - destruct r as [s|e].
    + destruct (invoke_from_ok E _ _ _ _ Hrun)
        as (pre & final & w0 & s0 & Hvis & Hnode & Hend & Hq & Hcn).
      cbn [initial_state query clarification_needed] in Hq, Hcn.
      destruct (next_node_end _ _ Hend) as [-> | ->].
      * (* the clarifier *)
        right; left. cbn [run_node] in Hnode. inversion Hnode; subst w0 s.
        assert (Hres : result (clarifier_node s0) = clarification_prompt q)
          by (cbn; now rewrite Hq).
        split; [|split].
        -- intros (s & w1 & s1 & pre1 & fa & Hs & Hv1 & _).
           rewrite Hvis in Hv1. apply app_inj_tail in Hv1 as [_ Hv1]. discriminate.
        -- exists (clarifier_node s0), s0, pre. repeat split; try assumption.
           destruct (detailed && _); cbn [snd answer_text]; exact Hres.
        -- intros (e & He & _). discriminate.
      * (* the generation stage *)
        left. cbn [run_node] in Hnode.
        split; [|split].
        -- pose proof Hnode as Hgen. unfold generation_node in Hnode.
           rewrite Hq in Hnode.
           destruct (llm_main E _ w0) as [w1 [fa|e]] eqn:Hllm; cbn in Hnode;
             inversion Hnode; subst w1 s.
           exists (with_result fa
                     (with_messages (messages s0 ++ [mk_message AIMessage fa]) s0)),
             w0, s0, pre, fa.
           repeat split; try assumption.
           destruct (detailed && _); reflexivity.
        -- intros (s1 & s2 & pre1 & _ & Hv1 & _).
           rewrite Hvis in Hv1. apply app_inj_tail in Hv1 as [_ Hv1]. discriminate.
        -- intros (e & He & _). discriminate.
    + right; right. split; [|split].
      * intros (s & w1 & s1 & pre1 & fa & Hs & _). discriminate.
      * intros (s & s1 & pre1 & Hs & _). discriminate.
      * exists e. split; [reflexivity|]. destruct (detailed && _); reflexivity.
  - intros [Hcl Hgen]. rewrite Hv in Hcl, Hgen.
    assert (Tc : forall m, edgeb Clarifier m = false) by (intros []; reflexivity).
    assert (Tg : forall m, edgeb Generation m = false) by (intros []; reflexivity).
    destruct (chain_terminal_last Tc Hc Hcl) as (p1 & H1).
    destruct (chain_terminal_last Tg Hc Hgen) as (p2 & H2).
    rewrite H1 in H2. apply app_inj_tail in H2 as [_ H2]. discriminate.
Qed.

(** C10.  The SQL stage writes [success] or [tool_error], never
    [param_missing]; so the routing that follows it always chooses the
    filter decision, and in every run the clarifier, when it is visited,
    comes right after the structured-tool stage. *)
Theorem C10_sql_stage_never_clarifies :
  forall (W : Type) (E : Externals W),
    (forall w st,
        validation_status (snd (text2sql_node E w st)) = success \/
        validation_status (snd (text2sql_node E w st)) = tool_error) /\
    (forall w st,
        after_text2sql_routing (snd (text2sql_node E w st)) = FilterDecision) /\
    (forall w q pre post,
        snd (graph_invoke E w (initial_state q)) = pre ++ Clarifier :: post ->
        exists pre', pre = pre' ++ [Tools]).
Proof.
  intros W E. split; [|split].
  - intros w st. apply text2sql_node_status.
  - intros w st. apply after_text2sql_never_clarifies.
  - intros w q pre post Hv.
    destruct (invoke_from_chain E 24 Agent_ w (initial_state q)) as (tl & Htl & Hc).
    change (invoke_from E 25 Agent_ w (initial_state q))
      with (graph_invoke E w (initial_state q)) in Htl.
    rewrite Hv in Htl.
    assert (Hpre : pre <> []).
    { intros ->. discriminate. }
    destruct (@chain_predecessor Clarifier tl Agent_ pre post Hc (eq_sym Htl) Hpre)
      as (pre' & x & Hp & Hx).
    exists pre'. rewrite Hp. destruct x; try discriminate. reflexivity.
Qed.

Lemma C10_sql_stage_never_clarifies_witness :
  let reply :=
    qq "TOOL_CALL: {'name': 'get_stock_price', 'args': 'when'}
TOOL_CALL: {'name': 'text2sql', 'args': 'market average'}" in
  let E := Demo.externals (Ok reply) (Ok (u "final")) in
  snd (graph_invoke E tt (initial_state (u "q")))
    = [Agent_; Parse; Tools] ++ Clarifier :: [] /\
  exists pre', [Agent_; Parse; Tools] = pre' ++ [Tools].
Proof.
  intros reply E.
  assert (Hv : snd (graph_invoke E tt (initial_state (u "q")))
               = [Agent_; Parse; Tools] ++ Clarifier :: [])
    by (vm_compute; reflexivity).
  split; [exact Hv|].
  exact (proj2 (proj2 (C10_sql_stage_never_clarifies E)) tt (u "q") _ _ Hv).
Defined.


Section Precedence.

Variable W : Type.
Variable E : Externals W.

Lemma invoke_from_next (f : nat) (n n' : node) (w w1 : W) (st s1 : StockSearchState) :
  run_node E n w st = (w1, Ok s1) ->
  next_node n s1 = Ok (Some n') ->
  invoke_from E (S f) n w st =
    (fst (invoke_from E f n' w1 s1), n :: snd (invoke_from E f n' w1 s1)).
Proof.
  intros Hr Hn. rewrite invoke_from_S, Hr, Hn.
  now destruct (invoke_from E f n' w1 s1) as [[w2 r2] v].
Qed.


Lemma invoke_from_generation (f : nat) (w : W) (st : StockSearchState) :
  invoke_from E (S f) Generation w st = (generation_node E w st, [Generation]).
Proof.
  rewrite invoke_from_S. cbn [run_node next_node].
  now destruct (generation_node E w st) as [w' [s|e]].
Qed.


Lemma filter_nonempty (A : Type) (p : A -> bool) (l : list A) :
  existsb p l = true -> List.filter p l <> [].
Proof.
  induction l as [|x l IH]; cbn; [discriminate|].
  destruct (p x); [discriminate | exact IH].
Qed.



End Precedence.

(** C3 as the specification states it fails: the model's reply holds an ordinary
    call, whose tool reports a missing date, and a text2sql call; the run
    goes from the structured stage to the clarifier, the SQL stage is never
    executed, and neither the result nor the tool output holds a text2sql
    result. *)
Lemma C3_counterexample :
  let reply :=
    qq "TOOL_CALL: {'name': 'get_stock_price', 'args': 'when'}
TOOL_CALL: {'name': 'text2sql', 'args': 'market average'}" in
  let E := Demo.externals (Ok reply) (Ok (u "final")) in
  let run := graph_invoke E tt (initial_state (u "q")) in
  (exists calls,
      _parse_tool_calls (json_depth E) (json_dumps E) (py_repr E) reply = Ok calls /\
      existsb is_regular calls = true /\ existsb is_text2sql_call calls = true) /\
  snd run = [Agent_; Parse; Tools; Clarifier] /\
  ~ In Text2sql (snd run) /\
  (exists s, snd (fst run) = Ok s /\
             result s = clarification_prompt (u "q") /\
             tool_execution_results s
               = [u "get_stock_price 결과: 날짜 정보를 찾을 수 없습니다"]).
Proof.
  intros reply E run. split; [|split; [|split]].
  - eexists. vm_compute. repeat split.
  - vm_compute. reflexivity.
  - vm_compute. intros H.
    repeat (destruct H as [H|H]; [discriminate H|]). exact H.
  - eexists. vm_compute. repeat split.
Qed.




(* ================================================================== *)
(** ** Properties of the result filter *)
(* ================================================================== *)



Section FilterFacts.

Variable W : Type.
Variable E : Externals W.



(** The syllable 개 is no digit. *)
Hypothesis counter_no_digit : unicode_decimal E 44060 = None.








End FilterFacts.

(** C8 as the specification states it fails: for a query that asks for a count
    written with 4301 digits, no keyword being present, that count does not
    become the limit: the conversion raises [ValueError] and the filter
    with it. *)
Lemma C8_counterexample :
  let q := List.repeat 57%N 4301 ++ u "개" in
  let st := with_result (Demo.listing 3) (initial_state q) in
  existsb (fun kw => contains kw q) all_keywords = false /\
  result_filter_node Demo.quiet st = Raise (ValueError (int_limit_msg 4301)) /\
  forall st', result_filter_node Demo.quiet st <> Ok st'.
Proof.
  intros q st.
  assert (H : existsb (fun kw => contains kw q) all_keywords = false /\
              result_filter_node Demo.quiet st = Raise (ValueError (int_limit_msg 4301))).
  { vm_compute. split; reflexivity. }
  destruct H as [H1 H2]. split; [exact H1|]. split; [exact H2|].
  intros st'. rewrite H2. discriminate.
Qed.



(** The filter on a listing of 150 numbered items: the first hundred and
    the sentence; the first thirty when the query asks for 30개 (the digits
    of a date are not followed by 개 and are passed over); all of them when
    it asks for 모두. *)
Example filter_listing_150 :
  let suffix := [10; 10]%N ++ u "... 등 총 150개 종목이 있습니다." in
  let filtered (q : str) :=
    match result_filter_node Demo.quiet
            (with_result (Demo.listing 150) (initial_state q)) with
    | Ok s => result s
    | Raise _ => []
    end in
  filtered (u "상승률 높은 종목 알려줘") = Demo.listing 100 ++ suffix /\
  filtered (u "2025-11-06 상승률 상위 30개 알려줘") = Demo.listing 30 ++ suffix /\
  filtered (u "상승률 높은 종목 모두 알려줘") = Demo.listing 150.
Proof. vm_compute. repeat split. Qed.


(* ================================================================== *)
(** ** Properties of the parameter extractor *)
(* ================================================================== *)

Import Extractor.

(** A brace span that decodes, decodes to a mapping. *)
Lemma span_decodes_to_dict (depth : nat) (content : str) (m : rmatch) (v : json) :
  Re.search span_pattern content = Some m ->
  loads depth (m_text m) = Ok v ->
  exists d, v = JObject d.
Proof.
  intros Hs Hl. apply search_from_first in Hs as (t & Ht).
  rewrite Ht in Hl. now apply loads_brace_object in Hl.
Qed.

(** C9, as the code has it.  The extractor returns a value for every
    reply and never raises.  When the model call raises, the value is the
    empty mapping.  Otherwise the trimmed reply is searched for the first
    brace span: when there is one, it alone is decoded, giving the decoded
    mapping, or the empty mapping when it does not decode; the whole
    trimmed reply is decoded only when there is no brace span, and the
    value is the empty mapping when that fails. *)
Theorem C9_extractor :
  forall (depth : nat) (W : Type) (llm : str -> W -> W * may_raise str)
         (query schema rules : str) (w : W),
    let called := llm (prompt query schema rules) w in
    let out := _extract_parameters depth llm query schema rules w in
    fst out = fst called /\
    match snd called with
    | Raise _ => snd out = JObject []
    | Ok reply =>
        let content := strip reply in
        match Re.search span_pattern content with
        | Some json_match =>
            match loads depth (m_text json_match) with
            | Ok v => snd out = v /\ exists d, v = JObject d
            | Raise _ => snd out = JObject []
            end
        | None =>
            match loads depth content with
            | Ok v => snd out = v
            | Raise _ => snd out = JObject []
            end
        end
    end.
Proof.
  intros depth W llm query schema rules w called out.
  subst called out. unfold _extract_parameters, try_block.
  destruct (llm (prompt query schema rules) w) as [w' [reply|e]];
    cbn [fst snd bind]; split; try reflexivity.
  unfold parse_reply. cbv zeta.
  destruct (Re.search span_pattern (strip reply)) as [m|] eqn:Hs.
  - destruct (loads depth (m_text m)) as [v|e] eqn:Hl; [|reflexivity].
    split; [reflexivity|]. eapply span_decodes_to_dict; eassumption.
  - destruct (loads depth (strip reply)); reflexivity.
Qed.

(** C9 as the specification states it fails: on the reply written [{'a': '}'}]
    below (an object whose one value is a closing brace), the first brace
    span stops at the brace inside the value and does not decode; the
    extractor returns the empty mapping although the whole reply decodes. *)
Lemma C9_counterexample :
  let reply := qq "{'a': '}'}" in
  let llm := fun (_ : str) (w : unit) => (w, Ok reply) in
  snd (_extract_parameters Demo.depth llm (u "q") (u "{}") (u "") tt) = JObject [] /\
  spec_parse_reply Demo.depth reply = JObject [(u "a", JString (u "}"))] /\
  snd (_extract_parameters Demo.depth llm (u "q") (u "{}") (u "") tt) <> spec_parse_reply Demo.depth reply.
Proof.
  vm_compute. repeat split. discriminate.
Qed.


(* ================================================================== *)
(** ** The de-duplication of the call parser *)
(* ================================================================== *)

Lemma float_eqb_refl (f : spec_float) : float_eqb f f = true.
Proof.
  destruct f as [s|s| |s m e]; cbn [float_eqb]; unfold SFeqb; cbn [SFcompare].
  - reflexivity.
  - now destruct s.
  - reflexivity.
  - rewrite Z.compare_refl.
    change (PosDef.Pos.compare_cont Eq m m) with (Pos.compare m m).
    rewrite Pos.compare_refl. now destruct s.
Qed.

Lemma hashable_eqb_refl (a : json) : hashable a = true -> hashable_eqb a a = true.
Proof.
  destruct a; cbn [hashable hashable_eqb]; intros H; try discriminate; try reflexivity.
  - apply Bool.eqb_reflx.
  - apply Z.eqb_refl.
  - apply float_eqb_refl.
  - apply str_eqb_refl.
Qed.

Lemma identifier_eqb_refl (a : json * json) :
  hashable (fst a) = true -> hashable (snd a) = true -> identifier_eqb a a = true.
Proof.
  intros H1 H2. unfold identifier_eqb.
  now rewrite (hashable_eqb_refl _ H1), (hashable_eqb_refl _ H2).
Qed.

(** An identifier that can be hashed and is in [seen] is found there. *)
Lemma seen_In (id : json * json) (seen : list (json * json)) :
  hashable (fst id) = true -> hashable (snd id) = true ->
  In id seen -> existsb (identifier_eqb id) seen = true.
Proof.
  intros H1 H2 Hin. apply existsb_exists.
  exists id. split; [assumption | now apply identifier_eqb_refl].
Qed.

Lemma dedup_distinct (tool_calls : list dict) :
  forall seen acc out,
    dedup tool_calls seen acc = Ok out ->
    (forall a, In a acc -> In (identifier a) seen) ->
    NoDup (List.map identifier acc) ->
    NoDup (List.map identifier out).
Proof.
  induction tool_calls as [|call rest IH]; intros seen acc out H Hseen Hnd.
  - cbn [dedup] in H. inversion H; subst. assumption.
  - rewrite dedup_step in H. cbv zeta in H.
    destruct (hashable (fst (identifier call))) eqn:H1; cbn [negb] in H;
      [|discriminate].
    destruct (hashable (snd (identifier call))) eqn:H2; cbn [negb] in H;
      [|discriminate].
    destruct (existsb (identifier_eqb (identifier call)) seen) eqn:Hex.
    + now apply IH in H.
    + apply IH in H; [assumption| |].
      * intros a Ha. apply in_app_or in Ha as [Ha|[Ha|[]]].
        -- right. now apply Hseen.
        -- subst a. now left.
      * rewrite List.map_app. cbn [List.map].
        apply NoDup_app; [assumption | repeat constructor; intros [] | ].
        intros x Hx [Hc|[]]. subst x.
        apply in_map_iff in Hx as (a & Ha & Hin).
        apply Hseen in Hin. rewrite Ha in Hin.
        apply (seen_In _ seen H1 H2) in Hin. congruence.
Qed.

Lemma subseq_refl (A : Type) (l : list A) : subseq l l.
Proof. induction l; constructor; assumption. Qed.

Lemma subseq_nil_l (A : Type) (l : list A) : subseq [] l.
Proof. induction l; constructor; assumption. Qed.

Lemma dedup_kept (tool_calls : list dict) :
  forall seen acc out,
    dedup tool_calls seen acc = Ok out ->
    exists kept,
      out = acc ++ kept /\ subseq kept tool_calls /\
      (forall c, In c tool_calls ->
                 existsb (identifier_eqb (identifier c)) seen = true \/
                 existsb (identifier_eqb (identifier c))
                         (List.map identifier kept) = true) /\
      (forall c, In c kept -> existsb (identifier_eqb (identifier c)) seen = false).
Proof.
  induction tool_calls as [|call rest IH]; intros seen acc out H.
  - cbn [dedup] in H. inversion H; subst. exists [].
    rewrite app_nil_r. repeat split; [constructor | intros c [] | intros c []].
  - rewrite dedup_step in H. cbv zeta in H.
    destruct (hashable (fst (identifier call))) eqn:H1; cbn [negb] in H;
      [|discriminate].
    destruct (hashable (snd (identifier call))) eqn:H2; cbn [negb] in H;
      [|discriminate].
    destruct (existsb (identifier_eqb (identifier call)) seen) eqn:Hex.
    + apply IH in H as (kept & Hout & Hsub & Hcov & Hnew).
      exists kept. repeat split; [assumption | now constructor | | assumption].
      intros c [Hc|Hc]; [|now apply Hcov].
      subst c. now left.
    + apply IH in H as (kept & Hout & Hsub & Hcov & Hnew).
      exists (call :: kept). repeat split.
      * rewrite Hout, <- app_assoc. reflexivity.
      * now constructor.
      * intros c [Hc|Hc].
        -- subst c. right. cbn [List.map existsb].
           now rewrite (identifier_eqb_refl _ H1 H2).
        -- destruct (Hcov c Hc) as [Hs|Hk].
           ++ cbn [existsb] in Hs. apply orb_true_iff in Hs as [Hs|Hs].
              ** right. cbn [List.map existsb]. now rewrite Hs.
              ** now left.
           ++ right. cbn [List.map existsb]. rewrite Hk. apply orb_true_r.
      * intros c [Hc|Hc].
        -- now subst c.
        -- specialize (Hnew c Hc). cbn [existsb] in Hnew.
           now apply orb_false_iff in Hnew as [_ Hnew].
Qed.

(** X1.  No two of the calls that the parser returns have the same name and
    the same args: whatever the five passes collected, the identifiers
    [(name, args)] of the returned records are pairwise different. *)
Theorem X1_parsed_calls_distinct :
  forall (depth : nat) (json_dumps py_repr : json -> str) (content : str)
         (calls : list dict),
    _parse_tool_calls depth json_dumps py_repr content = Ok calls ->
    NoDup (List.map identifier calls).
Proof.
  intros depth json_dumps py_repr content calls H. unfold _parse_tool_calls in H.
  destruct (collect depth json_dumps py_repr content) as [tcs|e]; cbn [bind] in H;
    [|discriminate].
  apply dedup_distinct in H; [assumption | intros a [] | constructor].
Qed.

Lemma X1_parsed_calls_distinct_witness :
  NoDup (List.map identifier
           [[(k_name, JString (u "search_company")); (k_args, JString (u "SK"))];
            [(k_name, JString (u "get_market_stats")); (k_args, JString (u "SK"))]]).
Proof.
  apply (X1_parsed_calls_distinct Demo.depth Demo.show Demo.show
           (qq "TOOL_CALL: {'name': 'search_company', 'args': 'SK'}
TOOL_CALL: {'name': 'get_market_stats', 'args': 'SK'}
TOOL_CALL: {'name': 'search_company', 'args': 'SK'}")).
  vm_compute. reflexivity.
Defined.

(** X2.  De-duplication only leaves records out: the returned list is the
    collected list with some records removed, in the collected order; for
    every collected record a returned record has an equal name and equal
    args, equal as a set compares them (so [1], [1.0] and [true] are
    equal); and the first collected record is the first returned. *)
Theorem X2_dedup_keeps_one_of_each :
  forall (depth : nat) (json_dumps py_repr : json -> str) (content : str)
         (collected calls : list dict),
    collect depth json_dumps py_repr content = Ok collected ->
    _parse_tool_calls depth json_dumps py_repr content = Ok calls ->
    subseq calls collected /\
    (forall c, In c collected ->
               exists c', In c' calls /\
                          identifier_eqb (identifier c) (identifier c') = true) /\
    (collected <> [] -> exists rest, calls = hd [] collected :: rest).
Proof.
  intros depth json_dumps py_repr content collected calls Hc H.
  unfold _parse_tool_calls in H. rewrite Hc in H. cbn [bind] in H.
  pose proof H as H0.
  apply dedup_kept in H as (kept & Hout & Hsub & Hcov & _).
  cbn [app] in Hout. subst kept. split; [|split].
  - assumption.
  - intros c Hin. destruct (Hcov c Hin) as [Hs|Hk]; [discriminate Hs|].
    apply existsb_exists in Hk as (x & Hx & Heq).
    apply in_map_iff in Hx as (c' & Hc' & Hin').
    exists c'. split; [assumption | now rewrite Hc'].
  - intros Hne. destruct collected as [|c0 rest]; [congruence|].
    cbn [hd]. rewrite dedup_step in H0. cbv zeta in H0.
    destruct (hashable (fst (identifier c0))); cbn [negb] in H0; [|discriminate].
    destruct (hashable (snd (identifier c0))); cbn [negb] in H0; [|discriminate].
    cbn [existsb app] in H0.
    apply dedup_kept in H0 as (kept & Hout & _). now exists kept.
Qed.

Lemma X2_dedup_keeps_one_of_each_witness :
  let call (args : json) := [(k_name, JString (u "search_company")); (k_args, args)] in
  let marked := [call (JInt 1); call (JBool true); call (JString (u "SK"));
                 call (JInt 1)] in
  let collected := marked ++ marked in
  let calls := [call (JInt 1); call (JString (u "SK"))] in
  subseq calls collected /\
  (forall c, In c collected ->
             exists c', In c' calls /\
                        identifier_eqb (identifier c) (identifier c') = true) /\
  (collected <> [] -> exists rest, calls = hd [] collected :: rest).
Proof.
  apply (X2_dedup_keeps_one_of_each Demo.depth Demo.show Demo.show
           (qq "TOOL_CALL: {'name': 'search_company', 'args': 1}
TOOL_CALL: {'name': 'search_company', 'args': true}
TOOL_CALL: {'name': 'search_company', 'args': 'SK'}
TOOL_CALL: {'name': 'search_company', 'args': 1}"));
    vm_compute; reflexivity.
Defined.

(** Records whose args are [1], [true] and [1.0] are one record to the
    de-duplication, which keeps the first. *)
Example dedup_python_equality :
  _parse_tool_calls Demo.depth Demo.show Demo.show
    (qq "TOOL_CALL: {'name': 'search_company', 'args': 1}
TOOL_CALL: {'name': 'search_company', 'args': true}
TOOL_CALL: {'name': 'search_company', 'args': 1.0}")
  = Ok [[(k_name, JString (u "search_company")); (k_args, JInt 1)]].
Proof. vm_compute. reflexivity. Qed.


(* ================================================================== *)
(** ** Routing after the parse, the result filter and the finished run *)
(* ================================================================== *)

Lemma existsb_regular (calls : list dict) :
  existsb is_regular calls = negb (forallb is_text2sql_call calls).
Proof.
  induction calls as [|c l IH]; [reflexivity|].
  cbn [existsb forallb]. rewrite IH. unfold is_regular, is_text2sql_call.
  destruct (is_text2sql (call_name c)), (forallb is_text2sql_call l); reflexivity.
Qed.

Lemma forallb_text2sql_exists (calls : list dict) :
  calls <> [] -> forallb is_text2sql_call calls = true ->
  existsb is_text2sql_call calls = true.
Proof.
  destruct calls as [|c l]; [congruence|]. intros _ H.
  cbn [forallb existsb] in *. apply andb_true_iff in H as [H _]. now rewrite H.
Qed.

(** X3.  The routing after the parse: the run goes straight to the
    generation stage exactly when no call was parsed, to the structured
    stage exactly when some call is not a text2sql call, and to the SQL
    stage exactly when there are calls and all of them are text2sql calls.
    The last branch of the function, which returns generation for a
    non-empty list, is never taken. *)
Theorem X3_should_continue_cases :
  forall st : StockSearchState,
    (should_continue st = Generation <-> tool_calls st = []) /\
    (should_continue st = Tools <-> existsb is_regular (tool_calls st) = true) /\
    (should_continue st = Text2sql <->
       tool_calls st <> [] /\ forallb is_text2sql_call (tool_calls st) = true).
Proof.
  intros st. unfold should_continue.
  destruct (tool_calls st) as [|c l] eqn:Hc.
  - repeat split; try congruence; try discriminate.
    intros [H _]. congruence.
  - pose proof (existsb_regular (c :: l)) as Hr.
    destruct (forallb is_text2sql_call (c :: l)) eqn:Hall; cbn [negb] in Hr;
      rewrite Hr.
    + rewrite (@forallb_text2sql_exists (c :: l)); [|discriminate|assumption].
      cbn [andb]. repeat split; try congruence; try discriminate.
    + destruct (existsb is_text2sql_call (c :: l)); cbn [andb];
        repeat split; try congruence; try discriminate;
        intros [_ H]; discriminate.
Qed.

Section FilterAndRuns.

Variable W : Type.
Variable E : Externals W.



Lemma tools_node_entries (w : W) (st : StockSearchState) :
  existsb is_regular (tool_calls st) = true ->
  tool_execution_results (snd (tools_node E w st)) =
    tool_execution_results st ++
      entries E (List.filter is_regular (tool_calls st))
        (outcomes E (List.filter is_regular (tool_calls st)) w) /\
  List.filter is_regular (tool_calls st) <> [].
Proof.
  intros Hex. pose proof (filter_nonempty _ _ Hex) as Hne. split; [|assumption].
  destruct (tools_node_batch E w st Hne) as [Hs _]. rewrite Hs.
  pose proof (tools_loop_spec E (List.filter is_regular (tool_calls st)) w
                (start_batch st)) as (_ & Hx & _).
  unfold write_batch. cbn [tool_execution_results with_tool_execution_results].
  exact Hx.
Qed.

Lemma text2sql_node_entries (w : W) (st : StockSearchState) :
  existsb is_text2sql_call (tool_calls st) = true ->
  tool_execution_results (snd (text2sql_node E w st)) =
    tool_execution_results st ++
      List.map sql_entry
        (sql_outcomes E (query st) (List.filter is_text2sql_call (tool_calls st)) w) /\
  List.filter is_text2sql_call (tool_calls st) <> [].
Proof.
  intros Hex. pose proof (filter_nonempty _ _ Hex) as Hne. split; [|assumption].
  destruct (text2sql_node_batch E w st Hne) as [Hs _]. rewrite Hs.
  pose proof (text2sql_loop_spec E (query st)
                (List.filter is_text2sql_call (tool_calls st)) w
                (start_batch st)) as (_ & Hx & _).
  unfold write_batch. cbn [tool_execution_results with_tool_execution_results].
  exact Hx.
Qed.

Lemma app_map_nonempty (A B : Type) (f : A -> B) (l0 : list B) (l : list A) :
  l <> [] -> l0 ++ List.map f l <> [].
Proof.
  destruct l as [|x l]; [congruence|]. intros _ H.
  apply app_eq_nil in H as [_ H]. discriminate.
Qed.

Lemma sql_entries_nonempty (q : str) (calls : list dict) (w : W) (l0 : list str) :
  calls <> [] -> l0 ++ List.map sql_entry (sql_outcomes E q calls w) <> [].
Proof.
  intros Hne. apply app_map_nonempty. intros H0.
  pose proof (sql_outcomes_length E q calls w) as Hl.
  rewrite H0 in Hl. destruct calls; [congruence | discriminate].
Qed.


(** A property that holds of the state at each node of a run holds of the
    final state. *)
Lemma invoke_from_invariant (I : node -> StockSearchState -> Prop)
      (F : StockSearchState -> Prop) :
  (forall n w st w1 s1 n',
      I n st -> run_node E n w st = (w1, Ok s1) ->
      next_node n s1 = Ok (Some n') -> I n' s1) ->
  (forall n w st w1 s1,
      I n st -> run_node E n w st = (w1, Ok s1) ->
      next_node n s1 = Ok None -> F s1) ->
  forall fuel n w st w' s visited,
    I n st -> invoke_from E fuel n w st = (w', Ok s, visited) -> F s.
Proof.
  intros Hstep Hend. induction fuel as [|f IH]; intros n w st w' s visited Hi H.
  - cbn [invoke_from] in H. inversion H.
  - rewrite invoke_from_S in H.
    destruct (run_node E n w st) as [w1 [s1|e]] eqn:Hrun; [|inversion H].
    destruct (next_node n s1) as [[n'|]|e] eqn:Hnext; [| |inversion H].
    + destruct (invoke_from E f n' w1 s1) as [[w2 r2] v2] eqn:Hrec.
      inversion H; subst. eapply IH; [|exact Hrec].
      eapply Hstep; eassumption.
    + inversion H; subst. eapply Hend; eassumption.
Qed.

(** What each node does to the counters and to the status. *)
Lemma run_node_counters (n : node) (w w1 : W) (st s1 : StockSearchState) :
  run_node E n w st = (w1, Ok s1) ->
  retry_count s1 = retry_count st /\
  iterations s1 =
    (if node_eqb n Agent_ then iterations st + 1 else iterations st)%Z /\
  (n <> Tools -> n <> Text2sql -> validation_status s1 = validation_status st).
Proof.
  destruct n; cbn [run_node node_eqb]; intros H.
  - unfold agent_node in H.
    destruct (llm_main E _ w) as [w' [reply|e]]; cbn in H; inversion H; subst.
    repeat split.
  - unfold parse_node in H.
    destruct (_parse_tool_calls _ _ _) as [calls|e]; cbn in H; inversion H; subst.
    repeat split.
  - unfold tools_node in H. destruct (List.filter is_regular (tool_calls st)).
    + inversion H; subst. repeat split. congruence.
    + destruct (tools_loop E _ w (start_batch st)) as [w' b].
      inversion H; subst. repeat split. congruence.
  - unfold text2sql_node in H.
    destruct (List.filter is_text2sql_call (tool_calls st)).
    + inversion H; subst. repeat split. congruence.
    + destruct (text2sql_loop E _ _ w (start_batch st)) as [w' b].
      inversion H; subst. repeat split. congruence.
  - inversion H; subst. repeat split.
  - inversion H as [[Hw Hf]].
    destruct (result_filter_node_result E _ Hf) as [-> | (r & ->)]; repeat split.
  - inversion H; subst. repeat split.
  - unfold generation_node in H.
    destruct (llm_main E _ w) as [w' [a|e]]; cbn in H; inversion H; subst.
    repeat split.
Qed.

End FilterAndRuns.



(** The filter of a run on a query that asks for a count of 4301 digits:
    the run ends in the filter, with the [ValueError] of the conversion. *)
Example filter_raises_in_run :
  let E := Demo.externals (Ok []) (Ok (u "final")) in
  let q := List.repeat 57%N 4301 ++ u "개" in
  let st := with_tool_execution_results [u "search_price 결과: a"]
              (with_parsed [Demo.call "search_price" "x"] (initial_state q)) in
  invoke_from E 3 FilterDecision tt st
    = (tt, Raise (ValueError (int_limit_msg 4301)), [FilterDecision; ResultFilter]).
Proof. vm_compute. reflexivity. Qed.

(** X5.  The SQL stage, for a state with at least one text2sql call: it
    calls the SQL subsystem once per text2sql call, in order, with the args
    of the call or, when the args are empty, with the query of the run; it
    appends one entry per call to the entries of the run, a result entry or
    an error entry; an exception of one call does not stop the calls after
    it; and the status it writes is tool_error when some call raised and
    success otherwise. *)
Theorem X5_sql_stage_entries :
  forall (W : Type) (E : Externals W) (w : W) (st : StockSearchState),
    let calls := List.filter is_text2sql_call (tool_calls st) in
    let os := sql_outcomes E (query st) calls w in
    let st' := snd (text2sql_node E w st) in
    existsb is_text2sql_call (tool_calls st) = true ->
    List.length os = List.length calls /\
    calls <> [] /\
    tool_execution_results st' = tool_execution_results st ++ List.map sql_entry os /\
    tool_execution_results st' <> [] /\
    result st' = join nl2 (List.map sql_entry os) /\
    messages st' = messages st ++ [mk_message AIMessage (result st')] /\
    validation_status st' = (if forallb is_ok os then success else tool_error).
Proof.
  intros W E w st calls os st' Hex.
  destruct (text2sql_node_entries E w st Hex) as [Hent Hne].
  destruct (text2sql_node_batch E w st Hne) as [Hs _].
  pose proof (text2sql_loop_spec E (query st) calls w (start_batch st))
    as (Hr & _ & Hv).
  fold calls in Hs, Hne, Hent. fold os in Hent.
  split; [apply sql_outcomes_length|].
  split; [assumption|].
  split; [exact Hent|].
  split.
  { unfold st'. rewrite Hent. now apply sql_entries_nonempty. }
  unfold st'. rewrite Hs. unfold write_batch.
  cbn [result messages validation_status with_tool_execution_results
       with_tool_results with_validation_status with_result with_messages].
  cbn [start_batch b_results app] in Hr. rewrite Hr.
  cbn [start_batch b_validation_status] in Hv. rewrite Hv.
  repeat split.
Qed.

Lemma X5_sql_stage_entries_witness :
  let st := Demo.parsed [Demo.call "text2sql" "market average"; Demo.call "text2sql" ""] in
  let st' := snd (text2sql_node Demo.quiet tt st) in
  tool_execution_results st' =
    [u "text2sql 결과: rows for market average"; u "text2sql 결과: rows for q"] /\
  validation_status st' = success.
Proof.
  intros st st'.
  pose proof (@X5_sql_stage_entries unit Demo.quiet tt st) as H.
  cbv zeta in H.
  destruct (H ltac:(vm_compute; reflexivity)) as (_ & _ & Hent & _ & _ & _ & Hv).
  split.
  - unfold st'. rewrite Hent. vm_compute. reflexivity.
  - unfold st'. rewrite Hv. vm_compute. reflexivity.
Defined.



(** X7.  What a finished run reports.  When the graph returns a state for a
    query, that state still carries the query, its retry count is 0 and its
    iteration count is 1 (no node ever writes the retry count, and the model
    is asked for calls once); and [clarification_needed] is true exactly when
    the status is param_missing. *)
Theorem X7_finished_run_summary :
  forall (W : Type) (E : Externals W) (q : str) (w w' : W) (s : StockSearchState)
         (visited : list node),
    graph_invoke E w (initial_state q) = (w', Ok s, visited) ->
    query s = q /\ retry_count s = 0%Z /\ iterations s = 1%Z /\
    (clarification_needed s = true <-> validation_status s = param_missing).
Proof.
  intros W E q w w' s visited H.
  set (Inv := fun (n : node) (st : StockSearchState) =>
              query st = q /\ retry_count st = 0%Z /\
              clarification_needed st = false /\
              iterations st = (if node_eqb n Agent_ then 0 else 1)%Z /\
              match n with
              | Agent_ | Parse => validation_status st = pending
              | Clarifier => validation_status st = param_missing
              | FilterDecision | ResultFilter | Generation =>
                  validation_status st <> param_missing
              | Tools | Text2sql => True
              end).
  set (Fin := fun st : StockSearchState =>
              query st = q /\ retry_count st = 0%Z /\ iterations st = 1%Z /\
              ((clarification_needed st = true /\ validation_status st = param_missing)
               \/ (clarification_needed st = false
                   /\ validation_status st <> param_missing))).
  assert (HF : Fin s).
  { refine (@invoke_from_invariant W E Inv Fin _ _ recursion_limit Agent_ w
              (initial_state q) w' s visited _ H).
    - intros n w0 st w1 s1 n' (Hq & Hr & Hc & Hi & Hv) Hrun Hnext.
      pose proof Hrun as Hk. apply run_node_keeps in Hk as [Hq1 Hc1].
      pose proof Hrun as Hk. apply run_node_counters in Hk as (Hr1 & Hi1 & Hv1).
      pose proof (@next_node_edge W E _ _ _ _ _ _ Hrun Hnext) as Hedge.
      unfold Inv. rewrite Hq1, Hr1, Hq, Hr.
      assert (Hn : n <> Clarifier) by (intros ->; discriminate Hnext).
      rewrite (Hc1 Hn), Hc.
      repeat split.
      + rewrite Hi1, Hi. destruct n, n'; try discriminate Hedge; reflexivity.
      + destruct n; cbn [next_node] in Hnext.
        * inversion Hnext; subst. rewrite Hv1; [assumption|discriminate|discriminate].
        * inversion Hnext; subst.
          rewrite <- Hv1 in Hv; [|discriminate|discriminate].
          destruct (should_continue s1); try exact I; try congruence.
          discriminate Hedge.
        * inversion Hnext; subst. unfold after_tools_routing in *.
          rewrite Hr1, Hr in *. cbn [Z.ltb Z.compare] in *.
          rewrite andb_true_r in *.
          destruct (status_eqb (validation_status s1) param_missing) eqn:Hs.
          -- destruct (validation_status s1); try discriminate Hs. reflexivity.
          -- destruct (existsb is_text2sql_call (tool_calls s1)); [exact I|].
             intros Hpm. rewrite Hpm in Hs. discriminate Hs.
        * inversion Hnext; subst.
          cbn [run_node] in Hrun.
          pose proof (text2sql_node_status E w0 st) as Hst.
          pose proof (after_text2sql_never_clarifies E w0 st) as Hrt.
          destruct (text2sql_node E w0 st) as [wx sx]. inversion Hrun; subst.
          cbn [snd] in *. rewrite Hrt. destruct Hst as [Hst|Hst]; rewrite Hst; discriminate.
        * cbn [run_node] in Hrun. inversion Hrun; subst.
          unfold should_filter_results in Hnext.
          destruct (needs_filtering (tool_calls s1)) as [[|]|e]; cbn [bind] in Hnext;
            inversion Hnext; subst; assumption.
        * inversion Hnext; subst. rewrite Hv1; [assumption|discriminate|discriminate].
        * discriminate Hnext.
        * discriminate Hnext.
    - intros n w0 st w1 s1 (Hq & Hr & Hc & Hi & Hv) Hrun Hnext.
      pose proof Hrun as Hk. apply run_node_keeps in Hk as [Hq1 Hc1].
      pose proof Hrun as Hk. apply run_node_counters in Hk as (Hr1 & Hi1 & Hv1).
      unfold Fin. rewrite Hq1, Hr1, Hq, Hr.
      pose proof Hnext as Hk. apply next_node_end in Hk as [-> | ->].
      + repeat split.
        * rewrite Hi1. exact Hi.
        * left. cbn [run_node] in Hrun. inversion Hrun; subst. split; [reflexivity|].
          exact Hv.
      + repeat split.
        * rewrite Hi1. exact Hi.
        * right. rewrite Hc1; [|discriminate].
          rewrite Hv1; [|discriminate|discriminate]. split; assumption.
    - unfold Inv. cbn. repeat split. }
  destruct HF as (Hq & Hr & Hi & Hcases). repeat split; try assumption.
  - intros Hc. destruct Hcases as [[_ Hv]|[Hc' _]]; [assumption|congruence].
  - intros Hv. destruct Hcases as [[Hc _]|[_ Hv']]; [assumption|congruence].
Qed.

Lemma X7_finished_run_summary_witness :
  let reply := qq "TOOL_CALL: {'name': 'get_stock_price', 'args': 'when'}" in
  let E := Demo.externals (Ok reply) (Ok (u "final")) in
  exists w' s visited,
    graph_invoke E tt (initial_state (u "q")) = (w', Ok s, visited) /\
    query s = u "q" /\ retry_count s = 0%Z /\ iterations s = 1%Z /\
    (clarification_needed s = true <-> validation_status s = param_missing).
Proof.
  intros reply E.
  destruct (graph_invoke E tt (initial_state (u "q"))) as [[w' [s|e]] visited] eqn:H.
  - exists w', s, visited. split; [reflexivity|].
    exact (@X7_finished_run_summary unit E (u "q") tt w' s visited H).
  - vm_compute in H. discriminate H.
Defined.


(* ================================================================== *)
(** ** Replies without calls, and what each execution stage reaches *)
(* ================================================================== *)

Section BraceFacts.

Variable A : Type.

(** A successful match hands its continuation a suffix of the text it
    started from. *)
Lemma go_suffix (r : re) :
  forall pos s cs (k : nat -> str -> caps -> option A) x,
    go r pos s cs k = Some x ->
    exists pos' s' cs' pre, s = pre ++ s' /\ k pos' s' cs' = Some x.
Proof.
  induction r as [|c|p|r1 IH1 r2 IH2|r1 IH1 r2 IH2|r1 IH1|i r1 IH1|];
    intros pos s cs k x H; cbn [go] in H.
  - now exists pos, s, cs, [].
  - destruct s as [|y s']; [discriminate|].
    destruct (N.eqb y c); [|discriminate].
    now exists (S pos), s', cs, [y].
  - destruct s as [|y s']; [discriminate|].
    destruct (p y); [|discriminate].
    now exists (S pos), s', cs, [y].
  - apply IH1 in H as (p1 & s1 & c1 & pre1 & Hs1 & H).
    apply IH2 in H as (p2 & s2 & c2 & pre2 & Hs2 & H).
    exists p2, s2, c2, (pre1 ++ pre2). split; [|assumption].
    subst. now rewrite app_assoc.
  - destruct (go r1 pos s cs k) eqn:H1.
    + inversion H; subst. now apply IH1 in H1.
    + now apply IH2 in H.
  - remember (List.length s) as n eqn:Hn in H. clear Hn.
    revert pos s cs H. induction n as [|n IHn]; intros pos s cs H.
    + now exists pos, s, cs, [].
    + match type of H with
      | match ?g with _ => _ end = _ => destruct g eqn:H1
      end.
      * inversion H; subst.
        apply IH1 in H1 as (p1 & s1 & c1 & pre1 & Hs1 & H1).
        destruct (Nat.ltb pos p1) eqn:Hlt; [|discriminate].
        apply IHn in H1 as (p2 & s2 & c2 & pre2 & Hs2 & H1).
        exists p2, s2, c2, (pre1 ++ pre2). split; [|assumption].
        subst. now rewrite app_assoc.
      * now exists pos, s, cs, [].
  - apply IH1 in H as (p1 & s1 & c1 & pre1 & Hs1 & H).
    now exists p1, s1, ((i, firstn (p1 - pos) s) :: c1), pre1.
  - destruct (Nat.eqb pos 0); [|discriminate]. now exists pos, s, cs, [].
Qed.

Lemma go_needs_brace (r : re) :
  needs_brace r = true ->
  forall pos s cs (k : nat -> str -> caps -> option A) x,
    go r pos s cs k = Some x -> In 123%N s.
Proof.
  induction r as [|c|p|r1 IH1 r2 IH2|r1 IH1 r2 IH2|r1 IH1|i r1 IH1|];
    cbn [needs_brace]; intros Hn pos s cs k x H; try discriminate.
  - cbn [go] in H. destruct s as [|y s']; [discriminate|].
    destruct (N.eqb y c) eqn:Hy; [|discriminate].
    apply N.eqb_eq in Hy, Hn. subst. now left.
  - cbn [go] in H. destruct (needs_brace r1) eqn:Hn1.
    + now apply (IH1 eq_refl) in H.
    + cbn [orb] in Hn.
      apply go_suffix in H as (p1 & s1 & c1 & pre1 & Hs1 & H).
      apply (IH2 Hn) in H. subst. apply in_or_app. now right.
  - cbn [go] in H. apply andb_true_iff in Hn as [Hn1 Hn2].
    destruct (go r1 pos s cs k) eqn:H1.
    + now apply (IH1 Hn1) in H1.
    + now apply (IH2 Hn2) in H.
  - cbn [go] in H. now apply (IH1 Hn) in H.
Qed.

End BraceFacts.

Lemma search_from_needs_brace (r : re) :
  needs_brace r = true ->
  forall s pos, ~ In 123%N s -> search_from r pos s = None.
Proof.
  intros Hn. induction s as [|y s IH]; intros pos Hno; cbn [search_from].
  - destruct (match_at r pos []) eqn:Hm; [|reflexivity].
    unfold match_at in Hm. apply (go_needs_brace _ Hn) in Hm. contradiction.
  - destruct (match_at r pos (y :: s)) eqn:Hm.
    + unfold match_at in Hm. apply (go_needs_brace _ Hn) in Hm. contradiction.
    + apply IH. intros Hin. apply Hno. now right.
Qed.

Lemma finditer_needs_brace (r : re) (s : str) :
  needs_brace r = true -> ~ In 123%N s -> finditer r s = [].
Proof.
  intros Hn Hno. unfold finditer. cbn [finditer_from].
  now rewrite (@search_from_needs_brace r Hn s 0 Hno).
Qed.

(** X8.  A reply in which no opening brace occurs yields no tool call, and
    the parser does not raise on it: none of the five patterns can match
    without an opening brace. *)
Theorem X8_no_brace_no_calls :
  forall (depth : nat) (json_dumps py_repr : json -> str) (content : str),
    ~ In 123%N content ->
    _parse_tool_calls depth json_dumps py_repr content = Ok [].
Proof.
  intros depth json_dumps py_repr content Hno.
  unfold _parse_tool_calls, collect, findall1, findall_groups.
  rewrite (@finditer_needs_brace pattern1 content eq_refl Hno).
  rewrite (@finditer_needs_brace pattern2 content eq_refl Hno).
  rewrite (@finditer_needs_brace pattern3 content eq_refl Hno).
  rewrite (@finditer_needs_brace pattern4 content eq_refl Hno).
  rewrite (@finditer_needs_brace pattern5 content eq_refl Hno).
  reflexivity.
Qed.

Lemma X8_no_brace_no_calls_witness :
  _parse_tool_calls Demo.depth Demo.show Demo.show
    (u "TOOL_CALL: get_stock_price(삼성전자)") = Ok [].
Proof.
  apply X8_no_brace_no_calls.
  vm_compute. intros H.
  repeat (destruct H as [H|H]; [discriminate H|]). exact H.
Defined.

Section NoCalls.

Variable W : Type.
Variable E : Externals W.

Lemma run_without_calls (q : str) (w w1 : W) (reply : str) :
  llm_main E (agent_prompt E q w) w = (w1, Ok reply) ->
  _parse_tool_calls (json_depth E) (json_dumps E) (py_repr E) reply = Ok [] ->
  exists s_gen,
    graph_invoke E w (initial_state q)
      = (generation_node E w1 s_gen, [Agent_; Parse; Generation]) /\
    generation_tool_result s_gen = [] /\ query s_gen = q /\
    messages s_gen = [mk_message HumanMessage q; mk_message AIMessage reply].
Proof.
  intros Hllm Hparse.
  set (s1 := with_iterations (iterations (initial_state q) + 1)
               (with_messages
                  (messages (initial_state q) ++
                     [mk_message HumanMessage q; mk_message AIMessage reply])
                  (initial_state q))).
  set (s2 := with_parsed [] s1).
  assert (Hrun1 : run_node E Agent_ w (initial_state q) = (w1, Ok s1)).
  { cbn [run_node]. unfold agent_node. cbn [query initial_state].
    rewrite Hllm. reflexivity. }
  assert (Hrun2 : run_node E Parse w1 s1 = (w1, Ok s2)).
  { cbn [run_node]. unfold parse_node.
    change (first_ai_content (rev (messages s1))) with reply.
    rewrite Hparse. reflexivity. }
  exists s2. split; [|repeat split].
  unfold graph_invoke, recursion_limit.
  rewrite (invoke_from_next E _ _ _ _ Hrun1
             (eq_refl : next_node Agent_ s1 = Ok (Some Parse))).
  rewrite (invoke_from_next E _ _ _ _ Hrun2
             (eq_refl : next_node Parse s2 = Ok (Some Generation))).
  rewrite invoke_from_generation. reflexivity.
Qed.

End NoCalls.

(** X9.  When no call is parsed from the model's reply, the run is agent,
    parse, generation, and the reply itself is not the answer: the model is
    asked a second time, with a generation prompt whose tool result is
    empty, and [search] returns that second output, or the error text when
    the second request raises. *)
Theorem X9_reply_without_calls :
  forall (W : Type) (E : Externals W) (q : str) (w w1 : W) (reply : str),
    llm_main E (agent_prompt E q w) w = (w1, Ok reply) ->
    _parse_tool_calls (json_depth E) (json_dumps E) (py_repr E) reply = Ok [] ->
    let second := llm_main E (generation_prompt E q []) w1 in
    snd (graph_invoke E w (initial_state q)) = [Agent_; Parse; Generation] /\
    search E q false w =
      (fst second,
       Text (match snd second with
             | Ok final_answer => final_answer
             | Raise e => error_msg e
             end)).
Proof.
  intros W E q w w1 reply Hllm Hparse second.
  destruct (run_without_calls E q w Hllm Hparse) as (s_gen & Hrun & Htool & Hq & _).
  split; [now rewrite Hrun|].
  unfold search. rewrite Hrun. unfold generation_node. rewrite Htool, Hq.
  unfold second.
  destruct (llm_main E (generation_prompt E q []) w1) as [w2 [a|e]];
    cbn [bind fst snd andb result with_result]; reflexivity.
Qed.

Lemma X9_reply_without_calls_witness :
  let E := Demo.externals (Ok (u "삼성전자는 좋은 회사입니다.")) (Ok (u "second")) in
  snd (graph_invoke E tt (initial_state (u "q"))) = [Agent_; Parse; Generation] /\
  search E (u "q") false tt = (tt, Text (u "second")).
Proof.
  intros E.
  apply (@X9_reply_without_calls unit E (u "q") tt tt (u "삼성전자는 좋은 회사입니다."));
    vm_compute; reflexivity.
Defined.

Lemma find_tool_name (n : json) (t : str) :
  find_tool n = Some t -> n = JString t /\ In t tool_mappings_keys.
Proof.
  destruct n; cbn [find_tool]; try discriminate.
  intros H. apply find_some in H as [Hin Heq].
  apply str_eqb_eq in Heq. subst. now split.
Qed.

Section Separation.

Variable W : Type.
Variable E : Externals W.
Variable f : str -> json -> W -> W * may_raise str.

Hypothesis f_agrees :
  forall t a w, str_eqb t text2sql = false -> f t a w = tool_func E t a w.

Lemma tools_step_separate (call : dict) (w : W) (b : batch) :
  is_regular call = true ->
  tools_step (with_tool_func f E) call w b = tools_step E call w b.
Proof.
  intros Hreg. unfold tools_step.
  destruct (find_tool (call_name call)) as [t|] eqn:Hf; [|reflexivity].
  apply find_tool_name in Hf as [Hn _].
  unfold is_regular in Hreg. rewrite Hn in Hreg. cbn [is_text2sql] in Hreg.
  apply negb_true_iff in Hreg.
  change (tool_func (with_tool_func f E)) with f.
  rewrite (f_agrees _ _ _ Hreg). reflexivity.
Qed.

Lemma tools_loop_separate (calls : list dict) :
  forall w b,
    forallb is_regular calls = true ->
    tools_loop (with_tool_func f E) calls w b = tools_loop E calls w b.
Proof.
  induction calls as [|c l IH]; intros w b Hall; [reflexivity|].
  cbn [forallb] in Hall. apply andb_true_iff in Hall as [Hc Hl].
  cbn [tools_loop]. rewrite (tools_step_separate _ _ _ Hc).
  destruct (tools_step E c w b) as [w' b']. now apply IH.
Qed.

Lemma tools_node_separate (w : W) (st : StockSearchState) :
  tools_node (with_tool_func f E) w st = tools_node E w st.
Proof.
  unfold tools_node.
  assert (Hall : forallb is_regular (List.filter is_regular (tool_calls st)) = true).
  { apply forallb_forall. intros x Hx. now apply filter_In in Hx. }
  destruct (List.filter is_regular (tool_calls st)) as [|c l]; [reflexivity|].
  now rewrite (tools_loop_separate _ _ _ Hall).
Qed.

End Separation.

(** X10.  The two execution stages do not reach each other's collaborators.
    The structured stage never invokes the tool registered under the name
    text2sql: replacing that tool by anything leaves the stage as it is.
    The SQL stage invokes no tool at all, and the structured stage never
    reaches the SQL subsystem. *)
Theorem X10_stages_are_separate :
  forall (W : Type) (E : Externals W)
         (f : str -> json -> W -> W * may_raise str)
         (g : json -> W -> W * may_raise str)
         (w : W) (st : StockSearchState),
    (forall t a w0, str_eqb t text2sql = false -> f t a w0 = tool_func E t a w0) ->
    tools_node (with_tool_func f E) w st = tools_node E w st /\
    text2sql_node (with_tool_func f E) w st = text2sql_node E w st /\
    tools_node (with_execute_text2sql g E) w st = tools_node E w st.
Proof.
  intros W E f g w st Hf. split; [|split].
  - now apply tools_node_separate.
  - reflexivity.
  - reflexivity.
Qed.

Lemma X10_stages_are_separate_witness :
  let f := fun (t : str) (a : json) (w : unit) =>
             if str_eqb t text2sql then (w, Raise (External (u "never called")))
             else Demo.handler t a w in
  let st := Demo.parsed [Demo.call "text2sql" "a"; Demo.call "search_company" "b"] in
  tools_node (with_tool_func f Demo.quiet) tt st = tools_node Demo.quiet tt st.
Proof.
  intros f st.
  refine (proj1 (@X10_stages_are_separate unit Demo.quiet f
                   (fun q w => (w, Ok (Demo.show q))) tt st _)).
  intros t a w0 Ht. unfold f. rewrite Ht. reflexivity.
Defined.


(* ================================================================== *)
(** ** The tools of the query parser *)
(* ================================================================== *)

Lemma In_lstrip (c : N) (s : str) : In c (lstrip s) -> In c s.
Proof.
  induction s as [|x s IH]; cbn [lstrip]; [tauto|].
  destruct (isspace x); [|tauto]. intros H. right. now apply IH.
Qed.

Lemma In_strip (c : N) (s : str) : In c (strip s) -> In c s.
Proof.
  unfold strip, rstrip. intros H.
  apply in_rev, In_lstrip, in_rev in H. now apply In_lstrip.
Qed.

Lemma find_map (A B : Type) (f : A -> B) (p : B -> bool) (l : list A) :
  List.find p (List.map f l) = option_map f (List.find (fun a => p (f a)) l).
Proof.
  induction l as [|a l IH]; [reflexivity|].
  cbn [List.map List.find]. destruct (p (f a)); [reflexivity | exact IH].
Qed.

Section ParserTools.

Variable depth : nat.
Variable W : Type.
Variable llm : str -> W -> W * may_raise str.
Variable B : QueryParser.Backends W.
Variable py_repr : json -> str.

Lemma tool_mappings_names :
  List.map fst (QueryParser.tool_mappings depth llm B py_repr) = tool_mappings_keys.
Proof. reflexivity. Qed.

(** The extraction when the reply holds no brace and decodes to a value
    that is no [dict]. *)
Lemma extract_no_dict (query : json) (schema rules : str) (w w1 : W)
      (reply : str) (v : json) :
  (forall prompt, llm prompt w = (w1, Ok reply)) ->
  ~ In 123%N reply ->
  loads depth (strip reply) = Ok v ->
  QueryParser.extract depth llm py_repr query schema rules w = (w1, v).
Proof.
  intros Hllm Hno Hv.
  unfold QueryParser.extract, Extractor._extract_parameters, Extractor.try_block.
  rewrite Hllm. cbn [bind]. unfold Extractor.parse_reply, Re.search.
  rewrite (@search_from_needs_brace Extractor.span_pattern eq_refl (strip reply) 0).
  - now rewrite Hv.
  - intros Hin. apply Hno. now apply In_strip.
Qed.

(** The extraction when the model raises or its reply cannot be
    decoded. *)
Lemma extract_failed (query : json) (schema rules : str) (w w1 : W)
      (r : may_raise str) :
  (forall prompt, llm prompt w = (w1, r)) ->
  (exists e, bind r (Extractor.parse_reply depth) = Raise e) ->
  QueryParser.extract depth llm py_repr query schema rules w = (w1, JObject []).
Proof.
  intros Hllm Hr.
  unfold QueryParser.extract, Extractor._extract_parameters, Extractor.try_block.
  rewrite Hllm. destruct Hr as [e Hr]. now rewrite Hr.
Qed.

Lemma extract_dict (query : json) (schema rules : str) (w w1 : W)
      (reply : str) (v : json) :
  (forall prompt, llm prompt w = (w1, Ok reply)) ->
  Extractor.parse_reply depth reply = Ok v ->
  QueryParser.extract depth llm py_repr query schema rules w = (w1, v).
Proof.
  intros Hllm Hv.
  unfold QueryParser.extract, Extractor._extract_parameters, Extractor.try_block.
  rewrite Hllm. cbn [bind]. now rewrite Hv.
Qed.

Lemma on_dict_no_dict (v : json) (w : W)
      (k : dict -> W * outcome str) :
  (forall d, v <> JObject d) ->
  QueryParser.on_dict v w k
    = (w, Failed
            (AttributeError (QueryParser.no_attribute_get v))).
Proof.
  intros Hv. destruct v; try reflexivity. now destruct (Hv m).
Qed.

Lemma tool_func_of_find_tool (n : json) :
  QueryParser.tool_func_of depth llm B py_repr n =
    match find_tool n with
    | Some t => Some (QueryParser.parse_and_execute depth llm B py_repr t)
    | None => None
    end.
Proof.
  destruct n; try reflexivity.
  unfold QueryParser.tool_func_of, QueryParser._create_tools, find_tool.
  rewrite find_map, tool_mappings_names. cbn [QueryParser.name].
  destruct (List.find (fun a => str_eqb a s) tool_mappings_keys); reflexivity.
Qed.

Lemma lookup_tool_mappings :
  Forall (fun kh => QueryParser.lookup (fst kh) (QueryParser.tool_mappings depth llm B py_repr)
                    = Some (snd kh))
         (QueryParser.tool_mappings depth llm B py_repr).
Proof. repeat constructor. Qed.

Lemma lookup_registered (t : str) :
  In t tool_mappings_keys ->
  exists h, In (t, h) (QueryParser.tool_mappings depth llm B py_repr) /\
            QueryParser.lookup t (QueryParser.tool_mappings depth llm B py_repr) = Some h.
Proof.
  rewrite <- tool_mappings_names. intros Hin.
  apply in_map_iff in Hin as ([t' h] & Ht & Hin). cbn [fst] in Ht. subst t'.
  exists h. split; [assumption|].
  pose proof lookup_tool_mappings as Hall.
  rewrite Forall_forall in Hall. exact (Hall _ Hin).
Qed.

Lemma handler_no_dict (t : str) (h : json -> W -> W * outcome str)
      (q : json) (w w1 : W) (reply : str) (v : json) :
  In (t, h) (QueryParser.tool_mappings depth llm B py_repr) ->
  t <> u "search_company" -> t <> u "text2sql" ->
  (forall prompt, llm prompt w = (w1, Ok reply)) ->
  ~ In 123%N reply ->
  loads depth (strip reply) = Ok v ->
  (forall d, v <> JObject d) ->
  h q w = (w1, Failed
                 (AttributeError (QueryParser.no_attribute_get v))).
Proof.
  intros Hin Hc Hs Hllm Hno Hv Hnd.
  unfold QueryParser.tool_mappings in Hin. cbn [In] in Hin.
  repeat (destruct Hin as [Hin|Hin];
          [ inversion Hin; subst t h; try (now destruct Hc); try (now destruct Hs);
            cbv delta [QueryParser._handle_stock_price QueryParser._handle_market_stats
                       QueryParser._handle_market_index QueryParser._handle_price_search
                       QueryParser._handle_price_change_search
                       QueryParser._handle_volume_search
                       QueryParser._handle_trading_ranking
                       QueryParser._handle_rsi_signals
                       QueryParser._handle_bollinger_signals
                       QueryParser._handle_ma_breakout QueryParser._handle_volume_surge
                       QueryParser._handle_cross_signals QueryParser._handle_cross_count
                       QueryParser._handle_compound_search] beta;
            erewrite extract_no_dict by eassumption;
            now apply on_dict_no_dict
          | ]).
  destruct Hin.
Qed.

Lemma described (names : list str) :
  forallb (fun n => match QueryParser.lookup n QueryParser.descriptions with
                    | Some _ => true
                    | None => false
                    end) names = true ->
  Forall (fun tool : QueryParser.Tool W =>
            QueryParser.lookup (QueryParser.name tool) QueryParser.descriptions
            = Some (QueryParser.description tool))
         (List.map
            (fun tool_name : str =>
               QueryParser.mk_Tool tool_name
                 (match QueryParser.lookup tool_name QueryParser.descriptions with
                  | Some text => text
                  | None => tool_name ++ u " 도구"
                  end)
                 (fun query => QueryParser.parse_and_execute depth llm B py_repr tool_name query))
            names).
Proof.
  induction names as [|n l IH]; cbn [forallb List.map]; intros H; constructor.
  - cbn [QueryParser.name QueryParser.description].
    destruct (QueryParser.lookup n QueryParser.descriptions); [reflexivity|discriminate].
  - apply IH. destruct (QueryParser.lookup n QueryParser.descriptions);
      [exact H | discriminate].
Qed.

End ParserTools.

(** X11.  A reply of the parameter model that is valid JSON but no object,
    such as a number, a string, a list or null, makes every tool that
    extracts parameters fail in the same way: the value is returned by the
    extractor as it is, the first [params.get] raises an AttributeError,
    no query function is called, and [parse_and_execute] reports the error
    as text under the name of the tool. *)
Theorem X11_reply_that_is_no_dict :
  forall (depth : nat) (W : Type) (llm : str -> W -> W * may_raise str)
         (B : QueryParser.Backends W) (py_repr : json -> str)
         (t : str) (q : json) (w w1 : W) (reply : str) (v : json),
    In t tool_mappings_keys ->
    t <> u "search_company" -> t <> u "text2sql" ->
    (forall prompt, llm prompt w = (w1, Ok reply)) ->
    ~ In 123%N reply ->
    loads depth (strip reply) = Ok v ->
    (forall d, v <> JObject d) ->
    QueryParser.parse_and_execute depth llm B py_repr t q w =
      (w1, Ok (t ++ u " 실행 중 오류: " ++ QueryParser.no_attribute_get v)).
Proof.
  intros depth W llm B py_repr t q w w1 reply v Hin Hc Hs Hllm Hno Hv Hnd.
  destruct (@lookup_registered depth W llm B py_repr t Hin) as (h & Hh & Hl).
  unfold QueryParser.parse_and_execute, QueryParser.parse_and_execute_body.
  rewrite Hl.
  rewrite (@handler_no_dict depth W llm B py_repr t h q w w1 reply v Hh Hc Hs Hllm Hno Hv Hnd).
  reflexivity.
Qed.

Lemma X11_reply_that_is_no_dict_witness :
  QueryParser.parse_and_execute Demo.depth (DemoTools.llm (Ok (u "[1, 2]")))
    DemoTools.backends
    Demo.show (u "get_rsi_signals") (JString (u "RSI 70 이상")) tt
  = (tt, Ok (u "get_rsi_signals" ++ u " 실행 중 오류: "
               ++ QueryParser.no_attribute_get (JArray [JInt 1; JInt 2]))).
Proof.
  apply (@X11_reply_that_is_no_dict Demo.depth unit (DemoTools.llm (Ok (u "[1, 2]")))
           DemoTools.backends Demo.show (u "get_rsi_signals")
           (JString (u "RSI 70 이상")) tt tt (u "[1, 2]") (JArray [JInt 1; JInt 2])).
  - vm_compute. do 8 right. left. reflexivity.
  - vm_compute. discriminate.
  - vm_compute. discriminate.
  - reflexivity.
  - vm_compute. intros H.
    repeat (destruct H as [H|H]; [discriminate H|]). exact H.
  - vm_compute. reflexivity.
  - intros d H. discriminate H.
Defined.



(** A reply of the parameter model that is a list: the stock price tool
    makes no call and answers with the error text. *)
Example stock_price_reply_no_dict :
  QueryParser.parse_and_execute Demo.depth (DemoTools.llm (Ok (u "[1, 2]")))
    DemoTools.backends Demo.show (u "get_stock_price") (JString (u "삼성전자 주가")) tt
  = (tt, Ok (u "get_stock_price 실행 중 오류: "
               ++ QueryParser.no_attribute_get (JArray [JInt 1; JInt 2]))).
Proof. vm_compute. reflexivity. Qed.

Lemma distinct_strs_NoDup (l : list str) : distinct_strs l = true -> NoDup l.
Proof.
  induction l as [|x l IH]; cbn [distinct_strs]; intros H; constructor.
  - apply andb_true_iff in H as [H _]. apply negb_true_iff in H.
    intros Hin. assert (Hex : existsb (str_eqb x) l = true).
    { apply existsb_exists. exists x. split; [assumption | apply str_eqb_refl]. }
    congruence.
  - apply andb_true_iff in H as [_ H]. now apply IH.
Qed.

(** X13.  The tools that [_create_tools] makes.  There is one tool per key
    of the handler table, sixteen in all, in the order of the table; no two
    have the same name, so the search by name of the structured stage finds
    at most one; each has a description of its own (the fallback text is
    never used); and the function that the stage finds under a name is
    [parse_and_execute] for that very name, a name that is no string or no
    key finding nothing. *)
Theorem X13_tools_by_name :
  forall (depth : nat) (W : Type) (llm : str -> W -> W * may_raise str)
         (B : QueryParser.Backends W) (py_repr : json -> str),
    let tools := QueryParser._create_tools depth llm B py_repr in
    List.map (@QueryParser.name W) tools = tool_mappings_keys /\
    List.length tools = 16%nat /\
    NoDup (List.map (@QueryParser.name W) tools) /\
    Forall (fun tool =>
              QueryParser.lookup (QueryParser.name tool) QueryParser.descriptions
              = Some (QueryParser.description tool)) tools /\
    (forall n : json,
        QueryParser.tool_func_of depth llm B py_repr n =
          match find_tool n with
          | Some t => Some (QueryParser.parse_and_execute depth llm B py_repr t)
          | None => None
          end) /\
    (forall (n : json) (t : str),
        find_tool n = Some t -> n = JString t /\ In t tool_mappings_keys).
Proof.
  intros depth W llm B py_repr tools.
  assert (Hnames : List.map (@QueryParser.name W) tools = tool_mappings_keys)
    by reflexivity.
  split; [exact Hnames|]. split; [reflexivity|]. split; [|split; [|split]].
  - rewrite Hnames. apply distinct_strs_NoDup. vm_compute. reflexivity.
  - unfold tools, QueryParser._create_tools. rewrite tool_mappings_names.
    apply described. vm_compute. reflexivity.
  - intros n. apply tool_func_of_find_tool.
  - intros n t. apply find_tool_name.
Qed.

Section WiredFacts.

Variable W : Type.
Variable E : Externals W.
Variable extractor_depth : nat.
Variable llm_simple : str -> W -> W * may_raise str.
Variable B : QueryParser.Backends W.
Variable py_upper : str -> str.
Variable sql_prompt : json -> str.
Variable DataFrame : Type.
Variable _execute_sql : str -> W -> W * may_raise DataFrame.
Variable _format_results : DataFrame -> json -> may_raise str.

Lemma parse_and_execute_returns (t : str) (q : json) (w : W) :
  exists w' text,
    QueryParser.parse_and_execute extractor_depth llm_simple B (py_repr E) t q w = (w', Ok text).
Proof.
  unfold QueryParser.parse_and_execute.
  destruct (QueryParser.parse_and_execute_body extractor_depth llm_simple B (py_repr E) t q w)
    as [w' [text|e]]; eauto.
Qed.

Lemma execute_text2sql_returns (q : json) (w : W) :
  exists w' text,
    Text2SQL.execute_text2sql py_upper (llm_main E) sql_prompt _execute_sql
      _format_results q w = (w', Ok text).
Proof.
  unfold Text2SQL.execute_text2sql.
  destruct (Text2SQL.execute_text2sql_body py_upper (llm_main E) sql_prompt
              _execute_sql _format_results q w) as [w' [text|e]]; eauto.
Qed.

Lemma wired_outcomes (calls : list dict) :
  forall w,
    Forall (fun o => o = None \/ exists text, o = Some (Ok text)) (outcomes (wired E extractor_depth llm_simple B py_upper sql_prompt _execute_sql _format_results) calls w).
Proof.
  induction calls as [|c l IH]; intros w; cbn [outcomes]; [constructor|].
  destruct (find_tool (call_name c)) as [t|].
  - change (tool_func (wired E extractor_depth llm_simple B py_upper sql_prompt _execute_sql _format_results)) with
      (fun tool_name => QueryParser.parse_and_execute extractor_depth llm_simple B (py_repr E) tool_name).
    cbv beta.
    destruct (parse_and_execute_returns t (call_args c) w) as (w' & text & ->).
    constructor; [right; now exists text | apply IH].
  - constructor; [now left | apply IH].
Qed.

Lemma wired_sql_outcomes (q : str) (calls : list dict) :
  forall w, Forall (fun o => exists text, o = Ok text) (sql_outcomes (wired E extractor_depth llm_simple B py_upper sql_prompt _execute_sql _format_results) q calls w).
Proof.
  induction calls as [|c l IH]; intros w; cbn [sql_outcomes]; [constructor|].
  change (execute_text2sql (wired E extractor_depth llm_simple B py_upper sql_prompt _execute_sql _format_results)) with
    (Text2SQL.execute_text2sql py_upper (llm_main E) sql_prompt _execute_sql
       _format_results).
  destruct (execute_text2sql_returns
              (if truthy (call_args c) then call_args c
               else JString q) w) as (w' & text & ->).
  constructor; [now exists text | apply IH].
Qed.

Lemma outcomes_unknown (calls : list dict) :
  forall w, In None (outcomes (wired E extractor_depth llm_simple B py_upper sql_prompt _execute_sql _format_results) calls w) ->
            exists call, In call calls /\ find_tool (call_name call) = None.
Proof.
  induction calls as [|c l IH]; intros w; cbn [outcomes]; [intros []|].
  destruct (find_tool (call_name c)) as [t|] eqn:Hf.
  - destruct (tool_func (wired E extractor_depth llm_simple B py_upper sql_prompt _execute_sql _format_results) t (call_args c) w) as [w' r]. intros [H|H]; [discriminate|].
    destruct (IH _ H) as (call & Hin & Hc). exists call. split; [now right | assumption].
  - intros _. exists c. split; [now left | assumption].
Qed.

Lemma last_write_In (l : list (option status)) :
  forall init s, last_write l init = s -> s = init \/ In (Some s) l.
Proof.
  induction l as [|x l IH]; intros init s H.
  - cbn in H. now left.
  - rewrite last_write_cons in H. apply IH in H as [H|H].
    + destruct x as [s'|]; [right; left; now subst | now left].
    + right. now right.
Qed.

Lemma wired_stages (w : W) (st : StockSearchState) :
  (validation_status (snd (tools_node (wired E extractor_depth llm_simple B py_upper sql_prompt _execute_sql _format_results) w st)) = tool_error ->
   exists call, In call (tool_calls st) /\ is_regular call = true /\
                find_tool (call_name call) = None) /\
  validation_status (snd (text2sql_node (wired E extractor_depth llm_simple B py_upper sql_prompt _execute_sql _format_results) w st)) = success.
Proof.
  split.
  - rewrite tools_node_status. intros H.
    apply last_write_In in H as [H|H]; [discriminate|].
    apply in_map_iff in H as (o & Ho & Hin).
    pose proof (wired_outcomes (List.filter is_regular (tool_calls st)) w) as Hall.
    rewrite Forall_forall in Hall. destruct (Hall o Hin) as [->|[text ->]].
    + apply outcomes_unknown in Hin as (call & Hc & Hf).
      apply filter_In in Hc as [Hc Hr]. now exists call.
    + cbn [status_write] in Ho. destruct (has_error_keyword text); discriminate.
  - destruct (List.filter is_text2sql_call (tool_calls st)) as [|c l] eqn:Hf.
    + unfold text2sql_node. rewrite Hf. reflexivity.
    + assert (Hne : List.filter is_text2sql_call (tool_calls st) <> [])
        by (rewrite Hf; discriminate).
      destruct (text2sql_node_batch (wired E extractor_depth llm_simple B py_upper sql_prompt _execute_sql _format_results) w st Hne) as [Hs _]. rewrite Hs.
      pose proof (text2sql_loop_spec (wired E extractor_depth llm_simple B py_upper sql_prompt _execute_sql _format_results) (query st)
                    (List.filter is_text2sql_call (tool_calls st)) w (start_batch st))
        as (_ & _ & Hv).
      unfold write_batch.
      cbn [validation_status with_tool_execution_results with_tool_results
           with_validation_status].
      rewrite Hv.
      assert (Hok : forallb is_ok
                      (sql_outcomes (wired E extractor_depth llm_simple B py_upper sql_prompt _execute_sql _format_results) (query st)
                         (List.filter is_text2sql_call (tool_calls st)) w) = true).
      { apply forallb_forall. intros o Ho.
        pose proof (wired_sql_outcomes (query st)
                      (List.filter is_text2sql_call (tool_calls st)) w) as Hall.
        rewrite Forall_forall in Hall. destruct (Hall o Ho) as [text ->]. reflexivity. }
      rewrite Hok. reflexivity.
Qed.

End WiredFacts.

(** X14.  The agent as its constructor wires it, with the tools of the
    query parser and the SQL subsystem of [Text2SQLNode].  Neither execution
    stage ever catches an exception, since [parse_and_execute] and
    [execute_text2sql] turn every exception into text: in the structured
    stage each call either has an unknown name or returns a text, so the
    stage writes tool_error only when some call names no tool; and the SQL
    stage always writes success, a failed query included, whose error text
    is recorded as a result. *)
Theorem X14_wired_stages_catch_nothing :
  forall (W : Type) (E : Externals W) (extractor_depth : nat)
         (llm_simple : str -> W -> W * may_raise str)
         (B : QueryParser.Backends W) (py_upper : str -> str)
         (sql_prompt : json -> str) (DataFrame : Type)
         (_execute_sql : str -> W -> W * may_raise DataFrame)
         (_format_results : DataFrame -> json -> may_raise str)
         (w : W) (st : StockSearchState),
    let D := wired E extractor_depth llm_simple B py_upper sql_prompt _execute_sql _format_results in
    Forall (fun o => o = None \/ exists text, o = Some (Ok text))
           (outcomes D (List.filter is_regular (tool_calls st)) w) /\
    (validation_status (snd (tools_node D w st)) = tool_error ->
     exists call, In call (tool_calls st) /\ is_regular call = true /\
                  find_tool (call_name call) = None) /\
    Forall (fun o => exists text, o = Ok text)
           (sql_outcomes D (query st) (List.filter is_text2sql_call (tool_calls st)) w) /\
    validation_status (snd (text2sql_node D w st)) = success.
Proof.
  intros W E extractor_depth llm_simple B py_upper sql_prompt DataFrame _execute_sql
         _format_results w st D.
  split; [apply wired_outcomes|].
  destruct (wired_stages E extractor_depth llm_simple B py_upper sql_prompt
              _execute_sql _format_results w st) as [Ht Hs].
  split; [exact Ht|]. split; [apply wired_sql_outcomes | exact Hs].
Qed.

(** A query that the database rejects: the SQL stage records the error text
    as a result and reports success. *)
Example wired_sql_failure :
  let D := DemoTools.wired (Ok []) (Ok (u "```sql
SELECT 1;
```")) (Ok []) in
  let st' := snd (text2sql_node D tt (Demo.parsed [Demo.call "text2sql" "평균"])) in
  tool_execution_results st'
    = [u "text2sql 결과: TEXT2SQL 실행 중 오류 발생: no such table"] /\
  validation_status st' = success.
Proof. vm_compute. split; reflexivity. Qed.


(* ================================================================== *)
(** ** The extraction of the query from the reply of the SQL model *)
(* ================================================================== *)

Section StarFacts.

Variable A : Type.
Variable k : nat -> str -> caps -> option A.

Lemma star_run_ws_S (n pos : nat) (c : N) (s : str) (cs : caps) :
  isspace c = true ->
  star_run ws k (S n) pos (c :: s) cs =
    match star_run ws k n (S pos) s cs with
    | Some x => Some x
    | None => k pos (c :: s) cs
    end.
Proof.
  intros Hc. cbn [star_run ws go]. rewrite Hc.
  now rewrite (proj2 (Nat.ltb_lt pos (S pos)) (Nat.lt_succ_diag_r pos)).
Qed.

Lemma star_run_ws_stop (n pos : nat) (s : str) (cs : caps) :
  match s with [] => True | c :: _ => isspace c = false end ->
  star_run ws k n pos s cs = k pos s cs.
Proof.
  intros Hs. destruct n as [|n]; [reflexivity|]. cbn [star_run ws go].
  destruct s as [|c s]; [reflexivity|]. now rewrite Hs.
Qed.

(** The greedy star takes the whole run of spaces when what follows it
    succeeds there. *)
Lemma star_ws_longest (run rest : str) :
  forallb isspace run = true ->
  match rest with [] => True | c :: _ => isspace c = false end ->
  forall n pos cs x,
    (List.length run <= n)%nat ->
    k (pos + List.length run)%nat rest cs = Some x ->
    star_run ws k n pos (run ++ rest) cs = Some x.
Proof.
  intros Hall Hrest. induction run as [|c run IH]; intros n pos cs x Hn Hk.
  - cbn [app List.length] in *. rewrite Nat.add_0_r in Hk.
    now rewrite star_run_ws_stop.
  - cbn [forallb] in Hall. apply andb_true_iff in Hall as [Hc Hall].
    destruct n as [|n]; [cbn in Hn; lia|].
    cbn [app]. rewrite star_run_ws_S by exact Hc.
    rewrite (IH Hall n (S pos) cs x); [reflexivity | cbn in Hn; lia |].
    cbn [List.length] in Hk. now rewrite Nat.add_succ_r in Hk.
Qed.

(** It fails when what follows it fails after every part of the run. *)
Lemma star_ws_none (run rest : str) :
  forallb isspace run = true ->
  match rest with [] => True | c :: _ => isspace c = false end ->
  forall n pos cs,
    (forall a b, run = a ++ b ->
                 k (pos + List.length a)%nat (b ++ rest) cs = None) ->
    star_run ws k n pos (run ++ rest) cs = None.
Proof.
  intros Hall Hrest. induction run as [|c run IH]; intros n pos cs Hk.
  - cbn [app]. rewrite star_run_ws_stop by assumption.
    specialize (Hk [] [] eq_refl). cbn [app List.length] in Hk.
    now rewrite Nat.add_0_r in Hk.
  - cbn [forallb] in Hall. apply andb_true_iff in Hall as [Hc Hall].
    pose proof (Hk [] (c :: run) eq_refl) as H0.
    cbn [app List.length] in H0. rewrite Nat.add_0_r in H0.
    destruct n as [|n]; [exact H0|].
    cbn [app]. rewrite star_run_ws_S by exact Hc.
    rewrite (IH Hall n (S pos) cs); [exact H0|].
    intros a b Hab. specialize (Hk (c :: a) b). cbn [app List.length] in Hk.
    rewrite Nat.add_succ_r in Hk. apply Hk. now rewrite Hab.
Qed.

End StarFacts.

Section LazyFacts.

Variable A : Type.
Variable k : nat -> str -> option A.

Lemma lazy_any_here (pos : nat) (s : str) (x : A) :
  k pos s = Some x -> Text2SQL.lazy_any pos s k = Some x.
Proof. intros H. destruct s; cbn [Text2SQL.lazy_any]; now rewrite H. Qed.

(** The lazy star goes over a text at no offset of which what follows
    succeeds. *)
Lemma lazy_any_skip (body rest : str) :
  forall pos,
    (forall a c b, body = a ++ c :: b ->
                   k (pos + List.length a)%nat (c :: b ++ rest) = None) ->
    Text2SQL.lazy_any pos (body ++ rest) k
      = Text2SQL.lazy_any (pos + List.length body)%nat rest k.
Proof.
  induction body as [|c body IH]; intros pos Hk.
  - cbn [app List.length]. now rewrite Nat.add_0_r.
  - pose proof (Hk [] c body eq_refl) as H0.
    cbn [List.length] in H0. rewrite Nat.add_0_r in H0.
    cbn [app Text2SQL.lazy_any]. rewrite H0.
    rewrite (IH (S pos)).
    + cbn [List.length]. now rewrite Nat.add_succ_r.
    + intros a c' b Hab. specialize (Hk (c :: a) c' b).
      cbn [app List.length] in Hk. rewrite Nat.add_succ_r in Hk.
      apply Hk. now rewrite Hab.
Qed.

End LazyFacts.

Lemma length_lstrip (s : str) : (List.length (lstrip s) <= List.length s)%nat.
Proof.
  induction s as [|c s IH]; cbn [lstrip List.length]; [lia|].
  destruct (isspace c); cbn [List.length]; lia.
Qed.

Lemma lstrip_fixed (c : N) (s : str) : lstrip (c :: s) = c :: s -> isspace c = false.
Proof.
  cbn [lstrip]. destruct (isspace c); [|reflexivity].
  intros H. pose proof (length_lstrip s) as Hl. rewrite H in Hl.
  cbn [List.length] in Hl. lia.
Qed.

(** A text whose last character is no space starts with a run of spaces
    that a character which is no space follows. *)
Lemma space_run (s0 : str) (y : N) :
  isspace y = false ->
  exists run x rest,
    s0 ++ [y] = run ++ x :: rest /\ forallb isspace run = true /\ isspace x = false.
Proof.
  intros Hy. induction s0 as [|c s0 IH].
  - now exists [], y, [].
  - destruct IH as (run & x & rest & Heq & Hrun & Hx).
    destruct (isspace c) eqn:Hc.
    + exists (c :: run), x, rest. cbn [app forallb]. rewrite Heq, Hc, Hrun. now repeat split.
    + exists [], c, (s0 ++ [y]). now repeat split.
Qed.

Lemma suffix_last (a b s0 : str) (c y : N) :
  a ++ c :: b = s0 ++ [y] -> exists b0, c :: b = b0 ++ [y].
Proof.
  intros H.
  assert (Hne : c :: b <> []) by discriminate.
  destruct (exists_last Hne) as (b0 & z & Hz). exists b0. rewrite Hz in *.
  rewrite app_assoc in H. apply app_inj_tail in H as [_ ->]. reflexivity.
Qed.

Section Fenced.

Lemma opener_sql (pos : nat) (s : str) (A : Type)
      (k : nat -> str -> caps -> option A) :
  go Text2SQL.opener pos (u "```sql" ++ s) [] k = go (Star ws) (6 + pos) s [] k.
Proof. reflexivity. Qed.

Lemma opener_SQL (pos : nat) (s : str) (A : Type)
      (k : nat -> str -> caps -> option A) :
  go Text2SQL.opener pos (u "```SQL" ++ s) [] k = go (Star ws) (6 + pos) s [] k.
Proof. reflexivity. Qed.

Lemma opener_fails (pos : nat) (c : N) (s : str) (A : Type)
      (k : nat -> str -> caps -> option A) :
  c <> 96%N -> go Text2SQL.opener pos (c :: s) [] k = None.
Proof.
  intros Hc.
  change Text2SQL.opener with
    (Seq (Seq (Chr 96) (Seq (Chr 96) (Seq (Chr 96) Eps)))
       (Seq (Text2SQL.any_case [115; 83; 383]%N)
          (Seq (Text2SQL.any_case [113; 81]%N)
             (Seq (Text2SQL.any_case [108; 76]%N) (Star ws))))).
  cbn [go]. apply N.eqb_neq in Hc. now rewrite Hc.
Qed.

Lemma fence_matches (pos : nat) (s : str) (cs : caps) (A : Type)
      (k : nat -> str -> caps -> option A) :
  go (Lit (u "```")) pos (u "```" ++ s) cs k = k (3 + pos)%nat s cs.
Proof. reflexivity. Qed.

Lemma fence_fails (pos : nat) (c : N) (s : str) (cs : caps) (A : Type)
      (k : nat -> str -> caps -> option A) :
  c <> 96%N -> go (Lit (u "```")) pos (c :: s) cs k = None.
Proof.
  intros Hc. change (u "```") with [96; 96; 96]%N. cbn [Lit go].
  apply N.eqb_neq in Hc. now rewrite Hc.
Qed.

Lemma isspace_not_backtick (c : N) : isspace c = true -> c <> 96%N.
Proof. intros H ->. vm_compute in H. discriminate. Qed.

(** What follows the group succeeds in front of the closing fence. *)
Lemma closer_matches (gap post : str) (pos : nat) (A : Type)
      (k : nat -> str -> caps -> option A) (x : A) :
  forallb isspace gap = true ->
  k (3 + (pos + List.length gap))%nat post [] = Some x ->
  go Text2SQL.closer pos (gap ++ u "```" ++ post) [] k = Some x.
Proof.
  intros Hgap Hk. unfold Text2SQL.closer. cbn [go]. fold (go (A:=A)).
  change (go (Star ws) pos (gap ++ u "```" ++ post) []
            (fun pos' s' cs' => go (Lit (u "```")) pos' s' cs' k))
    with (star_run ws (fun pos' s' cs' => go (Lit (u "```")) pos' s' cs' k)
            (List.length (gap ++ u "```" ++ post)) pos (gap ++ u "```" ++ post) []).
  apply star_ws_longest.
  - assumption.
  - reflexivity.
  - rewrite length_app. lia.
  - now rewrite fence_matches.
Qed.

(** It fails inside a text without backtick that does not end with a
    space. *)
Lemma closer_fails (b0 rest : str) (y : N) (pos : nat) (A : Type)
      (k : nat -> str -> caps -> option A) :
  ~ In 96%N (b0 ++ [y]) -> isspace y = false ->
  go Text2SQL.closer pos ((b0 ++ [y]) ++ rest) [] k = None.
Proof.
  intros Hno Hy.
  destruct (@space_run b0 y Hy) as (run & x & tl & Heq & Hrun & Hx).
  rewrite Heq in *. rewrite <- app_assoc. cbn [app].
  unfold Text2SQL.closer. cbn [go]. fold (go (A:=A)).
  change (go (Star ws) pos (run ++ x :: tl ++ rest) []
            (fun pos' s' cs' => go (Lit (u "```")) pos' s' cs' k))
    with (star_run ws (fun pos' s' cs' => go (Lit (u "```")) pos' s' cs' k)
            (List.length (run ++ x :: tl ++ rest)) pos (run ++ (x :: tl ++ rest)) []).
  apply star_ws_none.
  - assumption.
  - exact Hx.
  - intros a b Hab. destruct b as [|c b].
    + cbn [app]. apply fence_fails. intros ->. apply Hno.
      apply in_or_app. right. now left.
    + cbn [app]. apply fence_fails. apply isspace_not_backtick.
      rewrite Hab in Hrun. rewrite forallb_app in Hrun.
      apply andb_true_iff in Hrun as [_ Hb]. cbn [forallb] in Hb.
      now apply andb_true_iff in Hb as [Hb _].
Qed.

Lemma fenced_from_skip (pre rest : str) :
  ~ In 96%N pre ->
  forall pos,
    Text2SQL.fenced_from pos (pre ++ rest)
      = Text2SQL.fenced_from (pos + List.length pre)%nat rest.
Proof.
  induction pre as [|c pre IH]; intros Hno pos.
  - cbn [app List.length]. now rewrite Nat.add_0_r.
  - cbn [app Text2SQL.fenced_from]. unfold Text2SQL.fenced_at at 1.
    rewrite opener_fails by (intros ->; apply Hno; now left).
    rewrite IH by (intros Hin; apply Hno; now right).
    cbn [List.length]. now rewrite Nat.add_succ_r.
Qed.

(** The group of the match at the opening fence. *)
Lemma fenced_at_block (gap1 body gap2 post : str) (pos : nat) :
  forallb isspace gap1 = true -> forallb isspace gap2 = true ->
  ~ In 96%N body -> lstrip body = body -> rstrip body = body ->
  go (Star ws) (6 + pos) (gap1 ++ body ++ gap2 ++ u "```" ++ post) []
     (fun p1 s1 _ =>
        Text2SQL.lazy_any p1 s1
          (fun p2 s2 =>
             go Text2SQL.closer p2 s2 []
                (fun _ _ _ => Some (firstn (p2 - p1) s1))))
  = Some body.
Proof.
  intros Hg1 Hg2 Hno Hl Hr. rewrite go_star.
  destruct body as [|x body'] eqn:Hbody.
  - cbn [app]. rewrite app_assoc.
    apply star_ws_longest.
    + rewrite forallb_app. now rewrite Hg1, Hg2.
    + reflexivity.
    + rewrite !length_app. lia.
    + apply lazy_any_here.
      apply (@closer_matches [] post); [reflexivity|].
      now rewrite Nat.sub_diag.
  - rewrite <- Hbody in *.
    assert (Hx : isspace x = false) by (apply (@lstrip_fixed x body'); congruence).
    assert (Hlast : exists s0 y, body = s0 ++ [y] /\ isspace y = false).
    { assert (Hne : body <> []) by (rewrite Hbody; discriminate).
      destruct (exists_last Hne) as (s0 & y & Hy). exists s0, y. split; [assumption|].
      unfold rstrip in Hr. rewrite Hy in Hr at 1. rewrite rev_app_distr in Hr.
      cbn [rev app] in Hr.
      apply (f_equal (@rev N)) in Hr. rewrite rev_involutive in Hr.
      rewrite Hy in Hr. rewrite rev_app_distr in Hr. cbn [rev app] in Hr.
      now apply lstrip_fixed in Hr. }
    destruct Hlast as (s0 & y & Hy & Hysp).
    apply star_ws_longest.
    + assumption.
    + rewrite Hbody. exact Hx.
    + rewrite length_app. lia.
    + rewrite lazy_any_skip.
      * apply lazy_any_here. apply closer_matches; [assumption|].
        f_equal. replace (6 + pos + List.length gap1 + List.length body
                          - (6 + pos + List.length gap1))%nat
          with (List.length body) by lia.
        rewrite firstn_app, Nat.sub_diag, firstn_all. cbn [firstn].
        now rewrite app_nil_r.
      * intros a c b Hab.
        assert (Hsuf : exists b0, c :: b = b0 ++ [y]).
        { apply (@suffix_last a b s0 c y). now rewrite <- Hab, <- Hy. }
        destruct Hsuf as (b0 & Hb0).
        change (c :: b ++ gap2 ++ u "```" ++ post)
          with ((c :: b) ++ gap2 ++ u "```" ++ post).
        rewrite Hb0. apply closer_fails; [|assumption].
        rewrite <- Hb0. intros Hin. apply Hno. rewrite Hab.
        apply in_or_app. now right.
Qed.

End Fenced.

(** X15.  A query in a fenced block is recovered.  For a reply made of any
    text without backtick, an opening fence tagged sql or SQL, white space,
    a body, white space, a closing fence and any text, the body having no
    backtick and no white space at either end, the extracted query is the
    body, character for character; a semicolon at its end stays. *)
Theorem X15_fenced_query_is_recovered :
  forall (py_upper : str -> str) (pre tag gap1 body gap2 post : str),
    ~ In 96%N pre ->
    tag = u "sql" \/ tag = u "SQL" ->
    forallb isspace gap1 = true -> forallb isspace gap2 = true ->
    ~ In 96%N body -> lstrip body = body -> rstrip body = body ->
    Text2SQL._extract_sql_from_response py_upper
      (pre ++ u "```" ++ tag ++ gap1 ++ body ++ gap2 ++ u "```" ++ post) = body.
Proof.
  intros py_upper pre tag gap1 body gap2 post Hpre Htag Hg1 Hg2 Hno Hl Hr.
  unfold Text2SQL._extract_sql_from_response, Text2SQL.fenced.
  rewrite (@fenced_from_skip pre _ Hpre). cbn [Nat.add].
  assert (Hat : Text2SQL.fenced_at (List.length pre)
                  (u "```" ++ tag ++ gap1 ++ body ++ gap2 ++ u "```" ++ post)
                = Some body).
  { unfold Text2SQL.fenced_at. destruct Htag as [-> | ->].
    - change (u "```" ++ u "sql" ++ gap1 ++ body ++ gap2 ++ u "```" ++ post)
        with (u "```sql" ++ gap1 ++ body ++ gap2 ++ u "```" ++ post).
      rewrite opener_sql. now apply fenced_at_block.
    - change (u "```" ++ u "SQL" ++ gap1 ++ body ++ gap2 ++ u "```" ++ post)
        with (u "```SQL" ++ gap1 ++ body ++ gap2 ++ u "```" ++ post).
      rewrite opener_SQL. now apply fenced_at_block. }
  assert (Hfrom : forall s, Text2SQL.fenced_at (List.length pre) s = Some body ->
                            Text2SQL.fenced_from (List.length pre) s = Some body).
  { intros s Hs. destruct s; cbn [Text2SQL.fenced_from]; now rewrite Hs. }
  rewrite (Hfrom _ Hat). unfold strip. now rewrite Hl, Hr.
Qed.

Lemma X15_fenced_query_is_recovered_witness :
  Text2SQL._extract_sql_from_response DemoTools.ascii_upper
    (u "다음과 같습니다:
" ++ u "```" ++ u "sql" ++ [10%N] ++ u "SELECT stock_name FROM stock_prices LIMIT 5;"
      ++ [10%N] ++ u "```" ++ u " 끝")
  = u "SELECT stock_name FROM stock_prices LIMIT 5;".
Proof.
  apply X15_fenced_query_is_recovered.
  - vm_compute. intros H. repeat (destruct H as [H|H]; [discriminate H|]). exact H.
  - left. reflexivity.
  - reflexivity.
  - reflexivity.
  - vm_compute. intros H. repeat (destruct H as [H|H]; [discriminate H|]). exact H.
  - vm_compute. reflexivity.
  - vm_compute. reflexivity.
Defined.

Section Fallback.

Variable py_upper : str -> str.

Lemma scan_lines_prefix (lines : list str) :
  forall in_sql acc,
    exists tl, Text2SQL.scan_lines py_upper lines in_sql acc = acc ++ tl.
Proof.
  induction lines as [|line0 rest IH]; intros in_sql acc; cbn [Text2SQL.scan_lines].
  - exists []. now rewrite app_nil_r.
  - cbv zeta.
    destruct (in_sql || startswith (u "SELECT") (py_upper (strip line0))).
    + destruct (Text2SQL.endswith (u ";") (strip line0) || _).
      * now exists [strip line0].
      * destruct (IH true (acc ++ [strip line0])) as (tl & ->).
        exists (strip line0 :: tl). now rewrite <- app_assoc.
    + apply IH.
Qed.

Lemma scan_lines_first (lines : list str) :
  Text2SQL.scan_lines py_upper lines false [] = [] \/
  exists first rest,
    Text2SQL.scan_lines py_upper lines false [] = first :: rest /\
    startswith (u "SELECT") (py_upper first) = true.
Proof.
  induction lines as [|line0 rest IH]; cbn [Text2SQL.scan_lines]; [now left|].
  cbv zeta. cbn [orb app].
  destruct (startswith (u "SELECT") (py_upper (strip line0))) eqn:Hs; [|exact IH].
  right. destruct (Text2SQL.endswith (u ";") (strip line0) || _).
  - now exists (strip line0), [].
  - destruct (scan_lines_prefix rest true [strip line0]) as (tl & ->).
    now exists (strip line0), tl.
Qed.

Lemma scan_lines_none (lines : list str) :
  Forall (fun line => startswith (u "SELECT") (py_upper (strip line)) = false) lines ->
  Text2SQL.scan_lines py_upper lines false [] = [].
Proof.
  induction 1 as [|line0 rest H0 _ IH]; cbn [Text2SQL.scan_lines]; [reflexivity|].
  cbv zeta. cbn [orb]. now rewrite H0.
Qed.

Lemma scan_lines_stop (lines : list str) :
  forall in_sql acc,
    Forall (fun line => Text2SQL.endswith (u ";") line = false) acc ->
    Forall (fun line => Text2SQL.endswith (u ";") line = false)
           (removelast (Text2SQL.scan_lines py_upper lines in_sql acc)).
Proof.
  induction lines as [|line0 rest IH]; intros in_sql acc Hacc;
    cbn [Text2SQL.scan_lines].
  - clear -Hacc. induction Hacc as [|x l Hx Hl IHl]; [constructor|].
    cbn [removelast]. destruct l; [constructor | now constructor].
  - cbv zeta.
    destruct (in_sql || startswith (u "SELECT") (py_upper (strip line0))).
    + destruct (Text2SQL.endswith (u ";") (strip line0)) eqn:He; cbn [orb].
      * now rewrite removelast_last.
      * destruct (nonempty (strip line0) && _).
        -- now rewrite removelast_last.
        -- apply IH. apply Forall_app. split; [assumption|]. now repeat constructor.
    + now apply IH.
Qed.

Lemma lstrip_char_head (c : N) (s : str) : startswith [c] (Text2SQL.lstrip_char c s) = false.
Proof.
  induction s as [|x s IH]; [reflexivity|]. cbn [Text2SQL.lstrip_char].
  destruct (x =? c)%N eqn:Hx; [exact IH|].
  unfold startswith. cbn [strip_prefix]. rewrite N.eqb_sym, Hx. reflexivity.
Qed.

Lemma rstrip_semicolon_end (s : str) :
  Text2SQL.endswith (u ";") (Text2SQL.rstrip_semicolon s) = false.
Proof.
  unfold Text2SQL.endswith, Text2SQL.rstrip_semicolon. rewrite rev_involutive.
  apply lstrip_char_head.
Qed.

End Fallback.

(** X16.  The extraction from a reply without fenced block.  The query is
    made of the trimmed lines from the first line that starts with SELECT,
    in whatever case, up to and including the first line that ends with a
    semicolon or starts with none of the ten keywords; so nothing is
    extracted when no line starts with SELECT, a clause before the first
    SELECT line (a WITH clause, say) is left out, no extracted line but the
    last ends with a semicolon, and the query itself never ends with one. *)
Theorem X16_query_without_fence :
  forall (py_upper : str -> str) (response : str),
    Text2SQL.fenced response = None ->
    let lines := Text2SQL.scan_lines py_upper (split_on 10 response) false [] in
    let sql := Text2SQL._extract_sql_from_response py_upper response in
    sql = Text2SQL.rstrip_semicolon (join [10%N] lines) /\
    Text2SQL.endswith (u ";") sql = false /\
    (lines = [] \/
     exists first rest,
       lines = first :: rest /\ startswith (u "SELECT") (py_upper first) = true) /\
    Forall (fun line => Text2SQL.endswith (u ";") line = false) (removelast lines) /\
    (Forall (fun line => startswith (u "SELECT") (py_upper (strip line)) = false)
            (split_on 10 response) ->
     sql = []).
Proof.
  intros py_upper response Hf lines sql.
  assert (Hsql : sql = Text2SQL.rstrip_semicolon (join [10%N] lines)).
  { unfold sql, Text2SQL._extract_sql_from_response. now rewrite Hf. }
  split; [exact Hsql|]. split; [|split; [|split]].
  - rewrite Hsql. apply rstrip_semicolon_end.
  - apply scan_lines_first.
  - apply scan_lines_stop. constructor.
  - intros Hnone. rewrite Hsql. unfold lines.
    now rewrite (@scan_lines_none py_upper _ Hnone).
Qed.

Lemma X16_query_without_fence_witness :
  Text2SQL._extract_sql_from_response DemoTools.ascii_upper
    (u "WITH t AS (SELECT 1)
select stock_name
from stock_prices;
LIMIT 5")
  = u "select stock_name
from stock_prices".
Proof.
  pose proof (@X16_query_without_fence DemoTools.ascii_upper
                (u "WITH t AS (SELECT 1)
select stock_name
from stock_prices;
LIMIT 5") ltac:(vm_compute; reflexivity)) as H.
  cbv zeta in H. destruct H as (H & _). rewrite H. vm_compute. reflexivity.
Defined.

(* ================================================================== *)
(** ** The market suffixes of a stock code *)
(* ================================================================== *)

Lemma contains_app_r (kw a b : str) : contains kw b = true -> contains kw (a ++ b) = true.
Proof.
  intros H. induction a as [|x a IH]; [exact H|].
  cbn [app contains]. rewrite IH. apply orb_true_r.
Qed.

Lemma startswith_app (a b : str) : startswith a (a ++ b) = true.
Proof.
  unfold startswith. induction a as [|x a IH]; [reflexivity|].
  cbn [app strip_prefix]. rewrite N.eqb_refl. exact IH.
Qed.

(** X17.  The candidates that [_format_ticker] gives for a code: a code
    that contains a dot is the only candidate; any other code gives three
    candidates, the code followed by .KS, .KQ and .KN, in that order.
    Every candidate starts with the code and contains a dot, so that
    formatting a candidate again gives the candidate alone. *)
Theorem X17_format_ticker_candidates :
  forall ticker : str,
    let candidates := BasicQueries._format_ticker ticker in
    (contains (u ".") ticker = true -> candidates = [ticker]) /\
    (contains (u ".") ticker = false ->
       candidates = [ticker ++ u ".KS"; ticker ++ u ".KQ"; ticker ++ u ".KN"]) /\
    candidates <> [] /\
    Forall (fun c => startswith ticker c = true /\ contains (u ".") c = true
                     /\ BasicQueries._format_ticker c = [c]) candidates.
Proof.
  intros ticker candidates. unfold candidates, BasicQueries._format_ticker.
  destruct (contains (u ".") ticker) eqn:Hdot.
  - repeat split; try discriminate.
    constructor; [|constructor]. repeat split.
    + rewrite <- (app_nil_r ticker) at 2. apply startswith_app.
    + assumption.
    + now rewrite Hdot.
  - repeat split; try discriminate.
    repeat constructor; try apply startswith_app;
      try (apply contains_app_r; reflexivity);
      rewrite contains_app_r; reflexivity.
Qed.


(* ================================================================== *)
(** ** The lookup of a stock price *)
(* ================================================================== *)

Section Lookup.

Variable W : Type.
Variable Row : Type.
Variable isdigit : str -> bool.
Variable get_company_info : str -> W -> W * may_raise (list str).
Variable get_stock_price : str -> json -> W -> W * may_raise (list Row).
Variable price_text : Row -> may_raise str.
Variable py_repr : json -> str.




End Lookup.



(* ================================================================== *)
(** ** The records of the structured stage *)
(* ================================================================== *)

Section Details.

Variable W : Type.
Variable E : Externals W.

Lemma tools_loop_details (calls : list dict) :
  forall w b,
    b_tool_results (snd (tools_loop E calls w b)) =
      b_tool_results b ++ details calls (outcomes E calls w) (b_validation_status b).
Proof.
  induction calls as [|c l IH]; intros w b.
  - cbn [tools_loop snd details outcomes]. now rewrite app_nil_r.
  - cbn [tools_loop outcomes]. unfold tools_step.
    destruct (find_tool (call_name c)) as [t|].
    + destruct (tool_func E t (call_args c) w) as [w' [r|e]].
      * rewrite IH. cbn [b_tool_results b_validation_status details].
        now rewrite <- app_assoc.
      * rewrite IH. reflexivity.
    + rewrite IH. reflexivity.
Qed.

Lemma details_length (calls : list dict) :
  forall os status,
    List.length os = List.length calls ->
    List.length (details calls os status) =
      List.length (List.filter (fun o => match o with
                                         | Some (Ok _) => true
                                         | _ => false
                                         end) os).
Proof.
  induction calls as [|c l IH]; intros os status Hl.
  - destruct os; [reflexivity | discriminate].
  - destruct os as [|o os]; [discriminate|]. cbn [List.length] in Hl.
    injection Hl as Hl. cbn [details List.filter].
    destruct o as [[r|e]|]; cbn [List.length]; now rewrite IH.
Qed.

End Details.

(** X19.  What the structured stage records in [tool_results].  A record
    is added for each call that returned, in order, and none for a call
    that raised or that names no tool; the status kept in a record is the
    status of the batch after that call, not the outcome of the call alone,
    so that a call that returns after a call that failed is recorded with
    the status tool_error unless its own result reports a missing
    parameter. *)
Theorem X19_recorded_results :
  forall (W : Type) (E : Externals W) (w : W) (st : StockSearchState),
    let calls := List.filter is_regular (tool_calls st) in
    let os := outcomes E calls w in
    let st' := snd (tools_node E w st) in
    calls <> [] ->
    tool_results st' = tool_results st ++ details calls os success /\
    List.length (tool_results st') =
      (List.length (tool_results st) +
       List.length (List.filter (fun o => match o with
                                          | Some (Ok _) => true
                                          | _ => false
                                          end) os))%nat /\
    (forall c1 c2 e r,
        calls = [c1; c2] -> os = [Some (Raise e); Some (Ok r)] ->
        has_error_keyword r = false ->
        tool_results st' =
          tool_results st ++ [mk_detail (call_name c2) (call_args c2) r tool_error]).
Proof.
  intros W E w st calls os st' Hne.
  destruct (tools_node_batch E w st Hne) as [Hs _].
  assert (Hres : tool_results st' = tool_results st ++ details calls os success).
  { unfold st'. rewrite Hs. unfold write_batch.
    cbn [tool_results with_tool_execution_results with_tool_results].
    apply (@tools_loop_details W E calls w (start_batch st)). }
  split; [exact Hres|]. split.
  - rewrite Hres, length_app. f_equal. apply details_length.
    apply outcomes_length.
  - intros c1 c2 e r Hc Ho Hkw. rewrite Hres, Hc, Ho.
    cbn [details]. now rewrite Hkw.
Qed.

Lemma X19_recorded_results_witness :
  let st := Demo.parsed [Demo.call "search_company" "boom";
                         Demo.call "get_market_index" "c"] in
  tool_results (snd (tools_node Demo.quiet tt st))
    = [mk_detail (JString (u "get_market_index")) (JString (u "c")) (u "ok c")
         tool_error].
Proof.
  intros st.
  pose proof (@X19_recorded_results unit Demo.quiet tt st) as H.
  cbv zeta in H.
  destruct (H ltac:(vm_compute; discriminate)) as (_ & _ & H3).
  rewrite (H3 (Demo.call "search_company" "boom") (Demo.call "get_market_index" "c")
              (External (u "connection lost")) (u "ok c"));
    vm_compute; reflexivity.
Defined.
